(** * AssistX command interpreter: a shallow embedding and its properties

    This development embeds the natural-language command interpretation
    engine of the AssistX voice assistant
    ([nlp/command_interpreter.py], class [CommandInterpreter]) together
    with the part of [database/db_manager.py] it talks to, and proves
    properties of the classifier, the entity extractor, the time resolver
    and the intent handlers.  Around it come the start-up of the
    database ([initialize], [populate_demo_data]), the endpoint
    [/api/voice/process-command] of [main.py] that calls the
    interpreter, and the part of [voice/voice_synthesizer.py] that
    endpoint calls.

    Modelling conventions.
    - Python [str] values are Rocq [string]s; the embedding is exact on
      ASCII text (code points below 128).  Characters above 127 are
      treated as caseless, non-space, non-word characters.
    - Patterns are the raw strings of the source, compiled by
      [re_compile] and run by a backtracking matcher that enumerates
      matches in the order [re] tries them.
    - Python exceptions are values of type [exn]; code that can raise
      lives in the [result] monad, code that also touches the wall clock
      or the database lives in the state monad [M] over [world].  Only
      [Exception]s are modelled; [await] is sequencing.
    - [datetime.now()] is a reading of a clock oracle held by the world,
      so that code reading the clock is told apart from code that is
      handed a time.
    - The database manager is an interface ([DbManager]); the handlers
      are written against it and the SQLite-backed implementation of the
      repository is one instance.  [dateutil.parser.parse] is a
      parameter of the interpreter.
    - The confidence score, a Python [float] obtained as the quotient of
      two string lengths, is a rational [Q].  All confidences compared in
      one classification share the denominator [len(command)], so the
      order of the floats is the order of the rationals (for commands
      shorter than 2^52 characters).
    - Calls to [logger] and the NLTK set-up of [__init__], which have no
      bearing on what the interpreter returns, are left out. *)

From Stdlib Require Import String Ascii List ZArith NArith QArith Lia Bool.
From stdpp Require Import base option gmap strings sorting.
Import ListNotations.

Open Scope string_scope.
Open Scope list_scope.
Open Scope nat_scope.

(** ** Exceptions and the error monad *)

Inductive exn : Type :=
| Exn (cls msg : string).

Definition exn_str (e : exn) : string :=
  match e with Exn _ msg => msg end.

Definition ZeroDivisionError : exn := Exn "ZeroDivisionError" "division by zero".
Definition AttributeError : exn :=
  Exn "AttributeError" "'NoneType' object has no attribute 'strip'".
Definition TypeError_naive_aware : exn :=
  Exn "TypeError" "can't compare offset-naive and offset-aware datetimes".
Definition OverflowError : exn := Exn "OverflowError" "date value out of range".
Definition ValueError (msg : string) : exn := Exn "ValueError" msg.
Definition ReError : exn := Exn "re.error" "unsupported or malformed pattern".

Inductive result (A : Type) : Type :=
| Ok (a : A)
| Raise (e : exn).
Arguments Ok {A} a.
Arguments Raise {A} e.

Definition rbind {A B : Type} (r : result A) (f : A -> result B) : result B :=
  match r with
  | Ok a => f a
  | Raise e => Raise e
  end.

#[export] Instance result_ret : MRet result := fun _ a => Ok a.
#[export] Instance result_bind : MBind result := fun _ _ f r => rbind r f.

(** [for x in l: acc = f(acc, x)], where the body may raise. *)
Fixpoint foldM {A B : Type} (f : A -> B -> result A) (l : list B) (acc : A)
  : result A :=
  match l with
  | [] => Ok acc
  | x :: l' => acc' ← f acc x; foldM f l' acc'
  end.

(** ** Characters and strings (the [str] methods the interpreter uses) *)

Definition code (a : ascii) : N := N_of_ascii a.

Definition in_range (lo hi : N) (a : ascii) : bool :=
  ((lo <=? code a) && (code a <=? hi))%N.

Definition is_upper (a : ascii) : bool := in_range 65 90 a.
Definition is_lower (a : ascii) : bool := in_range 97 122 a.
Definition is_digit (a : ascii) : bool := in_range 48 57 a.
(** [str.isspace] on ASCII: TAB..CR, FS..US and the blank. *)
Definition is_space (a : ascii) : bool := in_range 9 13 a || in_range 28 32 a.
Definition is_word (a : ascii) : bool :=
  is_upper a || is_lower a || is_digit a || (code a =? 95)%N.

Definition lower_char (a : ascii) : ascii :=
  if is_upper a then ascii_of_N (code a + 32) else a.
Definition upper_char (a : ascii) : ascii :=
  if is_lower a then ascii_of_N (code a - 32) else a.

Fixpoint str_map (f : ascii -> ascii) (s : string) : string :=
  match s with
  | EmptyString => EmptyString
  | String a s' => String (f a) (str_map f s')
  end.

(** [s.lower()] *)
Definition str_lower (s : string) : string := str_map lower_char s.

Fixpoint lstrip (s : string) : string :=
  match s with
  | String a s' => if is_space a then lstrip s' else s
  | EmptyString => EmptyString
  end.

Fixpoint rstrip (s : string) : string :=
  match s with
  | EmptyString => EmptyString
  | String a s' =>
      match rstrip s' with
      | EmptyString => if is_space a then EmptyString else String a EmptyString
      | t => String a t
      end
  end.

(** [s.strip()] *)
Definition str_strip (s : string) : string := rstrip (lstrip s).

(** [s.title()]: a cased character is upper-cased when it follows an
    uncased one and lower-cased otherwise. *)
Fixpoint title_from (prev_cased : bool) (s : string) : string :=
  match s with
  | EmptyString => EmptyString
  | String a s' =>
      if is_upper a || is_lower a
      then String (if prev_cased then lower_char a else upper_char a)
                  (title_from true s')
      else String a (title_from false s')
  end.
Definition str_title (s : string) : string := title_from false s.

Fixpoint starts_with (p s : string) : bool :=
  match p, s with
  | EmptyString, _ => true
  | String a p', String b s' => Ascii.eqb a b && starts_with p' s'
  | String _ _, EmptyString => false
  end.

(** [sub in s] *)
Fixpoint str_contains (sub s : string) : bool :=
  starts_with sub s ||
  match s with
  | EmptyString => false
  | String _ s' => str_contains sub s'
  end.

(** [s.replace(old, new)] for a one-character [old]. *)
Fixpoint replace_char (old : ascii) (new : string) (s : string) : string :=
  match s with
  | EmptyString => EmptyString
  | String a s' =>
      if Ascii.eqb a old then new ++ replace_char old new s'
      else String a (replace_char old new s')
  end.

(** Truthiness of a string: [if s:] / [if not s:]. *)
Definition truthy (s : string) : bool :=
  match s with EmptyString => false | _ => true end.

Definition len (s : string) : nat := String.length s.

(** Decimal rendering of numbers, as [str(n)] and the [%02d]-style fields
    of [strftime] / [isoformat] produce them. *)
Definition digit_char (d : N) : ascii := ascii_of_N (48 + d).

Fixpoint dec_digits (fuel : nat) (n : N) (acc : string) : string :=
  match fuel with
  | O => acc
  | S fuel' =>
      let acc' := String (digit_char (n mod 10)) acc in
      if (n <? 10)%N then acc' else dec_digits fuel' (n / 10) acc'
  end.

Definition str_of_N (n : N) : string := dec_digits (S (N.to_nat (N.log2 n))) n "".

Fixpoint zeros (k : nat) : string :=
  match k with O => "" | S k' => String "0" (zeros k') end.

(** [n] rendered on at least [w] digits, zero-padded on the left. *)
Definition pad (w : nat) (n : N) : string :=
  let d := str_of_N n in zeros (w - len d) ++ d.

Definition str_of_Z (z : Z) : string :=
  match z with
  | Z0 => "0"
  | Zpos p => str_of_N (Npos p)
  | Zneg p => "-" ++ str_of_N (Npos p)
  end.

(** ** Regular expressions: the fragment of [re] the interpreter uses

    Patterns are kept as the source writes them (raw strings) and are
    compiled by [re_compile].  The fragment covers literals, [.], the
    classes [\s \d \w], escaped punctuation, bracket sets with ranges and
    negation, capturing and non-capturing groups, alternation and the
    greedy quantifiers [* + ?] applied to a single-character atom, which
    is all the interpreter's patterns need. *)

Inductive citem : Type :=
| CChar (a : ascii)
| CRange (lo hi : ascii)
| CSpace
| CDigit
| CWord.

Inductive cset : Type :=
| Any                                   (* [.]: anything but a newline *)
| Lit (a : ascii)
| Cls (neg : bool) (items : list citem).

Inductive regex : Type :=
| Eps
| One (c : cset)
| Star (c : cset)
| Plus (c : cset)
| Opt (c : cset)
| Seq (r1 r2 : regex)
| Alt (r1 r2 : regex)
| Grp (n : nat) (r : regex).

Definition citem_mem (it : citem) (a : ascii) : bool :=
  match it with
  | CChar c => Ascii.eqb a c
  | CRange lo hi => in_range (code lo) (code hi) a
  | CSpace => is_space a
  | CDigit => is_digit a
  | CWord => is_word a
  end.

(** Membership of a character in an atom; [icase] is [re.IGNORECASE]. *)
Definition cset_mem (icase : bool) (c : cset) (a : ascii) : bool :=
  match c with
  | Any => negb (Ascii.eqb a "010")
  | Lit c =>
      if icase then Ascii.eqb (lower_char a) (lower_char c) else Ascii.eqb a c
  | Cls neg items =>
      xorb neg
        (existsb (fun it =>
                    citem_mem it a ||
                    (icase && (citem_mem it (lower_char a) ||
                               citem_mem it (upper_char a)))) items)
  end.

(** *** Compiling a pattern string *)

Definition is_quantifier (a : ascii) : bool :=
  Ascii.eqb a "*" || Ascii.eqb a "+" || Ascii.eqb a "?" || Ascii.eqb a "{".

Definition quantifier_ahead (s : string) : bool :=
  match s with String a _ => is_quantifier a | EmptyString => false end.

Definition escape_item (a : ascii) : option citem :=
  if Ascii.eqb a "s" then Some CSpace
  else if Ascii.eqb a "d" then Some CDigit
  else if Ascii.eqb a "w" then Some CWord
  else if is_word a then None
  else Some (CChar a).

Fixpoint parse_class (fuel : nat) (s : string) (acc : list citem)
  : option (list citem * string) :=
  match fuel with
  | O => None
  | S fuel' =>
      match s with
      | EmptyString => None
      | String "]" s' => Some (rev acc, s')
      | String "\" (String a s') =>
          match escape_item a with
          | Some it => parse_class fuel' s' (it :: acc)
          | None => None
          end
      | String lo (String "-" (String hi s')) =>
          if Ascii.eqb hi "]" then parse_class fuel' (String "-" (String hi s')) (CChar lo :: acc)
          else parse_class fuel' s' (CRange lo hi :: acc)
      | String a s' => parse_class fuel' s' (CChar a :: acc)
      end
  end.

Definition parse_atom (s : string) : option (cset * string) :=
  match s with
  | EmptyString => None
  | String "." s' => Some (Any, s')
  | String "\" (String a s') =>
      match escape_item a with
      | Some (CChar c) => Some (Lit c, s')
      | Some it => Some (Cls false [it], s')
      | None => None
      end
  | String "\" EmptyString => None
  | String "[" (String "^" s') =>
      match parse_class (len s') s' [] with
      | Some (items, s'') => Some (Cls true items, s'')
      | None => None
      end
  | String "[" s' =>
      match parse_class (len s') s' [] with
      | Some (items, s'') => Some (Cls false items, s'')
      | None => None
      end
  | String a s' =>
      if is_quantifier a || Ascii.eqb a "^" || Ascii.eqb a "$" || Ascii.eqb a "}"
      then None
      else Some (Lit a, s')
  end.

Definition quantify (c : cset) (s : string) : regex * string :=
  match s with
  | String "*" s' => (Star c, s')
  | String "+" s' => (Plus c, s')
  | String "?" s' => (Opt c, s')
  | _ => (One c, s)
  end.

Definition mk_seq (r1 r2 : regex) : regex :=
  match r1 with Eps => r2 | _ => Seq r1 r2 end.

Definition close_alt (alts : option regex) (sq : regex) : regex :=
  match alts with None => sq | Some a => Alt a sq end.

(** [parse fuel s g sq alts]: [sq] is the sequence read so far in the
    current alternative, [alts] the alternatives already closed, [g] the
    number of capturing groups opened so far (groups are numbered by
    their opening parenthesis).  Stops at the end or at an unmatched
    [)], which is left in the remaining input. *)
Fixpoint parse (fuel : nat) (s : string) (g : nat) (sq : regex)
  (alts : option regex) : option (regex * string * nat) :=
  match fuel with
  | O => None
  | S fuel' =>
      match s with
      | EmptyString => Some (close_alt alts sq, s, g)
      | String ")" _ => Some (close_alt alts sq, s, g)
      | String "|" s' => parse fuel' s' g Eps (Some (close_alt alts sq))
      | String "(" (String "?" (String ":" body)) =>
          match parse fuel' body g Eps None with
          | Some (r, String ")" s'', g') =>
              if quantifier_ahead s'' then None
              else parse fuel' s'' g' (mk_seq sq r) alts
          | _ => None
          end
      | String "(" (String "?" _) => None
      | String "(" body =>
          match parse fuel' body (S g) Eps None with
          | Some (r, String ")" s'', g') =>
              if quantifier_ahead s'' then None
              else parse fuel' s'' g' (mk_seq sq (Grp (S g) r)) alts
          | _ => None
          end
      | _ =>
          match parse_atom s with
          | Some (c, s') =>
              let '(r, s'') := quantify c s' in
              if quantifier_ahead s'' then None
              else parse fuel' s'' g (mk_seq sq r) alts
          | None => None
          end
      end
  end.

(** [re.compile(pattern)]: the compiled expression and its number of
    capturing groups; [None] outside the fragment. *)
Definition re_compile (pattern : string) : option (regex * nat) :=
  match parse (S (len pattern)) pattern 0 Eps None with
  | Some (r, EmptyString, g) => Some (r, g)
  | _ => None
  end.

(** *** Backtracking matcher

    [run icase r st] lists, in the order a backtracking engine tries
    them, every state in which [r] can finish when started in [st].
    The first element is therefore the match [re] reports: quantifiers
    are greedy (longest first), alternatives are tried left to right. *)

Definition span : Type := nat * nat.

Record mstate : Type := MState {
  pos : nat;                       (* offset in the searched text *)
  rest : string;                   (* text from [pos] on *)
  caps : list (nat * span)         (* groups closed so far, latest first *)
}.

Definition one_run (icase : bool) (c : cset) (st : mstate) : list mstate :=
  match rest st with
  | String a s' =>
      if cset_mem icase c a then [MState (S (pos st)) s' (caps st)] else []
  | EmptyString => []
  end.

Fixpoint star_run (icase : bool) (c : cset) (p : nat) (s : string)
  (cp : list (nat * span)) : list mstate :=
  match s with
  | String a s' =>
      if cset_mem icase c a
      then star_run icase c (S p) s' cp ++ [MState p s cp]
      else [MState p s cp]
  | EmptyString => [MState p s cp]
  end.

Definition star_from (icase : bool) (c : cset) (st : mstate) : list mstate :=
  star_run icase c (pos st) (rest st) (caps st).

Fixpoint run (icase : bool) (r : regex) (st : mstate) : list mstate :=
  match r with
  | Eps => [st]
  | One c => one_run icase c st
  | Star c => star_from icase c st
  | Plus c => flat_map (star_from icase c) (one_run icase c st)
  | Opt c => one_run icase c st ++ [st]
  | Seq r1 r2 => flat_map (run icase r2) (run icase r1 st)
  | Alt r1 r2 => run icase r1 st ++ run icase r2 st
  | Grp n r' =>
      map (fun st' =>
             MState (pos st') (rest st') ((n, (pos st, pos st')) :: caps st'))
          (run icase r' st)
  end.

(** *** Match objects *)

Inductive pyval : Type :=
| PyNone
| PyStr (s : string).

Record re_match : Type := ReMatch {
  m_string : string;               (* the searched text *)
  m_start : nat;
  m_end : nat;
  m_caps : list (nat * span);
  m_ngroups : nat                  (* capturing groups of the pattern *)
}.

Definition slice (s : string) (sp : span) : string :=
  substring (fst sp) (snd sp - fst sp) s.

(** [match.group(0)] *)
Definition group0 (m : re_match) : string :=
  slice (m_string m) (m_start m, m_end m).

Fixpoint assoc_span (n : nat) (l : list (nat * span)) : option span :=
  match l with
  | [] => None
  | (k, sp) :: l' => if Nat.eqb k n then Some sp else assoc_span n l'
  end.

(** [match.group(n)] for [n >= 1]: [None] for a group that took no part
    in the match, [IndexError] for a group the pattern does not have. *)
Definition group (m : re_match) (n : nat) : result pyval :=
  if m_ngroups m <? n then Raise (Exn "IndexError" "no such group")
  else Ok (match assoc_span n (m_caps m) with
           | Some sp => PyStr (slice (m_string m) sp)
           | None => PyNone
           end).

(** Truthiness of [match.groups()]: the tuple has one entry per group. *)
Definition has_groups (m : re_match) : bool := 0 <? m_ngroups m.

Fixpoint search_from (icase : bool) (r : regex) (ng : nat) (text : string)
  (p : nat) (s : string) : option re_match :=
  match run icase r (MState p s []) with
  | st :: _ => Some (ReMatch text p (pos st) (caps st) ng)
  | [] =>
      match s with
      | String _ s' => search_from icase r ng text (S p) s'
      | EmptyString => None
      end
  end.

(** [re.search(pattern, text, flags)] with [icase] for [re.IGNORECASE]. *)
Definition re_search (pattern text : string) (icase : bool)
  : result (option re_match) :=
  match re_compile pattern with
  | Some (r, ng) => Ok (search_from icase r ng text 0 text)
  | None => Raise ReError
  end.

(** [re.sub]: leftmost non-overlapping matches are replaced; [skip]
    counts the characters of the current match still to be dropped.  An
    empty match inserts [repl] and keeps the character (Python 3.7+). *)
Fixpoint sub_from (icase : bool) (r : regex) (repl : string) (skip : nat)
  (s : string) : string :=
  match skip with
  | S k =>
      match s with
      | String _ s' => sub_from icase r repl k s'
      | EmptyString => EmptyString
      end
  | O =>
      match run icase r (MState 0 s []) with
      | st :: _ =>
          match s with
          | EmptyString => repl
          | String a s' =>
              match pos st with
              | O => repl ++ String a (sub_from icase r repl 0 s')
              | S k => repl ++ sub_from icase r repl k s'
              end
          end
      | [] =>
          match s with
          | String a s' => String a (sub_from icase r repl 0 s')
          | EmptyString => EmptyString
          end
      end
  end.

Definition re_sub (pattern repl text : string) : result string :=
  match re_compile pattern with
  | Some (r, _) => Ok (sub_from false r repl 0 text)
  | None => Raise ReError
  end.

(** ** The classifier and the entity extractors *)

Abbreviation entities := (gmap string pyval).

(** [len(a) / len(b)] on floats. *)
Definition py_div (n d : nat) : result Q :=
  match d with
  | O => Raise ZeroDivisionError
  | S _ => Ok (Z.of_nat n # Pos.of_nat d)
  end.

(** [a > b] on confidences. *)
Definition Qgt_bool (a b : Q) : bool := negb (Qle_bool a b).

(** [v.strip()] *)
Definition py_strip (v : pyval) : result string :=
  match v with
  | PyStr s => Ok (str_strip s)
  | PyNone => Raise AttributeError
  end.

(** [CommandInterpreter._load_intent_patterns]: the dictionary literal,
    in insertion order (the order [dict.items()] iterates in). *)
Definition _load_intent_patterns : list (string * list string) :=
  [ ("book_appointment",
      [ "book.*appointment.*for\s+([a-zA-Z\s]+)";
        "schedule.*appointment.*([a-zA-Z\s]+)";
        "make.*appointment.*([a-zA-Z\s]+)";
        "set.*appointment.*([a-zA-Z\s]+)";
        "appointment.*([a-zA-Z\s]+).*at\s+(\d+)";
        "book.*([a-zA-Z\s]+).*(\d+\s*(?:am|pm|AM|PM))";
        "schedule.*([a-zA-Z\s]+).*(\d+\s*(?:am|pm|AM|PM))" ]);
    ("query_patient",
      [ "show.*(?:last\s+visit|history|info|information).*for\s+([a-zA-Z\s]+)";
        "get.*(?:patient|info|information).*([a-zA-Z\s]+)";
        "find.*patient.*([a-zA-Z\s]+)";
        "look.*up.*([a-zA-Z\s]+)";
        "tell.*me.*about.*([a-zA-Z\s]+)";
        "what.*about.*([a-zA-Z\s]+)";
        "([a-zA-Z\s]+).*patient.*information" ]);
    ("view_appointments",
      [ "show.*appointments";
        "list.*appointments";
        "what.*appointments";
        "view.*appointments";
        "appointments.*today";
        "today.*appointments";
        "schedule.*today" ]);
    ("view_patients",
      [ "show.*patients";
        "list.*patients";
        "all.*patients";
        "view.*patients";
        "patient.*list" ]);
    ("greeting",
      [ "hello"; "hi"; "hey"; "good morning"; "good afternoon"; "good evening" ]);
    ("help",
      [ "help"; "what.*can.*you.*do"; "commands"; "assistance" ]) ].

(** [self.intent_patterns], set once in [__init__]. *)
Definition intent_patterns : list (string * list string) := _load_intent_patterns.

(** [CommandInterpreter._preprocess_command] *)
Definition _preprocess_command (command : string) : result string :=
  let command := str_strip (str_lower command) in
  command ← re_sub "\s+" " " command;
  command ← re_sub "[^\w\s@.:,-]" "" command;
  Ok command.

Definition time_patterns : list string :=
  [ "(\d+)\s*(?:am|pm|AM|PM)";
    "at\s+(\d+)";
    "(\d+:\d+)";
    "(tomorrow|today|next\s+\w+)";
    "(\d+\s*(?:am|pm|AM|PM))" ].

(** The [for pattern in time_patterns: ... break] loop: the first
    pattern that matches sets [entities['time']]. *)
Fixpoint extract_time (patterns : list string) (command : string)
  (ents : entities) : result entities :=
  match patterns with
  | [] => Ok ents
  | pattern :: patterns' =>
      time_match ← re_search pattern command false;
      match time_match with
      | Some tm => t ← group tm 1; Ok (<["time" := t]> ents)
      | None => extract_time patterns' command ents
      end
  end.

(** [CommandInterpreter._extract_appointment_entities] *)
Definition _extract_appointment_entities (command : string) (m : re_match)
  : result entities :=
  let ents : entities := ∅ in
  ents ← (if has_groups m
          then g ← group m 1;
               patient_name ← py_strip g;
               Ok (<["patient_name" := PyStr patient_name]> ents)
          else Ok ents);
  ents ← extract_time time_patterns command ents;
  doctor_match ← re_search "(?:with|doctor|dr\.?)\s+([a-zA-Z\s]+)" command false;
  match doctor_match with
  | Some dm =>
      g ← group dm 1;
      doctor ← py_strip g;
      Ok (<["doctor" := PyStr doctor]> ents)
  | None => Ok (<["doctor" := PyStr "Dr. Smith"]> ents)
  end.

(** [CommandInterpreter._extract_patient_entities] *)
Definition _extract_patient_entities (command : string) (m : re_match)
  : result entities :=
  let ents : entities := ∅ in
  if has_groups m
  then g ← group m 1;
       patient_name ← py_strip g;
       Ok (<["patient_name" := PyStr patient_name]> ents)
  else Ok ents.

(** The running best of the classification loop:
    [(best_intent, entities, best_confidence)]. *)
Definition classification : Type := string * entities * Q.

(** One iteration of the inner loop of [_extract_intent_and_entities]. *)
Definition consider (command intent : string) (acc : classification)
  (pattern : string) : result classification :=
  let '(best_intent, ents, best_confidence) := acc in
  m ← re_search pattern command true;
  match m with
  | None => Ok acc
  | Some m =>
      confidence ← py_div (len (group0 m)) (len command);
      if Qgt_bool confidence best_confidence then
        if has_groups m then
          if String.eqb intent "book_appointment" then
            ents' ← _extract_appointment_entities command m;
            Ok (intent, ents', confidence)
          else if String.eqb intent "query_patient" then
            ents' ← _extract_patient_entities command m;
            Ok (intent, ents', confidence)
          else Ok (intent, ents, confidence)
        else Ok (intent, ents, confidence)
      else Ok acc
  end.

Definition consider_intent (command : string) (acc : classification)
  (entry : string * list string) : result classification :=
  foldM (consider command (fst entry)) (snd entry) acc.

(** [CommandInterpreter._extract_intent_and_entities] *)
Definition _extract_intent_and_entities (command : string)
  : result classification :=
  foldM (consider_intent command) intent_patterns ("unknown", ∅, 0%Q).

(** ** Dates and times (the part of [datetime] the interpreter uses)

    A [datetime] is the record of its fields; [tzoffset] is the UTC
    offset in microseconds of an aware value and [None] for a naive one.
    Arithmetic goes through the count of microseconds since the start of
    day 1 of year 1 in the proleptic Gregorian calendar. *)

Open Scope Z_scope.

Record datetime : Type := DateTime {
  year : Z; month : Z; day : Z;
  hour : Z; minute : Z; second : Z; microsecond : Z;
  tzoffset : option Z
}.

Definition is_leap (y : Z) : bool :=
  (y mod 4 =? 0) && (negb (y mod 100 =? 0) || (y mod 400 =? 0)).

Definition days_in_month (y m : Z) : Z :=
  if m =? 2 then (if is_leap y then 29 else 28)
  else if (m =? 4) || (m =? 6) || (m =? 9) || (m =? 11) then 30
  else 31.

Definition days_before_year (y : Z) : Z :=
  let p := y - 1 in 365 * p + p / 4 - p / 100 + p / 400.

Fixpoint days_before_month_aux (y : Z) (k : nat) : Z :=
  match k with
  | O => 0
  | S k' => days_before_month_aux y k' + days_in_month y (Z.of_nat k)
  end.

Definition days_before_month (y m : Z) : Z :=
  days_before_month_aux y (Z.to_nat (m - 1)).

(** Ordinal of a date, 0001-01-01 being day 1. *)
Definition ymd2ord (y m d : Z) : Z :=
  days_before_year y + days_before_month y m + d.

(** The month and day of the [doy]-th day (from 0) of year [y]. *)
Fixpoint month_day (y : Z) (left : nat) (m doy : Z) : Z * Z :=
  match left with
  | O => (m, doy + 1)
  | S left' =>
      let dim := days_in_month y m in
      if doy <? dim then (m, doy + 1) else month_day y left' (m + 1) (doy - dim)
  end.

Definition ord2ymd (n : Z) : Z * Z * Z :=
  let n0 := n - 1 in
  let n400 := n0 / 146097 in
  let r400 := n0 mod 146097 in
  let n100 := Z.min 3 (r400 / 36524) in
  let r100 := r400 - n100 * 36524 in
  let n4 := r100 / 1461 in
  let r4 := r100 mod 1461 in
  let n1 := Z.min 3 (r4 / 365) in
  let doy := r4 - n1 * 365 in
  let y := 400 * n400 + 100 * n100 + 4 * n4 + n1 + 1 in
  let '(m, d) := month_day y 11 1 doy in
  (y, m, d).

Definition us_per_day : Z := 86400000000.

(** Wall-time microseconds of the fields, ignoring the offset. *)
Definition to_us (t : datetime) : Z :=
  ((ymd2ord (year t) (month t) (day t) * 24 + hour t) * 60 + minute t) * 60000000
  + second t * 1000000 + microsecond t.

Definition of_us (us : Z) (tz : option Z) : datetime :=
  let '(y, m, d) := ord2ymd (us / us_per_day) in
  let r := us mod us_per_day in
  DateTime y m d (r / 3600000000) (r / 60000000 mod 60) (r / 1000000 mod 60)
           (r mod 1000000) tz.

(** [timedelta(days=.., hours=..)] as microseconds. *)
Definition timedelta (days hours : Z) : Z :=
  days * us_per_day + hours * 3600000000.

Definition max_ordinal : Z := 3652059.  (* 9999-12-31 *)

(** [t + delta]; [OverflowError] outside years 1..9999. *)
Definition dt_add (t : datetime) (delta : Z) : result datetime :=
  let us := to_us t + delta in
  let ord := us / us_per_day in
  if (1 <=? ord) && (ord <=? max_ordinal) then Ok (of_us us (tzoffset t))
  else Raise OverflowError.

(** [t.replace(hour=h, minute=mi, second=0, microsecond=0)] *)
Definition dt_replace_hm (t : datetime) (h mi : Z) : result datetime :=
  if negb ((0 <=? h) && (h <? 24)) then Raise (ValueError "hour must be in 0..23")
  else if negb ((0 <=? mi) && (mi <? 60)) then Raise (ValueError "minute must be in 0..59")
  else Ok (DateTime (year t) (month t) (day t) h mi 0 0 (tzoffset t)).

(** [t.replace(minute=0, second=0, microsecond=0)] *)
Definition dt_top_of_hour (t : datetime) : datetime :=
  DateTime (year t) (month t) (day t) (hour t) 0 0 0 (tzoffset t).

(** [a > b]: naive values compare by their fields, aware values by their
    UTC instants, and mixing the two raises [TypeError]. *)
Definition dt_gt (a b : datetime) : result bool :=
  match tzoffset a, tzoffset b with
  | None, None => Ok (to_us b <? to_us a)
  | Some oa, Some ob => Ok (to_us b - ob <? to_us a - oa)
  | _, _ => Raise TypeError_naive_aware
  end.

Definition Zpad (w : nat) (z : Z) : string := pad w (Z.to_N z).

(** [t.strftime('%Y-%m-%d at %I:%M %p')] *)
Definition strftime_at (t : datetime) : string :=
  let h12 := if hour t mod 12 =? 0 then 12 else hour t mod 12 in
  let ampm := if hour t <? 12 then "AM" else "PM" in
  (Zpad 4 (year t) ++ "-" ++ Zpad 2 (month t) ++ "-" ++ Zpad 2 (day t) ++ " at "
   ++ Zpad 2 h12 ++ ":" ++ Zpad 2 (minute t) ++ " " ++ ampm)%string.

Definition fraction_str (us : Z) : string :=
  if us =? 0 then "" else ("." ++ Zpad 6 us)%string.

Definition hms_str (h mi s us : Z) : string :=
  (Zpad 2 h ++ ":" ++ Zpad 2 mi ++ ":" ++ Zpad 2 s ++ fraction_str us)%string.

Definition offset_str (o : Z) : string :=
  let a := Z.abs o in
  let sign := if o <? 0 then "-" else "+" in
  let secs :=
    if a mod 60000000 =? 0 then ""
    else (":" ++ Zpad 2 (a / 1000000 mod 60) ++ fraction_str (a mod 1000000))%string in
  (sign ++ Zpad 2 (a / 3600000000) ++ ":" ++ Zpad 2 (a / 60000000 mod 60) ++ secs)%string.

(** [t.isoformat(sep)] *)
Definition isoformat_sep (sep : string) (t : datetime) : string :=
  let tz := match tzoffset t with Some o => offset_str o | None => "" end in
  (Zpad 4 (year t) ++ "-" ++ Zpad 2 (month t) ++ "-" ++ Zpad 2 (day t) ++ sep
   ++ hms_str (hour t) (minute t) (second t) (microsecond t) ++ tz)%string.

(** [t.isoformat()] *)
Definition isoformat (t : datetime) : string := isoformat_sep "T" t.

(** *** [datetime.fromisoformat]

    The grammar of [isoformat]'s own output:
    [YYYY-MM-DD[*HH[:MM[:SS[.fff[fff]]]][+HH:MM[:SS[.ffffff]]]]]. *)

Definition digit_val (a : ascii) : option Z :=
  if is_digit a then Some (Z.of_N (code a) - 48) else None.

Fixpoint read_digits (k : nat) (s : string) (acc : Z) : option (Z * string) :=
  match k with
  | O => Some (acc, s)
  | S k' =>
      match s with
      | String a s' => d ← digit_val a; read_digits k' s' (10 * acc + d)
      | EmptyString => None
      end
  end.

Definition expect (a : ascii) (s : string) : option string :=
  match s with
  | String b s' => if Ascii.eqb a b then Some s' else None
  | EmptyString => None
  end.

Definition parse_fraction (s : string) : option Z :=
  if (len s =? 3)%nat then '(f, _) ← read_digits 3 s 0; Some (f * 1000)
  else if (len s =? 6)%nat then '(f, _) ← read_digits 6 s 0; Some f
  else None.

Definition parse_hh_mm_ss_ff (s : string) : option (Z * Z * Z * Z) :=
  '(h, s) ← read_digits 2 s 0;
  match s with
  | EmptyString => Some (h, 0, 0, 0)
  | _ =>
      s ← expect ":" s;
      '(mi, s) ← read_digits 2 s 0;
      match s with
      | EmptyString => Some (h, mi, 0, 0)
      | _ =>
          s ← expect ":" s;
          '(sec, s) ← read_digits 2 s 0;
          match s with
          | EmptyString => Some (h, mi, sec, 0)
          | _ => s ← expect "." s; f ← parse_fraction s; Some (h, mi, sec, f)
          end
      end
  end.

(** Splits at the first occurrence of [a]: the text before it and the
    text after it. *)
Fixpoint split_at (a : ascii) (s : string) : option (string * string) :=
  match s with
  | EmptyString => None
  | String b s' =>
      if Ascii.eqb a b then Some (EmptyString, s')
      else '(l, r) ← split_at a s'; Some (String b l, r)
  end.

Definition parse_offset (sign : Z) (s : string) : option Z :=
  if negb ((len s =? 5) || (len s =? 8) || (len s =? 15))%nat then None
  else '(h, mi, sec, f) ← parse_hh_mm_ss_ff s;
       Some (sign * (((h * 60 + mi) * 60 + sec) * 1000000 + f)).

Definition parse_isoformat_time (s : string)
  : option (Z * Z * Z * Z * option Z) :=
  match split_at "-" s with
  | Some (t, z) => c ← parse_hh_mm_ss_ff t; o ← parse_offset (-1) z; Some (c, Some o)
  | None =>
      match split_at "+" s with
      | Some (t, z) => c ← parse_hh_mm_ss_ff t; o ← parse_offset 1 z; Some (c, Some o)
      | None => c ← parse_hh_mm_ss_ff s; Some (c, None)
      end
  end.

Definition parse_isoformat (s : string) : option datetime :=
  '(y, s) ← read_digits 4 s 0;
  s ← expect "-" s;
  '(m, s) ← read_digits 2 s 0;
  s ← expect "-" s;
  '(d, s) ← read_digits 2 s 0;
  '(h, mi, sec, f, tz) ←
     match s with
     | EmptyString => Some (0, 0, 0, 0, None)
     | String _ t => parse_isoformat_time t
     end;
  if (1 <=? y) && (1 <=? m) && (m <=? 12) && (1 <=? d) && (d <=? days_in_month y m)
     && (h <? 24) && (mi <? 60) && (sec <? 60)
     && match tz with Some o => Z.abs o <? us_per_day | None => true end
  then Some (DateTime y m d h mi sec f tz)
  else None.

Definition fromisoformat (s : string) : result datetime :=
  match parse_isoformat s with
  | Some t => Ok t
  | None => Raise (ValueError ("Invalid isoformat string: '" ++ s ++ "'")%string)
  end.

(** How [sqlite3] stores a bound [datetime]: [isoformat(' ')]. *)
Definition adapt_datetime (t : datetime) : string := isoformat_sep " " t.

Close Scope Z_scope.

(** ** Rows, collaborators and the world *)

Record appointment : Type := Appointment {
  apt_id : Z;
  apt_patient_name : string;
  apt_doctor_name : string;
  apt_appointment_time : string;      (* as SQLite hands it back *)
  apt_notes : pyval;
  apt_status : string
}.

Record patient : Type := Patient {
  pat_id : Z;
  pat_name : string;
  pat_phone : pyval;
  pat_email : pyval;
  pat_date_of_birth : pyval;
  pat_medical_history : pyval
}.

Record visit : Type := Visit {
  vis_id : Z;
  vis_patient_name : string;
  vis_doctor_name : string;
  vis_visit_date : string;
  vis_diagnosis : pyval;
  vis_treatment : pyval;
  vis_notes : pyval
}.

(** What [get_patient_info] returns: [{"error": msg}] or the patient row
    extended with [recent_visits] and [upcoming_appointments]. *)
Inductive patient_info : Type :=
| PatientError (msg : string)
| PatientFound (p : patient) (recent_visits : list visit)
               (upcoming_appointments : list appointment).

(** The [data] entry of a handler's answer. *)
Inductive payload : Type :=
| DataNone
| DataBooking (appointment_id : Z) (patient_name : string)
              (doctor_name : pyval) (appointment_time : string)
| DataPatient (info : patient_info)
| DataAppointments (l : list appointment)
| DataPatients (l : list patient).

(** A handler's answer, [{"response": .., "data": ..}]. *)
Record reply : Type := Reply { response : string; data : payload }.

(** What [interpret] returns. *)
Record outcome : Type := Outcome {
  intent : string;
  o_response : string;
  o_data : payload;
  confidence : Q
}.

(** The calls made on the database manager, in order. *)
Inductive db_call : Type :=
| CreateAppointment (patient_name : string) (doctor_name : pyval)
                    (appointment_time : datetime) (notes : string)
| GetAppointments
| GetPatientInfo (patient_name : string)
| GetAllPatients
| LogVoiceInteraction (transcription command_type response : string)
                      (confidence : Q).

(** The interface the interpreter expects of [db_manager]; any object
    with these coroutines will do.  Each operation transforms the store
    and may raise.  [get_patient_info] also receives the reading of
    [datetime.now()] its query is parameterised with. *)
Class DbManager (store : Type) : Type := {
  create_appointment :
    string -> pyval -> datetime -> string -> store -> result Z * store;
  get_appointments : store -> result (list appointment) * store;
  get_patient_info :
    string -> datetime -> store -> result patient_info * store;
  get_all_patients : store -> result (list patient) * store;
  log_voice_interaction :
    string -> string -> string -> Q -> store -> result unit * store
}.

Section World.
Context {store : Type}.

(** The wall clock is an oracle: its [k]-th reading is [wall_clock k].
    [calls] records every call made on the database manager. *)
Record world : Type := World {
  wall_clock : nat -> datetime;
  clock_reads : nat;
  db : store;
  calls : list db_call
}.

Definition M (A : Type) : Type := world -> result A * world.

Definition ret {A : Type} (a : A) : M A := fun w => (Ok a, w).

Definition bind {A B : Type} (c : M A) (k : A -> M B) : M B :=
  fun w =>
    match c w with
    | (Ok a, w') => k a w'
    | (Raise e, w') => (Raise e, w')
    end.

(** Pure code that may raise, run inside [M]. *)
Definition lift {A : Type} (r : result A) : M A := fun w => (r, w).

(** [try: body  except Exception as e: handler(e)].  What the body did
    to the world before raising stays done. *)
Definition try_except {A : Type} (body : M A) (handler : exn -> M A) : M A :=
  fun w =>
    match body w with
    | (Ok a, w') => (Ok a, w')
    | (Raise e, w') => handler e w'
    end.

Definition naive (t : datetime) : datetime :=
  DateTime (year t) (month t) (day t) (hour t) (minute t) (second t)
           (microsecond t) None.

(** [datetime.now()]: the next reading of the wall clock, naive. *)
Definition datetime_now : M datetime :=
  fun w =>
    (Ok (naive (wall_clock w (clock_reads w))),
     World (wall_clock w) (S (clock_reads w)) (db w) (calls w)).

(** [await self.db_manager.op(...)]: runs [op] on the store and
    records the call. *)
Definition invoke {A : Type} (c : db_call)
  (op : store -> result A * store) : M A :=
  fun w =>
    let '(r, s) := op (db w) in
    (r, World (wall_clock w) (clock_reads w) s (calls w ++ [c])).
End World.

Arguments world : clear implicits.
Arguments M : clear implicits.

#[export] Instance M_ret {store : Type} : MRet (M store) := fun _ a => ret a.
#[export] Instance M_bind {store : Type} : MBind (M store) :=
  fun _ _ k c => bind c k.

(** ** The command interpreter *)

Definition nl : string := String "010" EmptyString.

Definition py_truthy (v : pyval) : bool :=
  match v with PyStr s => truthy s | PyNone => false end.

(** [f"{v}"] *)
Definition py_format (v : pyval) : string :=
  match v with PyStr s => s | PyNone => "None" end.

(** [v.title()] *)
Definition py_title (v : pyval) : result string :=
  match v with
  | PyStr s => Ok (str_title s)
  | PyNone => Raise (Exn "AttributeError" "'NoneType' object has no attribute 'title'")
  end.

(** [entities.get(key, default)] *)
Definition ent_get (ents : entities) (key default : string) : pyval :=
  match ents !! key with Some v => v | None => PyStr default end.

(** [int(s)] on a string of decimal digits. *)
Fixpoint int_of_digits (s : string) (acc : Z) : Z :=
  match s with
  | String a s' =>
      match digit_val a with
      | Some d => int_of_digits s' (10 * acc + d)
      | None => acc
      end
  | EmptyString => acc
  end.

Definition py_int (v : pyval) : result Z :=
  match v with
  | PyStr s => Ok (int_of_digits s 0)
  | PyNone => Raise (Exn "TypeError" "int() argument must be a string or a number")
  end.

Definition clarify_booking : reply :=
  Reply "I need a patient name to book an appointment. Please specify who the appointment is for." DataNone.

Definition booking_failed : reply :=
  Reply "Sorry, I couldn't book the appointment. Please try again with more specific details." DataNone.

Definition greeting_reply : reply :=
  Reply "Hello! I'm AssistX, your medical assistant. How can I help you today?" DataNone.

Definition unknown_reply : reply :=
  Reply "I'm sorry, I didn't understand that command. Try asking me to book an appointment, show patient information, or list appointments." DataNone.

(** [CommandInterpreter._get_help_message] *)
Definition _get_help_message : string :=
  ("I can help you with the following commands:" ++ nl ++ nl
   ++ "1. Book appointments: " ++ String "034" "Book an appointment for John Doe at 3 PM tomorrow" ++ String "034" nl
   ++ "2. Query patients: " ++ String "034" "Show last visit for Ahmed Raza" ++ String "034" nl
   ++ "3. View appointments: " ++ String "034" "Show today's appointments" ++ String "034" "  " ++ nl
   ++ "4. View patients: " ++ String "034" "List all patients" ++ String "034" nl ++ nl
   ++ "You can speak naturally, and I'll understand your requests!")%string.

Section Interpreter.
Context {store : Type} {db_manager : DbManager store}.

(** [dateutil.parser.parse(s)], an external library: given the token
    and the reading of the clock it takes for its default date, the
    hour and minute of the parsed value, or an exception. *)
Variable date_parser_parse : string -> datetime -> result (Z * Z).

Local Abbreviation IO := (M store).

Definition dateutil_parse (s : string) : IO (Z * Z) :=
  today ← datetime_now;
  lift (date_parser_parse s today).

(** The [except:] branch of the inner [try] of [_parse_time]: the
    first integer of the token is the hour.  [None] stands for falling
    through to the code after the [if time_str:] block. *)
Definition hour_fallback (base_date : datetime) (time_str : string)
  : result (option datetime) :=
  hour_match ← re_search "(\d+)" time_str false;
  match hour_match with
  | Some hm =>
      g ← group hm 1;
      hour ← py_int g;
      let hour :=
        if str_contains "pm" (str_lower time_str) && (hour <? 12)%Z
        then (hour + 12)%Z
        else if str_contains "am" (str_lower time_str) && (hour =? 12)%Z
             then 0%Z
             else hour in
      t ← dt_replace_hm base_date hour 0;
      Ok (Some t)
  | None => Ok None
  end.

Definition base_date_of (full_command : string) (now : datetime)
  : result datetime :=
  if str_contains "tomorrow" full_command then dt_add now (timedelta 1 0)
  else if str_contains "today" full_command then Ok now
  else if str_contains "next week" full_command then dt_add now (timedelta 7 0)
  else dt_add now (timedelta 0 1).

(** [CommandInterpreter._parse_time] *)
Definition _parse_time (time_str : pyval) (full_command : string)
  : IO datetime :=
  try_except
    (now ← datetime_now;
     base_date ← lift (base_date_of full_command now);
     returned ←
       (if py_truthy time_str
        then try_except
               ('(h, mi) ← dateutil_parse (py_format time_str);
                t ← lift (dt_replace_hm base_date h mi);
                mret (Some t))
               (fun _ => lift (hour_fallback base_date (py_format time_str)))
        else mret None);
     match returned with
     | Some t => mret t
     | None => mret (dt_top_of_hour base_date)
     end)
    (fun _ =>
       now ← datetime_now;
       lift (dt_add now (timedelta 0 1))).

(** [CommandInterpreter._handle_book_appointment] *)
Definition _handle_book_appointment (ents : entities) (command : string)
  : IO reply :=
  try_except
    (patient_name ← lift (py_title (ent_get ents "patient_name" ""));
     let doctor_name := ent_get ents "doctor" "Dr. Smith" in
     let time_str := ent_get ents "time" "" in
     if negb (truthy patient_name) then mret clarify_booking
     else
       appointment_time ← _parse_time time_str command;
       let notes := ("Booked via voice command: " ++ command)%string in
       appointment_id ←
         invoke (CreateAppointment patient_name doctor_name appointment_time notes)
                (create_appointment patient_name doctor_name appointment_time notes);
       mret (Reply
               ("Appointment booked successfully for " ++ patient_name
                ++ " with " ++ py_format doctor_name ++ " on "
                ++ strftime_at appointment_time ++ ". Appointment ID: "
                ++ str_of_Z appointment_id)%string
               (DataBooking appointment_id patient_name doctor_name
                            (isoformat appointment_time))))
    (fun _ => mret booking_failed).

Definition patient_summary (p : patient) (recent_visits : list visit)
  (upcoming : list appointment) : string :=
  let phone :=
    if py_truthy (pat_phone p)
    then ("Phone: " ++ py_format (pat_phone p) ++ nl)%string else "" in
  let last :=
    match recent_visits with
    | last_visit :: _ =>
        ("Last visit: " ++ vis_visit_date last_visit ++ " with "
         ++ vis_doctor_name last_visit ++ nl
         ++ (if py_truthy (vis_diagnosis last_visit)
             then "Diagnosis: " ++ py_format (vis_diagnosis last_visit) ++ nl
             else ""))%string
    | [] => ""
    end in
  let next :=
    match upcoming with
    | next_appointment :: _ =>
        ("Next appointment: " ++ apt_appointment_time next_appointment
         ++ " with " ++ apt_doctor_name next_appointment)%string
    | [] => ""
    end in
  ("Patient: " ++ pat_name p ++ nl ++ phone ++ last ++ next)%string.

(** [CommandInterpreter._handle_query_patient] *)
Definition _handle_query_patient (ents : entities) : IO reply :=
  try_except
    (patient_name ← lift (py_title (ent_get ents "patient_name" ""));
     if negb (truthy patient_name)
     then mret (Reply "Please specify which patient you'd like information about." DataNone)
     else
       now ← datetime_now;
       info ← invoke (GetPatientInfo patient_name)
                     (get_patient_info patient_name now);
       match info with
       | PatientError msg => mret (Reply msg DataNone)
       | PatientFound p visits upcoming =>
           mret (Reply (patient_summary p visits upcoming) (DataPatient info))
       end)
    (fun _ => mret (Reply "Sorry, I couldn't retrieve the patient information." DataNone)).

(** The comprehension [[apt for apt in appointments if
    fromisoformat(apt['appointment_time'].replace('Z', '+00:00')) >
    datetime.now()]]: the clock is read once per row. *)
Fixpoint select_upcoming (appointments : list appointment)
  : IO (list appointment) :=
  match appointments with
  | [] => mret []
  | apt :: appointments' =>
      t ← lift (fromisoformat (replace_char "Z" "+00:00" (apt_appointment_time apt)));
      now ← datetime_now;
      keep ← lift (dt_gt t now);
      upcoming ← select_upcoming appointments';
      mret (if keep : bool then apt :: upcoming else upcoming)
  end.

(** The body of [for apt in upcoming[:5]: response += ...]. *)
Definition appointment_line (apt : appointment) : result string :=
  apt_time ← fromisoformat (replace_char "Z" "+00:00" (apt_appointment_time apt));
  Ok ("- " ++ apt_patient_name apt ++ " with " ++ apt_doctor_name apt
      ++ " on " ++ strftime_at apt_time ++ nl)%string.

Definition add_line {A : Type} (line : A -> result string) (resp : string)
  (x : A) : result string :=
  l ← line x; Ok (resp ++ l)%string.

(** [CommandInterpreter._handle_view_appointments] *)
Definition _handle_view_appointments : IO reply :=
  try_except
    (appointments ← invoke GetAppointments get_appointments;
     match appointments with
     | [] => mret (Reply "No appointments scheduled." (DataAppointments []))
     | _ =>
         upcoming ← select_upcoming appointments;
         let header :=
           ("You have " ++ str_of_N (N.of_nat (length upcoming))
            ++ " upcoming appointments:" ++ nl)%string in
         resp ← lift (foldM (add_line appointment_line) (take 5 upcoming) header);
         mret (Reply resp (DataAppointments upcoming))
     end)
    (fun _ => mret (Reply "Sorry, I couldn't retrieve the appointments." DataNone)).

Definition patient_line (p : patient) : result string :=
  Ok ("- " ++ pat_name p
      ++ (if py_truthy (pat_phone p)
          then " (" ++ py_format (pat_phone p) ++ ")" else "")
      ++ nl)%string.

(** [CommandInterpreter._handle_view_patients] *)
Definition _handle_view_patients : IO reply :=
  try_except
    (patients ← invoke GetAllPatients get_all_patients;
     match patients with
     | [] => mret (Reply "No patients in the database." (DataPatients []))
     | _ =>
         let header :=
           ("You have " ++ str_of_N (N.of_nat (length patients))
            ++ " patients registered:" ++ nl)%string in
         resp ← lift (foldM (add_line patient_line) (take 10 patients) header);
         mret (Reply resp (DataPatients patients))
     end)
    (fun _ => mret (Reply "Sorry, I couldn't retrieve the patient list." DataNone)).

(** [CommandInterpreter._process_intent] *)
Definition _process_intent (intent : string) (ents : entities)
  (command : string) : IO reply :=
  if String.eqb intent "book_appointment" then _handle_book_appointment ents command
  else if String.eqb intent "query_patient" then _handle_query_patient ents
  else if String.eqb intent "view_appointments" then _handle_view_appointments
  else if String.eqb intent "view_patients" then _handle_view_patients
  else if String.eqb intent "greeting" then mret greeting_reply
  else if String.eqb intent "help" then mret (Reply _get_help_message DataNone)
  else mret unknown_reply.

Definition error_outcome (e : exn) : outcome :=
  Outcome "error"
          ("Sorry, I couldn't understand that command. Error: " ++ exn_str e)%string
          DataNone 0%Q.

(** The [try] block of [interpret]. *)
Definition interpret_body (command : string) : IO outcome :=
  cleaned_command ← lift (_preprocess_command command);
  '(intent, ents, confidence) ← lift (_extract_intent_and_entities cleaned_command);
  result ← _process_intent intent ents cleaned_command;
  _ ← invoke (LogVoiceInteraction command intent (response result) confidence)
             (log_voice_interaction command intent (response result) confidence);
  mret (Outcome intent (response result) (data result) confidence).

(** [CommandInterpreter.interpret] *)
Definition interpret (command : string) : IO outcome :=
  try_except (interpret_body command) (fun e => mret (error_outcome e)).
End Interpreter.

(** ** The SQLite-backed [DatabaseManager] of [database/db_manager.py]

    The tables are lists of rows in rowid order.  [connectable] tells
    whether [sqlite3.connect] and the statements succeed; when it is
    false every operation meets an [sqlite3.OperationalError].  The
    [created_at] / [updated_at] columns, which nothing reads, are left
    out of the rows. *)

Record voice_log : Type := VoiceLog {
  vl_transcription : string;
  vl_command_type : string;
  vl_response : string;
  vl_confidence : Q
}.

Record sqlite_db : Type := SqliteDb {
  connectable : bool;
  appointments : list appointment;
  patients : list patient;
  visits : list visit;
  voice_logs : list voice_log;
  appointment_seq : Z               (* the last AUTOINCREMENT rowid *)
}.

Definition OperationalError : exn :=
  Exn "sqlite3.OperationalError" "unable to open database file".
Definition IntegrityError : exn :=
  Exn "sqlite3.IntegrityError" "NOT NULL constraint failed".

(** The order of [ORDER BY] on a text column is bytewise: [String.le]. *)
Definition by_time (a b : appointment) : Prop :=
  String.le (apt_appointment_time a) (apt_appointment_time b).
Definition by_name (a b : patient) : Prop :=
  String.le (pat_name a) (pat_name b).
Definition by_date_desc (a b : visit) : Prop :=
  String.le (vis_visit_date b) (vis_visit_date a).

#[export] Instance by_time_dec a b : Decision (by_time a b).
Proof. unfold by_time. apply _. Defined.
#[export] Instance by_name_dec a b : Decision (by_name a b).
Proof. unfold by_name. apply _. Defined.
#[export] Instance by_date_desc_dec a b : Decision (by_date_desc a b).
Proof. unfold by_date_desc. apply _. Defined.

(** [ORDER BY] on a column that is not unique.  None of the tables has
    an index on the ordering column, so SQLite scans the table in the
    order of the rowids (the order of insertion, the order of the lists
    of [sqlite_db]) and sorts the rows it keeps; rows with equal keys
    come back in the order of the scan, also under [DESC] and under
    [LIMIT].  [order_by] is that sort: every row is put before the
    first of the later rows that it may precede, so that it stays
    before the later rows of the same key. *)
Section order_by.
Context {A : Type} (R : relation A) `{!∀ x y, Decision (R x y)}.

Fixpoint order_insert (x : A) (l : list A) : list A :=
  match l with
  | [] => [x]
  | y :: l' => if decide (R x y) then x :: y :: l' else y :: order_insert x l'
  end.

Fixpoint order_by (l : list A) : list A :=
  match l with
  | [] => []
  | x :: l' => order_insert x (order_by l')
  end.

End order_by.

(** SQL [LIKE]: [%] is any run of characters, [_] any one character,
    letters compare without case. *)
Fixpoint sql_like (pattern : string) : string -> bool :=
  match pattern with
  | EmptyString => fun s => negb (truthy s)
  | String "%" pattern' =>
      fix any (s : string) : bool :=
        sql_like pattern' s ||
        match s with String _ s' => any s' | EmptyString => false end
  | String "_" pattern' =>
      fun s => match s with String _ s' => sql_like pattern' s' | EmptyString => false end
  | String c pattern' =>
      fun s =>
        match s with
        | String a s' => Ascii.eqb (lower_char a) (lower_char c) && sql_like pattern' s'
        | EmptyString => false
        end
  end.

Definition name_like (patient_name : string) (s : string) : bool :=
  sql_like ("%" ++ patient_name ++ "%")%string s.

(** [DatabaseManager.create_appointment] *)
Definition sqlite_create_appointment (patient_name : string) (doctor_name : pyval)
  (appointment_time : datetime) (notes : string) (s : sqlite_db)
  : result Z * sqlite_db :=
  if negb (connectable s) then (Raise OperationalError, s)
  else
    match doctor_name with
    | PyNone => (Raise IntegrityError, s)
    | PyStr doctor =>
        let appointment_id := (appointment_seq s + 1)%Z in
        let row := Appointment appointment_id patient_name doctor
                     (adapt_datetime appointment_time) (PyStr notes) "scheduled" in
        (Ok appointment_id,
         SqliteDb (connectable s) (appointments s ++ [row]) (patients s)
                  (visits s) (voice_logs s) appointment_id)
    end.

(** [DatabaseManager.get_appointments] *)
Definition sqlite_get_appointments (s : sqlite_db)
  : result (list appointment) * sqlite_db :=
  if negb (connectable s) then (Raise OperationalError, s)
  else (Ok (order_by by_time (appointments s)), s).

(** [DatabaseManager.get_patient_info] *)
Definition sqlite_get_patient_info (patient_name : string) (now : datetime)
  (s : sqlite_db) : result patient_info * sqlite_db :=
  if negb (connectable s) then (Raise OperationalError, s)
  else
    match List.filter (fun p => name_like patient_name (pat_name p)) (patients s) with
    | [] => (Ok (PatientError ("Patient " ++ patient_name ++ " not found")%string), s)
    | p :: _ =>
        let recent :=
          take 5 (order_by by_date_desc
                    (List.filter (fun v => name_like patient_name (vis_patient_name v))
                                 (visits s))) in
        let upcoming :=
          order_by by_time
            (List.filter
               (fun a => name_like patient_name (apt_patient_name a)
                         && String.ltb (adapt_datetime now) (apt_appointment_time a))
               (appointments s)) in
        (Ok (PatientFound p recent upcoming), s)
    end.

(** [DatabaseManager.get_all_patients] *)
Definition sqlite_get_all_patients (s : sqlite_db)
  : result (list patient) * sqlite_db :=
  if negb (connectable s) then (Raise OperationalError, s)
  else (Ok (order_by by_name (patients s)), s).

(** [DatabaseManager.log_voice_interaction]: failures are logged and
    swallowed. *)
Definition sqlite_log_voice_interaction (transcription command_type response : string)
  (confidence : Q) (s : sqlite_db) : result unit * sqlite_db :=
  if negb (connectable s) then (Ok tt, s)
  else (Ok tt,
        SqliteDb (connectable s) (appointments s) (patients s) (visits s)
                 (voice_logs s ++ [VoiceLog transcription command_type response confidence])
                 (appointment_seq s)).

#[export] Instance DatabaseManager : DbManager sqlite_db := {
  create_appointment := sqlite_create_appointment;
  get_appointments := sqlite_get_appointments;
  get_patient_info := sqlite_get_patient_info;
  get_all_patients := sqlite_get_all_patients;
  log_voice_interaction := sqlite_log_voice_interaction
}.

(** ** The voice synthesizer of [voice/voice_synthesizer.py]

    The [pyttsx3] engine is an external collaborator: what is known of
    it is whether [save_to_file] / [say] followed by [runAndWait] go
    through or raise.  The files it writes are outside the world. *)

(** [s.replace(old, new)] for a non-empty [old]: the occurrences of
    [old] are replaced from left to right, without overlap.  [skip]
    counts the characters of the current occurrence still to be
    dropped. *)
Fixpoint replace_from (old new : string) (skip : nat) (s : string) : string :=
  match skip with
  | S k =>
      match s with
      | String _ s' => replace_from old new k s'
      | EmptyString => EmptyString
      end
  | O =>
      match s with
      | EmptyString => EmptyString
      | String a s' =>
          if starts_with old s
          then new ++ replace_from old new (len old - 1) s'
          else String a (replace_from old new 0 s')
      end
  end.

Definition str_replace (old new s : string) : string := replace_from old new 0 s.

(** [s.split()]: the maximal runs of characters that are not white
    space; [word] is the run being read. *)
Fixpoint split_from (word : string) (s : string) : list string :=
  match s with
  | EmptyString => if truthy word then [word] else []
  | String a s' =>
      if is_space a
      then if truthy word then word :: split_from "" s' else split_from "" s'
      else split_from (word ++ String a "") s'
  end.

Definition str_split (s : string) : list string := split_from "" s.

(** [sep.join(words)] *)
Fixpoint str_join (sep : string) (words : list string) : string :=
  match words with
  | [] => ""
  | [w] => w
  | w :: words' => w ++ sep ++ str_join sep words'
  end.

Definition tab : string := String "009" EmptyString.

(** The [replacements] dictionary of [_clean_text], in insertion
    order. *)
Definition replacements : list (string * string) :=
  [ ("Dr.", "Doctor"); ("Mr.", "Mister"); ("Mrs.", "Missus"); ("Ms.", "Miss");
    ("Ltd.", "Limited"); ("Inc.", "Incorporated");
    ("&", "and"); ("%", "percent"); ("@", "at"); ("#", "number") ].

(** [VoiceSynthesizer._clean_text] *)
Definition _clean_text (text : string) : string :=
  let clean_text := str_replace tab " " (str_replace nl " " text) in
  let clean_text :=
    fold_left (fun acc r => str_replace (fst r) (snd r) acc) replacements
              clean_text in
  str_join " " (str_split clean_text).

Record tts_engine : Type := TtsEngine {
  save_to_file : string -> string -> result unit;   (* text, path *)
  say : string -> result unit
}.

(** [PYTTSX3_AVAILABLE] and [self.engine] ([None] when the engine could
    not be initialised). *)
Record VoiceSynthesizer : Type := {
  PYTTSX3_AVAILABLE : bool;
  engine : option tts_engine
}.

(** [t.strftime('%Y%m%d_%H%M%S')] *)
Definition strftime_stamp (t : datetime) : string :=
  (Zpad 4 (year t) ++ Zpad 2 (month t) ++ Zpad 2 (day t) ++ "_"
   ++ Zpad 2 (hour t) ++ Zpad 2 (minute t) ++ Zpad 2 (second t))%string.

(** [VoiceSynthesizer.generate_response]; [os.path.join] is that of a
    POSIX system. *)
Definition generate_response {store : Type} (vs : VoiceSynthesizer)
  (text : string) (save : bool) : M store (option string) :=
  if negb (PYTTSX3_AVAILABLE vs) then mret None
  else
    match engine vs with
    | None => mret None
    | Some e =>
        try_except
          (let clean_text := _clean_text text in
           if save
           then
             now ← datetime_now;
             let filename :=
               ("voice_response_" ++ strftime_stamp now ++ ".wav")%string in
             let file_path := ("voice_logs/" ++ filename)%string in
             _ ← lift (save_to_file e clean_text file_path);
             mret (Some file_path)
           else
             _ ← lift (say e clean_text);
             mret (Some "spoken"))
          (fun _ => mret None)
    end.

(** ** The endpoint [/api/voice/process-command] of [main.py] *)

Record VoiceCommand : Type := {
  text : string;
  generate_audio_response : bool
}.

Record command_reply : Type := CommandReply {
  cr_command : string;
  cr_interpretation : string;
  cr_response : string;
  cr_data : payload;
  cr_audio_response : option string;
  cr_timestamp : string
}.

(** [HTTPException(status_code=500, detail=detail)] *)
Definition HTTPException_500 (detail : string) : exn :=
  Exn "HTTPException(500)" detail.

(** [process_voice_command] *)
Definition process_voice_command {store : Type} {db_manager : DbManager store}
  (voice_synthesizer : VoiceSynthesizer)
  (date_parser_parse : string -> datetime -> result (Z * Z))
  (command : VoiceCommand) : M store command_reply :=
  try_except
    (result ← interpret date_parser_parse (text command);
     audio_response ←
       (if generate_audio_response command
        then generate_response voice_synthesizer (o_response result) true
        else mret None);
     now ← datetime_now;
     mret (CommandReply (text command) (intent result) (o_response result)
                        (o_data result) audio_response (isoformat now)))
    (fun e => fun w => (Raise (HTTPException_500 (exn_str e)), w)).

(** ** Start-up: [initialize] and [populate_demo_data]

    A connection's statements take effect at [commit]: when an
    exception interrupts them the store is as it was.  The patients and
    the visits have no counter in the model: nothing ever deletes a
    row, so the last [AUTOINCREMENT] identifier of these tables is the
    largest one present. *)

(** The store itself, for the code of [DatabaseManager] that reads the
    clock between its statements. *)
Definition get_store {store : Type} : M store store := fun w => (Ok (db w), w).

Definition put_store {store : Type} (s : store) : M store unit :=
  fun w => (Ok tt, World (wall_clock w) (clock_reads w) s (calls w)).

(** [DatabaseManager.initialize]: [CREATE TABLE IF NOT EXISTS] for the
    four tables, which the model always has. *)
Definition sqlite_initialize : M sqlite_db unit :=
  s ← get_store;
  if negb (connectable s) then lift (Raise OperationalError) else mret tt.

Definition last_id {A : Type} (id : A -> Z) (rows : list A) : Z :=
  fold_right Z.max 0%Z (map id rows).

(** A JSON list of strings, as the demo data spell their
    [medical_history]. *)
Definition quoted (s : string) : string := String "034" (s ++ String "034" "").
Definition json_list (items : list string) : string :=
  ("[" ++ str_join ", " (map quoted items) ++ "]")%string.

Definition demo_patients : list (string * string * string * string * string) :=
  [ ("Ahmed Raza", "555-0101", "ahmed.raza@email.com", "1985-03-15",
     json_list ["Hypertension"; "Diabetes Type 2"]);
    ("Fatima Ali", "555-0102", "fatima.ali@email.com", "1992-07-22",
     json_list ["Asthma"; "Allergies"]);
    ("Omar Khan", "555-0103", "omar.khan@email.com", "1978-11-08",
     json_list ["Back Pain"; "Arthritis"]);
    ("Zara Ahmed", "555-0104", "zara.ahmed@email.com", "1990-05-30",
     json_list ["Migraine"; "Anxiety"]);
    ("Hassan Shah", "555-0105", "hassan.shah@email.com", "1982-12-12",
     json_list ["High Cholesterol"]) ].

(** [cursor.executemany('INSERT INTO patients ...', demo_patients)] *)
Fixpoint insert_patients (rows : list (string * string * string * string * string))
  (table : list patient) : list patient :=
  match rows with
  | [] => table
  | (name, phone, email, date_of_birth, medical_history) :: rows' =>
      insert_patients rows'
        (table ++ [Patient (last_id pat_id table + 1) name (PyStr phone)
                           (PyStr email) (PyStr date_of_birth)
                           (PyStr medical_history)])
  end.

Fixpoint insert_visits
  (rows : list (string * string * datetime * string * string * string))
  (table : list visit) : list visit :=
  match rows with
  | [] => table
  | (patient_name, doctor_name, visit_date, diagnosis, treatment, notes) :: rows' =>
      insert_visits rows'
        (table ++ [Visit (last_id vis_id table + 1) patient_name doctor_name
                         (adapt_datetime visit_date) (PyStr diagnosis)
                         (PyStr treatment) (PyStr notes)])
  end.

(** The appointments take their identifiers from the counter, which is
    returned with the table. *)
Fixpoint insert_appointments
  (rows : list (string * string * datetime * string * string))
  (table : list appointment) (seq : Z) : list appointment * Z :=
  match rows with
  | [] => (table, seq)
  | (patient_name, doctor_name, appointment_time, notes, status) :: rows' =>
      insert_appointments rows'
        (table ++ [Appointment (seq + 1) patient_name doctor_name
                               (adapt_datetime appointment_time) (PyStr notes)
                               status])
        (seq + 1)%Z
  end.

(** [datetime.now() + delta] *)
Definition now_plus {store : Type} (delta : Z) : M store datetime :=
  now ← datetime_now; lift (dt_add now delta).

(** [DatabaseManager.populate_demo_data] *)
Definition populate_demo_data : M sqlite_db unit :=
  s ← get_store;
  if negb (connectable s) then lift (Raise OperationalError)
  else if 0 <? length (patients s) then mret tt
  else
    let patients' := insert_patients demo_patients (patients s) in
    t1 ← now_plus (timedelta (-30) 0);
    t2 ← now_plus (timedelta (-15) 0);
    t3 ← now_plus (timedelta (-7) 0);
    let demo_visits :=
      [ ("Ahmed Raza", "Dr. Smith", t1,
         "Hypertension checkup", "Medication adjustment", "Blood pressure stable");
        ("Fatima Ali", "Dr. Johnson", t2,
         "Asthma follow-up", "Inhaler prescription", "Symptoms improved");
        ("Omar Khan", "Dr. Brown", t3,
         "Back pain evaluation", "Physical therapy recommended", "MRI scheduled") ] in
    let visits' := insert_visits demo_visits (visits s) in
    a1 ← now_plus (timedelta 0 2);
    a2 ← now_plus (timedelta 1 0);
    a3 ← now_plus (timedelta 3 0);
    let demo_appointments :=
      [ ("Zara Ahmed", "Dr. Wilson", a1, "Migraine consultation", "scheduled");
        ("Hassan Shah", "Dr. Davis", a2, "Cholesterol follow-up", "scheduled");
        ("Ahmed Raza", "Dr. Smith", a3, "Regular checkup", "scheduled") ] in
    let '(appointments', seq') :=
      insert_appointments demo_appointments (appointments s) (appointment_seq s) in
    put_store (SqliteDb (connectable s) appointments' patients' visits'
                        (voice_logs s) seq').

(** [startup_event] of [main.py] *)
Definition startup_event : M sqlite_db unit :=
  _ ← sqlite_initialize; populate_demo_data.

(** * Vocabulary of the properties *)

(** ** Matches *)

(** The least number of characters a match of [r] consumes. *)
Fixpoint min_len (r : regex) : nat :=
  match r with
  | Eps | Star _ | Opt _ => 0
  | One _ | Plus _ => 1
  | Seq r1 r2 => min_len r1 + min_len r2
  | Alt r1 r2 => Nat.min (min_len r1) (min_len r2)
  | Grp _ r' => min_len r'
  end.

(** The groups that take part in every match of [r]. *)
Fixpoint sure_groups (r : regex) : list nat :=
  match r with
  | Grp n r' => n :: sure_groups r'
  | Seq r1 r2 => sure_groups r1 ++ sure_groups r2
  | Alt r1 r2 =>
      List.filter (fun n => existsb (Nat.eqb n) (sure_groups r2)) (sure_groups r1)
  | _ => []
  end.

Definition total_len (st : mstate) : nat := pos st + len (rest st).

Definition captured (n : nat) (cp : list (nat * span)) : Prop :=
  assoc_span n cp <> None.

(** [st'] is reached from [st] by consuming at least [k] characters and
    closing, among others, the groups [gs]. *)
Definition reaches (k : nat) (gs : list nat) (st st' : mstate) : Prop :=
  total_len st' = total_len st /\
  pos st + k <= pos st' /\
  (forall n, captured n (caps st) -> captured n (caps st')) /\
  (forall n, In n gs -> captured n (caps st')).

(** What [search_from] guarantees about the match it returns. *)
Record match_ok (r : regex) (ng : nat) (text : string) (m : re_match) : Prop := {
  mo_string : m_string m = text;
  mo_ngroups : m_ngroups m = ng;
  mo_min : m_start m + min_len r <= m_end m;
  mo_end : m_end m <= len text;
  mo_groups : forall n, In n (sure_groups r) -> captured n (m_caps m)
}.

(** A pattern of the interpreter is well behaved when it compiles, every
    match of it has at least one character and, if it has groups, its
    first group takes part in every match. *)
Definition pattern_ok (pattern : string) : bool :=
  match re_compile pattern with
  | Some (r, ng) =>
      (1 <=? min_len r) && ((ng =? 0) || existsb (Nat.eqb 1) (sure_groups r))
  | None => false
  end.

Definition pattern_grouped (pattern : string) : bool :=
  pattern_ok pattern &&
  match re_compile pattern with Some (_, ng) => 1 <=? ng | None => false end.

(** A match as the classifier needs it: non-empty, inside the text, and
    with a first group that is a string whenever the pattern has groups. *)
Definition good_match (text : string) (m : re_match) : Prop :=
  1 <= len (group0 m) <= len text /\
  (has_groups m = true -> exists g, group m 1 = Ok (PyStr g)).

(** ** Candidates of a classification *)

(** The rules in the order the two nested loops visit them. *)
Definition flatten_rules (rules : list (string * list string))
  : list (string * string) :=
  flat_map (fun entry => map (pair (fst entry)) (snd entry)) rules.

(** [len(match.group(0))] for a pattern that matches the command. *)
Definition matched_len (command pattern : string) : option nat :=
  match re_search pattern command true with
  | Ok (Some m) => Some (len (group0 m))
  | _ => None
  end.

(** The matching rules, in visiting order, with the length they match. *)
Definition candidates_of (command : string) (rules : list (string * string))
  : list (string * nat) :=
  omap (fun rule => pair (fst rule) <$> matched_len command (snd rule)) rules.

Definition candidates (command : string) : list (string * nat) :=
  candidates_of command (flatten_rules intent_patterns).

(** The confidence of the running best: [0.0] before any match, then
    the matched length over the length of the command. *)
Definition conf_of (command : string) (n : nat) : Q :=
  match n with
  | O => 0%Q
  | S _ => Z.of_nat n # Pos.of_nat (len command)
  end.

Definition better (best c : string * nat) : string * nat :=
  if snd best <? snd c then c else best.

Definition rules_ok (rules : list (string * list string)) : bool :=
  forallb (fun entry => forallb pattern_ok (snd entry)) rules.

(** ** Mock managers *)

(** A mock manager whose listings are empty, used to exercise the
    handlers. *)
Definition empty_manager : DbManager unit := {|
  create_appointment := fun _ _ _ _ s => (Ok 1%Z, s);
  get_appointments := fun s => (Ok [], s);
  get_patient_info := fun _ _ s => (Ok (PatientError "Patient not found"), s);
  get_all_patients := fun s => (Ok [], s);
  log_voice_interaction := fun _ _ _ _ s => (Ok tt, s)
|}.

Definition midnight : datetime := DateTime 2024 1 1 0 0 0 0 None.

Definition quiet_world : world unit := World (fun _ => midnight) 0 tt [].

(** A manager whose logger raises, used to exercise the outer boundary
    of [interpret]. *)
Definition broken_logger : DbManager unit := {|
  create_appointment := fun _ _ _ _ s => (Ok 1%Z, s);
  get_appointments := fun s => (Ok [], s);
  get_patient_info := fun _ _ s => (Ok (PatientError "Patient not found"), s);
  get_all_patients := fun s => (Ok [], s);
  log_voice_interaction := fun _ _ _ _ s => (Raise (Exn "OSError" "disk full"), s)
|}.

(** ** Code that only reads the clock *)

(** [w'] differs from [w] at most in the number of clock readings. *)
Definition frame {store : Type} (w w' : world store) : Prop :=
  wall_clock w' = wall_clock w /\ db w' = db w /\ calls w' = calls w /\
  clock_reads w <= clock_reads w'.

Definition clock_only {store A : Type} (c : M store A) : Prop :=
  forall w, frame w (snd (c w)).

(** ** Booking *)

Definition booked_reply (appointment_id : Z) (patient_name : string)
  (doctor_name : pyval) (appointment_time : datetime) : reply :=
  Reply ("Appointment booked successfully for " ++ patient_name ++ " with "
         ++ py_format doctor_name ++ " on " ++ strftime_at appointment_time
         ++ ". Appointment ID: " ++ str_of_Z appointment_id)%string
        (DataBooking appointment_id patient_name doctor_name
                     (isoformat appointment_time)).

(** A parser that gives up on every token, and a world over an empty
    SQLite database whose clock stands at ten in the morning of the
    first of January 2024. *)
Definition no_parser (s : string) (today : datetime) : result (Z * Z) :=
  Raise (ValueError "Unknown string format").

Definition ten_oclock : datetime := DateTime 2024 1 1 10 0 0 0 None.

Definition fresh_world : world sqlite_db :=
  World (fun _ => ten_oclock) 0 (SqliteDb true [] [] [] [] 0) [].

Definition bob_entities : entities := <["patient_name" := PyStr "bob"]> ∅.

(** ** The time resolver of the specification *)

Definition digits : cset := Cls false [CDigit].

(** Length of the longest prefix of digits. *)
Fixpoint digit_run (s : string) : nat :=
  match s with
  | String a s' => if is_digit a then S (digit_run s') else 0
  | EmptyString => 0
  end.

(** Span of the first run of digits of [s], [s] starting at offset [p]. *)
Fixpoint first_run (p : nat) (s : string) : option span :=
  match s with
  | EmptyString => None
  | String a s' =>
      if is_digit a then Some (p, S p + digit_run s') else first_run (S p) s'
  end.

(** The first integer written in a token, as the specification reads
    it: the value of its first run of digits. *)
Fixpoint first_integer (token : string) : option Z :=
  match token with
  | EmptyString => None
  | String a token' =>
      if is_digit a then Some (int_of_digits token 0) else first_integer token'
  end.

Definition adjust_hour (time_str : string) (hour : Z) : Z :=
  if str_contains "pm" (str_lower time_str) && (hour <? 12)%Z then (hour + 12)%Z
  else if str_contains "am" (str_lower time_str) && (hour =? 12)%Z then 0%Z
  else hour.

(** [resolveTime] follows the words of the specification (section 4.3):
    a pure function of the time token, the full text and an injected
    reference time [now].  [parse] stands for the general
    natural-language time parse, which yields an hour and a minute or
    fails. *)
Definition resolveTime (parse : string -> datetime -> result (Z * Z))
  (timeToken : pyval) (fullText : string) (now : datetime) : result datetime :=
  let fallback := dt_add now (timedelta 0 1) in
  let base_day :=
    if str_contains "tomorrow" fullText then dt_add now (timedelta 1 0)
    else if str_contains "today" fullText then Ok now
    else if str_contains "next week" fullText then dt_add now (timedelta 7 0)
    else dt_add now (timedelta 0 1) in
  match base_day with
  | Raise _ => fallback
  | Ok base =>
      let top_of_hour := Ok (dt_top_of_hour base) in
      let from_first_integer token :=
        match first_integer token with
        | Some h =>
            let lower := str_lower token in
            let h := if str_contains "pm" lower && (h <? 12)%Z then (h + 12)%Z
                     else if str_contains "am" lower && (h =? 12)%Z then 0%Z
                     else h in
            match dt_replace_hm base h 0 with
            | Ok t => Ok t
            | Raise _ => fallback
            end
        | None => top_of_hour
        end in
      match timeToken with
      | PyStr token =>
          if truthy token then
            match parse token now with
            | Ok (h, mi) =>
                match dt_replace_hm base h mi with
                | Ok t => Ok t
                | Raise _ => from_first_integer token
                end
            | Raise _ => from_first_integer token
            end
          else top_of_hour
      | PyNone => top_of_hour
      end
  end.

Definition morning_world : world unit :=
  World (fun _ => DateTime 2024 1 1 10 0 0 0 None) 0 tt [].
Definition evening_world : world unit :=
  World (fun _ => DateTime 2024 1 1 18 0 0 0 None) 0 tt [].

(** The morning clock again, seen after five readings. *)
Definition later_morning_world : world unit :=
  World (fun _ => DateTime 2024 1 1 10 0 0 0 None) 5 tt [].

(** ** Listing the appointments *)

(** The stored time of the row reads back as a naive [datetime]. *)
Definition is_naive_time (apt : appointment) : bool :=
  match fromisoformat (replace_char "Z" "+00:00" (apt_appointment_time apt)) with
  | Ok t => match tzoffset t with None => true | Some _ => false end
  | Raise _ => false
  end.

(** The time of the row is strictly after [now]. *)
Definition after (now : datetime) (apt : appointment) : bool :=
  match fromisoformat (replace_char "Z" "+00:00" (apt_appointment_time apt)) with
  | Ok t => (to_us now <? to_us t)%Z
  | Raise _ => false
  end.

(** The line of the response for a row. *)
Definition upcoming_line (apt : appointment) : string :=
  match appointment_line apt with Ok l => l | Raise _ => "" end.

(** The lines of a response, one after the other. *)
Fixpoint join (lines : list string) : string :=
  match lines with
  | [] => ""
  | line :: lines' => (line ++ join lines')%string
  end.

(** A clinic with three appointments, one hour before and one and two
    hours after ten o'clock, entered out of order. *)
Definition at_eleven : appointment :=
  Appointment 1 "Zara Ahmed" "Dr. Wilson" "2024-01-01 11:00:00"
              (PyStr "Migraine consultation") "scheduled".
Definition at_nine : appointment :=
  Appointment 2 "Hassan Shah" "Dr. Davis" "2024-01-01 09:00:00"
              (PyStr "Cholesterol follow-up") "scheduled".
Definition at_noon : appointment :=
  Appointment 3 "Ahmed Raza" "Dr. Smith" "2024-01-01 12:00:00"
              (PyStr "Regular checkup") "scheduled".

Definition clinic_world : world sqlite_db :=
  World (fun _ => ten_oclock) 0
        (SqliteDb true [at_noon; at_nine; at_eleven] [] [] [] 3) [].

(** Two appointments one and two seconds after ten o'clock, under a
    clock that shows ten o'clock at its first reading and three seconds
    past ten afterwards. *)
Definition one_past : appointment :=
  Appointment 1 "Omar Khan" "Dr. Brown" "2024-01-01 10:00:01" PyNone "scheduled".
Definition two_past : appointment :=
  Appointment 2 "Fatima Ali" "Dr. Johnson" "2024-01-01 10:00:02" PyNone "scheduled".

Definition ticking_world : world sqlite_db :=
  World (fun k => match k with
                  | O => ten_oclock
                  | S _ => DateTime 2024 1 1 10 0 3 0 None
                  end)
        0 (SqliteDb true [one_past; two_past] [] [] [] 2) [].

(** ** The result of a classification *)

(** The intents of the registry. *)
Definition known_intents : list string :=
  ["book_appointment"; "query_patient"; "view_appointments"; "view_patients";
   "greeting"; "help"].

(** Every key of the dictionary is one of the three the extractors set
    and every value is a string. *)
Definition entities_wf (ents : entities) : Prop :=
  forall k v, ents !! k = Some v ->
    In k ["patient_name"; "time"; "doctor"] /\ exists s, v = PyStr s.

(** The entry is present and holds a string. *)
Definition is_str (o : option pyval) : Prop := exists s, o = Some (PyStr s).

(** The rules whose intent has an extractor have a capture group. *)
Definition extractor_rules_grouped (rules : list (string * string)) : bool :=
  forallb (fun rule =>
             if String.eqb (fst rule) "book_appointment"
                || String.eqb (fst rule) "query_patient"
             then pattern_grouped (snd rule) else true) rules.

(** ** What a capture group can hold *)

(** All the characters there are. *)
Definition all_ascii : list ascii := map ascii_of_nat (seq 0 256).

(** Every character of [s] satisfies [f]. *)
Fixpoint str_forall (f : ascii -> bool) (s : string) : bool :=
  match s with
  | EmptyString => true
  | String a s' => f a && str_forall f s'
  end.

(** Every character the atom [c] accepts satisfies [f]. *)
Definition class_within (icase : bool) (f : ascii -> bool) (c : cset) : bool :=
  forallb (fun a => implb (cset_mem icase c a) (f a)) all_ascii.

(** Every character a match of [r] consumes satisfies [f]. *)
Fixpoint consumes_only (icase : bool) (f : ascii -> bool) (r : regex) : bool :=
  match r with
  | Eps => true
  | One c | Star c | Plus c | Opt c => class_within icase f c
  | Seq r1 r2 | Alt r1 r2 => consumes_only icase f r1 && consumes_only icase f r2
  | Grp _ r' => consumes_only icase f r'
  end.

(** Every group numbered [n] in [r] consumes only characters that
    satisfy [f]. *)
Fixpoint group_within (n : nat) (icase : bool) (f : ascii -> bool) (r : regex)
  : bool :=
  match r with
  | Grp k r' =>
      (negb (Nat.eqb k n) || consumes_only icase f r') && group_within n icase f r'
  | Seq r1 r2 | Alt r1 r2 => group_within n icase f r1 && group_within n icase f r2
  | _ => true
  end.

(** [st] is a cursor into [text]: [pos st] characters come before
    [rest st]. *)
Definition cursor (text : string) (st : mstate) : Prop :=
  exists pre, text = (pre ++ rest st)%string /\ len pre = pos st.

(** The characters of [text] at the offsets from [a] up to [b] satisfy [f]. *)
Definition range_ok (f : ascii -> bool) (text : string) (a b : nat) : Prop :=
  forall i ch, a <= i < b -> String.get i text = Some ch -> f ch = true.

(** The matcher has gone from [st] to [st'] in [text], reading only
    characters that satisfy [f]. *)
Definition advanced (f : ascii -> bool) (text : string) (st st' : mstate) : Prop :=
  cursor text st' /\ pos st <= pos st' /\ range_ok f text (pos st) (pos st').

Definition span_within (f : ascii -> bool) (text : string) (o : option span)
  : Prop :=
  forall sp, o = Some sp -> range_ok f text (fst sp) (snd sp).

Definition is_letter_or_space (a : ascii) : bool :=
  is_upper a || is_lower a || is_space a.

(** A name as the extractors produce it: letters and white space only,
    with no white space at either end. *)
Definition plain_name (s : string) : Prop :=
  str_forall is_letter_or_space s = true /\ str_strip s = s.

(** The first group of the pattern holds letters and white space only. *)
Definition name_group (icase : bool) (pattern : string) : bool :=
  match re_compile pattern with
  | Some (r, _) => group_within 1 icase is_letter_or_space r
  | None => false
  end.

Definition extractor_rules_name (rules : list (string * string)) : bool :=
  forallb (fun rule =>
             if String.eqb (fst rule) "book_appointment"
                || String.eqb (fst rule) "query_patient"
             then name_group true (snd rule) else true) rules.

(** The names among the entities are plain; the doctor may also be the
    default the appointment extractor fills in. *)
Definition names_plain (ents : entities) : Prop :=
  (forall name, ents !! "patient_name" = Some (PyStr name) -> plain_name name) /\
  (forall d, ents !! "doctor" = Some (PyStr d) -> d = "Dr. Smith" \/ plain_name d).

(** ** Normalised commands *)

(** The characters of [s] that satisfy [f], in order. *)
Fixpoint str_filter (f : ascii -> bool) (s : string) : string :=
  match s with
  | EmptyString => EmptyString
  | String a s' => if f a then String a (str_filter f s') else str_filter f s'
  end.

(** Every maximal run of white space becomes one blank; [in_run] tells
    that the character before was white space. *)
Fixpoint collapse (in_run : bool) (s : string) : string :=
  match s with
  | EmptyString => EmptyString
  | String a s' =>
      if is_space a
      then if in_run then collapse true s' else String " " (collapse true s')
      else String a (collapse false s')
  end.

(** Length of the white space [s] starts with. *)
Fixpoint space_run (s : string) : nat :=
  match s with
  | String a s' => if is_space a then S (space_run s') else 0
  | EmptyString => 0
  end.

Definition is_kept_punctuation (a : ascii) : bool :=
  existsb (Ascii.eqb a) ["@"; "."; ":"; ","; "-"]%char.

(** The characters the second substitution lets through. *)
Definition kept (a : ascii) : bool :=
  is_word a || is_space a || is_kept_punctuation a.

(** The characters a normalised command is made of: lower-case letters,
    digits, the underscore, the blank and [@ . : , -]. *)
Definition clean_char (a : ascii) : bool :=
  is_lower a || is_digit a || Ascii.eqb a "_" || Ascii.eqb a " "
  || is_kept_punctuation a.

(** No two blanks in a row. *)
Fixpoint single_spaced (s : string) : bool :=
  match s with
  | String a s' =>
      negb (Ascii.eqb a " " && match s' with
                               | String b _ => Ascii.eqb b " "
                               | EmptyString => false
                               end)
      && single_spaced s'
  | EmptyString => true
  end.

(** A command in normal form. *)
Definition normalised (s : string) : Prop :=
  str_forall clean_char s = true /\ single_spaced s = true /\ str_strip s = s.

(** ** The calls a computation makes on the store *)

(** From [w] to [w'] the calls [cs] were made on the database manager,
    and nothing else happened but readings of the clock: without a call
    the store is as it was. *)
Definition trace {store : Type} (w w' : world store) (cs : list db_call) : Prop :=
  calls w' = calls w ++ cs /\ wall_clock w' = wall_clock w /\
  clock_reads w <= clock_reads w' /\ (cs = [] -> db w' = db w).

(** [c] makes at most one call, and only one that [allowed] admits. *)
Definition at_most_one {store A : Type} (allowed : db_call -> bool)
  (c : M store A) : Prop :=
  forall w, exists cs,
    trace w (snd (c w)) cs /\ length cs <= 1 /\ forallb allowed cs = true.

(** The call on the database manager that belongs to an intent. *)
Definition call_of_intent (intent : string) (c : db_call) : bool :=
  match c with
  | CreateAppointment _ _ _ _ => String.eqb intent "book_appointment"
  | GetPatientInfo _ => String.eqb intent "query_patient"
  | GetAppointments => String.eqb intent "view_appointments"
  | GetAllPatients => String.eqb intent "view_patients"
  | LogVoiceInteraction _ _ _ _ => false
  end.

(** ** The SQLite store *)

(** The identifiers of the appointments are distinct and none is above
    the last one handed out. *)
Definition ids_fresh (s : sqlite_db) : Prop :=
  NoDup (map apt_id (appointments s)) /\
  Forall (fun a => (apt_id a <= appointment_seq s)%Z) (appointments s).

(** [next(apt for apt in appointments if apt["id"] == appointment_id)] *)
Definition by_id (appointment_id : Z) (l : list appointment) : option appointment :=
  List.find (fun apt => (apt_id apt =? appointment_id)%Z) l.

(** A reachable database with one patient, two of her visits and two
    appointments. *)
Definition zara : patient :=
  Patient 4 "Zara Ahmed" (PyStr "555-0104") (PyStr "zara.ahmed@email.com")
          (PyStr "1990-05-30") (PyStr "[Migraine, Anxiety]").
Definition visit_in_march : visit :=
  Visit 1 "Zara Ahmed" "Dr. Wilson" "2023-03-01 09:00:00"
        (PyStr "Migraine") PyNone PyNone.
Definition visit_in_june : visit :=
  Visit 2 "Zara Ahmed" "Dr. Wilson" "2023-06-01 09:00:00"
        (PyStr "Anxiety") PyNone PyNone.
Definition clinic_db : sqlite_db :=
  SqliteDb true [at_noon; at_eleven] [zara] [visit_in_march; visit_in_june] [] 3.

(** The rows of [get_patient_info]'s three queries. *)
Definition matching_patients (patient_name : string) (s : sqlite_db) : list patient :=
  List.filter (fun p => name_like patient_name (pat_name p)) (patients s).
Definition matching_visits (patient_name : string) (s : sqlite_db) : list visit :=
  List.filter (fun v => name_like patient_name (vis_patient_name v)) (visits s).
Definition matching_upcoming (patient_name : string) (now : datetime)
  (s : sqlite_db) : list appointment :=
  List.filter (fun a => name_like patient_name (apt_patient_name a)
                        && String.ltb (adapt_datetime now) (apt_appointment_time a))
              (appointments s).

(** The answers left to each intent when the database cannot be
    reached. *)
Definition down_replies (intent : string) : list string :=
  if String.eqb intent "book_appointment"
  then [response clarify_booking; response booking_failed]
  else if String.eqb intent "query_patient"
  then ["Please specify which patient you'd like information about.";
        "Sorry, I couldn't retrieve the patient information."]
  else if String.eqb intent "view_appointments"
  then ["Sorry, I couldn't retrieve the appointments."]
  else if String.eqb intent "view_patients"
  then ["Sorry, I couldn't retrieve the patient list."]
  else if String.eqb intent "greeting" then [response greeting_reply]
  else if String.eqb intent "help" then [_get_help_message]
  else [response unknown_reply].

(** A world whose database file cannot be opened. *)
Definition down_world : world sqlite_db :=
  World (fun _ => ten_oclock) 0 (SqliteDb false [at_noon] [zara] [] [] 3) [].

(** ** Listing the patients *)

(** The line of the response for a patient. *)
Definition patient_text (p : patient) : string :=
  match patient_line p with Ok l => l | Raise _ => "" end.

Definition omar : patient :=
  Patient 3 "Omar Khan" PyNone PyNone PyNone PyNone.

Definition two_patients_world : world sqlite_db :=
  World (fun _ => ten_oclock) 0 (SqliteDb true [] [zara; omar] [] [] 0) [].

(** ** Looking a patient up by name *)

(** [s] starts with [p], letters compared without case. *)
Fixpoint ci_prefix (p s : string) : bool :=
  match p, s with
  | EmptyString, _ => true
  | String c p', String a s' =>
      Ascii.eqb (lower_char a) (lower_char c) && ci_prefix p' s'
  | String _ _, EmptyString => false
  end.

(** [p] occurs in [s], letters compared without case. *)
Fixpoint ci_contains (p s : string) : bool :=
  ci_prefix p s ||
  match s with
  | EmptyString => false
  | String _ s' => ci_contains p s'
  end.

(** No character of [p] is a wildcard of [LIKE]. *)
Definition no_wildcard (p : string) : bool :=
  str_forall (fun c => negb (Ascii.eqb c "%" || Ascii.eqb c "_")) p.

(** ** Timestamps in the store *)

(** A naive timestamp with every field in range, as [datetime.now()]
    and the time resolver produce them. *)
Definition valid_naive (t : datetime) : bool :=
  ((1 <=? year t) && (year t <=? 9999) && (1 <=? month t) && (month t <=? 12)
   && (1 <=? day t) && (day t <=? days_in_month (year t) (month t))
   && (0 <=? hour t) && (hour t <? 24) && (0 <=? minute t) && (minute t <? 60)
   && (0 <=? second t) && (second t <? 60)
   && (0 <=? microsecond t) && (microsecond t <? 1000000))%Z
  && match tzoffset t with None => true | Some _ => false end.

(** The characters of a rendered time of day. *)
Definition time_char (a : ascii) : bool :=
  is_digit a || Ascii.eqb a ":" || Ascii.eqb a ".".

(** ** A clock in ordinary times *)

(** Every reading of the clock is a valid date and time before the
    year 9999. *)
Definition ordinary_clock {store : Type} (w : world store) : Prop :=
  forall k, valid_naive (naive (wall_clock w k)) = true /\
            (year (wall_clock w k) <= 9998)%Z.

(** A clock that shows the last half hour of the year 9999. *)
Definition last_world : world sqlite_db :=
  World (fun _ => DateTime 9999 12 31 23 30 0 0 None) 0
        (SqliteDb true [] [] [] [] 0) [].

(** ** What the interpreter leaves alone in the SQLite store *)

(** From [s] to [s'] the database stayed reachable or unreachable as it
    was, and the patients, the visits and the voice log are the same. *)
Definition same_records (s s' : sqlite_db) : Prop :=
  connectable s' = connectable s /\ patients s' = patients s /\
  visits s' = visits s /\ voice_logs s' = voice_logs s.

Definition keeps_records {A : Type} (c : M sqlite_db A) : Prop :=
  forall w, same_records (db w) (db (snd (c w))).

(** ** Groups and what a pattern matches *)

(** Where a state of the matcher stands, whatever it has captured. *)
Definition erase (st : mstate) : nat * string := (pos st, rest st).

(** The expression without its groups. *)
Fixpoint ungroup (r : regex) : regex :=
  match r with
  | Grp _ r' => ungroup r'
  | Seq r1 r2 => Seq (ungroup r1) (ungroup r2)
  | Alt r1 r2 => Alt (ungroup r1) (ungroup r2)
  | _ => r
  end.

#[export] Instance citem_eq_dec : EqDecision citem.
Proof. solve_decision. Defined.
#[export] Instance cset_eq_dec : EqDecision cset.
Proof. solve_decision. Defined.
#[export] Instance regex_eq_dec : EqDecision regex.
Proof. solve_decision. Defined.

(** Two patterns that differ in their groups at most. *)
Definition same_ungrouped (p q : string) : bool :=
  match re_compile p, re_compile q with
  | Some (r, _), Some (r', _) =>
      if decide (ungroup r = ungroup r') then true else false
  | _, _ => false
  end.

(** ** Letter case and the classifier *)

Definition lower_state (st : mstate) : mstate :=
  MState (pos st) (str_lower (rest st)) (caps st).

Definition lower_match (m : re_match) : re_match :=
  ReMatch (str_lower (m_string m)) (m_start m) (m_end m) (m_caps m) (m_ngroups m).

(** ** Rows of one and the same key *)

Definition same_slot (t : string) (a : appointment) : bool :=
  String.eqb (apt_appointment_time a) t.

Definition same_name (n : string) (p : patient) : bool :=
  String.eqb (pat_name p) n.

(** ** Text fit for the speech engine *)

(** The characters [_clean_text] lets through: no line break, no tab,
    none of [& % @ #], and no white space but the blank. *)
Definition spoken_char (a : ascii) : bool :=
  negb (existsb (Ascii.eqb a) ["010"; "009"; "&"; "%"; "@"; "#"]%char)
  && (negb (is_space a) || Ascii.eqb a " ").

Definition not_space (a : ascii) : bool := negb (is_space a).

(** A word of [split()]: not empty and free of white space. *)
Definition is_word_of (P : ascii -> bool) (w : string) : Prop :=
  truthy w = true /\ str_forall not_space w = true /\ str_forall P w = true.

(** A synthesizer whose engine saves every file, and one without
    engine. *)
Definition working_synthesizer : VoiceSynthesizer :=
  {| PYTTSX3_AVAILABLE := true;
     engine := Some (TtsEngine (fun _ _ => Ok tt) (fun _ => Ok tt)) |}.

Definition silent_synthesizer : VoiceSynthesizer :=
  {| PYTTSX3_AVAILABLE := false; engine := None |}.

(** ** Start-up *)

(** Every reading of the clock is a valid date and time of the years
    2 to 9998: a month back and some days ahead are dates as well. *)
Definition demo_clock {store : Type} (w : world store) : Prop :=
  forall k, valid_naive (naive (wall_clock w k)) = true /\
            (2 <= year (wall_clock w k) <= 9998)%Z.

(** A reachable, empty database under a clock at ten o'clock. *)
Definition empty_clinic : world sqlite_db :=
  World (fun _ => ten_oclock) 0 (SqliteDb true [] [] [] [] 0) [].

(** * Properties *)

(** Reduces the binds of the error monad and nothing else. *)
Ltac rsimpl := cbn [mbind result_bind rbind mret result_ret].

(** ** The matcher: what every match satisfies *)

Lemma reaches_refl st : reaches 0 [] st st.
Proof. unfold reaches. repeat split; auto; try lia; try (intros ? []). Qed.

Lemma reaches_trans k1 k2 g1 g2 st1 st2 st3 :
  reaches k1 g1 st1 st2 -> reaches k2 g2 st2 st3 ->
  reaches (k1 + k2) (g1 ++ g2) st1 st3.
Proof.
  intros (T1 & P1 & C1 & G1) (T2 & P2 & C2 & G2).
  unfold reaches. repeat split; try lia; auto.
  intros n Hn. apply in_app_iff in Hn as [Hn | Hn]; auto.
Qed.

Lemma reaches_weaken k k' gs gs' st st' :
  reaches k gs st st' -> k' <= k -> (forall n, In n gs' -> In n gs) ->
  reaches k' gs' st st'.
Proof.
  intros (T & P & C & G) Hk Hg. unfold reaches. repeat split; auto; lia.
Qed.

Lemma one_run_reaches icase c st st' :
  In st' (one_run icase c st) -> reaches 1 [] st st'.
Proof.
  unfold one_run. destruct st as [p s cp]; simpl.
  destruct s as [|a s']; [intros []|].
  destruct (cset_mem icase c a); [|intros []].
  intros [<- | []]. unfold reaches, total_len; simpl.
  repeat split; auto; try lia; try (intros ? []).
Qed.

Lemma star_run_reaches icase c s : forall p cp st',
  In st' (star_run icase c p s cp) -> reaches 0 [] (MState p s cp) st'.
Proof.
  induction s as [|a s' IH]; intros p cp st'; simpl.
  - intros [<- | []]. apply reaches_refl.
  - destruct (cset_mem icase c a).
    + rewrite in_app_iff. intros [H | [<- | []]]; [|apply reaches_refl].
      apply IH in H. destruct H as (T & P & C & G).
      unfold reaches, total_len in *; simpl in *.
      repeat split; auto; lia.
    + intros [<- | []]. apply reaches_refl.
Qed.

Lemma star_from_reaches icase c st st' :
  In st' (star_from icase c st) -> reaches 0 [] st st'.
Proof. destruct st. apply star_run_reaches. Qed.

Lemma captured_cons n k sp cp :
  captured n cp -> captured n ((k, sp) :: cp).
Proof.
  unfold captured; simpl. destruct (Nat.eqb k n); [discriminate | auto].
Qed.

Lemma captured_head n sp cp : captured n ((n, sp) :: cp).
Proof. unfold captured; simpl. rewrite Nat.eqb_refl. discriminate. Qed.

Lemma run_reaches icase r : forall st st',
  In st' (run icase r st) -> reaches (min_len r) (sure_groups r) st st'.
Proof.
  induction r as [|c|c|c|c|r1 IH1 r2 IH2|r1 IH1 r2 IH2|n r IH];
    intros st st' Hin; simpl in Hin |- *.
  - destruct Hin as [<- | []]. apply reaches_refl.
  - now apply one_run_reaches in Hin.
  - now apply star_from_reaches in Hin.
  - apply in_flat_map in Hin as (st1 & H1 & H2).
    apply one_run_reaches in H1. apply star_from_reaches in H2.
    apply (reaches_trans _ _ _ _ _ _ _ H1 H2).
  - apply in_app_iff in Hin as [H | [<- | []]]; [|apply reaches_refl].
    apply one_run_reaches in H.
    eapply reaches_weaken; [exact H | lia | intros n []].
  - apply in_flat_map in Hin as (st1 & H1 & H2).
    apply (reaches_trans _ _ _ _ _ _ _ (IH1 _ _ H1) (IH2 _ _ H2)).
  - apply in_app_iff in Hin as [H | H].
    + eapply reaches_weaken; [exact (IH1 _ _ H) | lia |].
      intros n Hn. apply filter_In in Hn. tauto.
    + eapply reaches_weaken; [exact (IH2 _ _ H) | lia |].
      intros n Hn. apply filter_In in Hn as [_ Hn].
      apply existsb_exists in Hn as (k & Hk & E).
      apply Nat.eqb_eq in E. now subst.
  - apply in_map_iff in Hin as (st1 & <- & H1).
    apply IH in H1. destruct H1 as (T & P & C & G).
    unfold reaches, total_len in *; simpl in *.
    repeat split; auto.
    + intros k Hk. apply captured_cons; auto.
    + intros k [<- | Hk]; [apply captured_head | apply captured_cons; auto].
Qed.

Lemma substring_length s : forall n m,
  n + m <= len s -> len (substring n m s) = m.
Proof.
  induction s as [|a s IH]; intros [|n] [|m] H; simpl in *; try lia; auto.
  - rewrite (IH 0 m); [reflexivity | simpl; lia].
  - apply (IH n 0). lia.
  - apply (IH n (S m)). lia.
Qed.

Lemma search_from_ok icase r ng text : forall s p m,
  p + len s = len text ->
  search_from icase r ng text p s = Some m -> match_ok r ng text m.
Proof.
  induction s as [|a s IH]; intros p m Hlen; simpl;
    destruct (run icase r _) as [|st l] eqn:Hrun.
  - discriminate.
  - intros [= <-].
    assert (Hin : In st (run icase r (MState p "" []))) by (rewrite Hrun; now left).
    apply run_reaches in Hin. destruct Hin as (T & P & _ & G).
    unfold total_len in *; simpl in *.
    constructor; simpl; auto; lia.
  - apply IH. simpl in Hlen. lia.
  - intros [= <-].
    assert (Hin : In st (run icase r (MState p (String a s) [])))
      by (rewrite Hrun; now left).
    apply run_reaches in Hin. destruct Hin as (T & P & _ & G).
    unfold total_len in *; simpl in *.
    constructor; simpl; auto; lia.
Qed.

Lemma group0_length r ng text m :
  match_ok r ng text m -> len (group0 m) = m_end m - m_start m.
Proof.
  intros [Hs _ Hmin Hend _]. unfold group0, slice; simpl.
  apply substring_length. rewrite Hs. lia.
Qed.

Lemma re_search_ok pattern text icase :
  pattern_ok pattern = true ->
  exists mo, re_search pattern text icase = Ok mo /\
             forall m, mo = Some m -> good_match text m.
Proof.
  unfold pattern_ok, re_search.
  destruct (re_compile pattern) as [[r ng]|]; [|discriminate].
  intros H. apply andb_true_iff in H as [Hmin Hg].
  apply Nat.leb_le in Hmin.
  eexists; split; [reflexivity|].
  intros m Hm. apply search_from_ok in Hm; [|reflexivity].
  pose proof (group0_length _ _ _ _ Hm) as Hl.
  destruct Hm as [Hs Hn Hmn Hend Hgr].
  split; [lia|].
  unfold has_groups, group. rewrite Hn. intros Hpos.
  apply Nat.ltb_lt in Hpos.
  destruct (ng <? 1) eqn:E; [apply Nat.ltb_lt in E; lia|].
  apply orb_true_iff in Hg as [Hg | Hg]; [apply Nat.eqb_eq in Hg; lia|].
  apply existsb_exists in Hg as (k & Hk & E1). apply Nat.eqb_eq in E1. subst k.
  apply Hgr in Hk. unfold captured in Hk.
  destruct (assoc_span 1 (m_caps m)); [eauto | congruence].
Qed.

Lemma re_search_grouped pattern text icase :
  pattern_grouped pattern = true ->
  exists mo, re_search pattern text icase = Ok mo /\
             forall m, mo = Some m -> exists g, group m 1 = Ok (PyStr g).
Proof.
  unfold pattern_grouped. intros H. apply andb_true_iff in H as [Hok Hng].
  destruct (re_search_ok pattern text icase Hok) as (mo & Hs & Hgood).
  exists mo. split; [exact Hs|].
  intros m ->. destruct (Hgood m eq_refl) as [_ Hg]. apply Hg.
  revert Hs Hng. unfold re_search.
  destruct (re_compile pattern) as [[r ng]|]; [|discriminate].
  intros [= Hs] Hng. apply search_from_ok in Hs; [|reflexivity].
  unfold has_groups. rewrite (mo_ngroups _ _ _ _ Hs).
  apply Nat.leb_le in Hng. apply Nat.ltb_lt. lia.
Qed.

(** *** The entity extractors never raise *)

Lemma extract_time_ok command : forall patterns ents,
  forallb pattern_grouped patterns = true ->
  exists ents', extract_time patterns command ents = Ok ents'.
Proof.
  induction patterns as [|p ps IH]; intros ents H; cbn [extract_time].
  - eauto.
  - cbn [forallb] in H. apply andb_true_iff in H as [Hp Hps].
    destruct (re_search_grouped p command false Hp) as (mo & -> & Hg). rsimpl.
    destruct mo as [tm|]; [|apply IH; exact Hps].
    destruct (Hg tm eq_refl) as (g & ->). rsimpl. eauto.
Qed.

Lemma time_patterns_grouped : forallb pattern_grouped time_patterns = true.
Proof. vm_compute. reflexivity. Qed.

Lemma doctor_pattern_grouped :
  pattern_grouped "(?:with|doctor|dr\.?)\s+([a-zA-Z\s]+)" = true.
Proof. vm_compute. reflexivity. Qed.

Lemma extract_appointment_ok command m :
  good_match command m ->
  exists ents, _extract_appointment_entities command m = Ok ents.
Proof.
  intros [_ Hg]. unfold _extract_appointment_entities.
  assert (H1 : exists e1 : entities,
             (if has_groups m
              then g ← group m 1; patient_name ← py_strip g;
                   Ok (<["patient_name" := PyStr patient_name]> (∅ : entities))
              else Ok ∅) = Ok e1).
  { destruct (has_groups m); [|eauto].
    destruct (Hg eq_refl) as (g & ->). rsimpl. eauto. }
  destruct H1 as (e1 & ->). rsimpl.
  destruct (extract_time_ok command time_patterns e1 time_patterns_grouped)
    as (e2 & ->). rsimpl.
  destruct (re_search_grouped _ command false doctor_pattern_grouped)
    as (mo & -> & Hd). rsimpl.
  destruct mo as [dm|]; [|eauto].
  destruct (Hd dm eq_refl) as (g & ->). rsimpl. eauto.
Qed.

Lemma extract_patient_ok command m :
  good_match command m ->
  exists ents, _extract_patient_entities command m = Ok ents.
Proof.
  intros [_ Hg]. unfold _extract_patient_entities.
  destruct (has_groups m); [|eauto].
  destruct (Hg eq_refl) as (g & ->). rsimpl. eauto.
Qed.

(** ** The classifier as a search for the first longest match *)

Lemma Qgt_conf command n bn :
  1 <= n ->
  Qgt_bool (Z.of_nat n # Pos.of_nat (len command)) (conf_of command bn) = (bn <? n).
Proof.
  intros Hn. unfold Qgt_bool, Qle_bool, conf_of.
  destruct bn as [|k]; cbn [Qnum Qden].
  - destruct (Z.leb_spec (Z.of_nat n * 1) (0 * Z.pos (Pos.of_nat (len command))));
      destruct (Nat.ltb_spec 0 n); simpl; auto; lia.
  - destruct (Z.leb_spec (Z.of_nat n * Z.pos (Pos.of_nat (len command)))
                         (Z.of_nat (S k) * Z.pos (Pos.of_nat (len command))));
      destruct (Nat.ltb_spec (S k) n); simpl; auto; nia.
Qed.

Lemma consider_shadow command intent pattern bi ents bn :
  pattern_ok pattern = true ->
  exists ents',
    consider command intent (bi, ents, conf_of command bn) pattern =
    Ok (let b := match matched_len command pattern with
                 | Some n => better (bi, bn) (intent, n)
                 | None => (bi, bn)
                 end in
        (fst b, ents', conf_of command (snd b))).
Proof.
  intros Hok. unfold consider, matched_len.
  destruct (re_search_ok pattern command true Hok) as (mo & -> & Hgood). rsimpl.
  destruct mo as [m|]; [|eauto].
  specialize (Hgood m eq_refl). pose proof Hgood as [[H1 H2] _].
  unfold py_div. destruct (len command) as [|d] eqn:Hd; [lia|]. rsimpl.
  rewrite <- Hd. rewrite (Qgt_conf command _ bn H1).
  unfold better. cbn [snd].
  destruct (bn <? len (group0 m)); [|eauto]. cbn [fst snd].
  assert (Hc : conf_of command (len (group0 m)) =
               Z.of_nat (len (group0 m)) # Pos.of_nat (len command)).
  { unfold conf_of. destruct (len (group0 m)); [lia | reflexivity]. }
  rewrite Hc.
  destruct (has_groups m); [|eauto].
  destruct (String.eqb intent "book_appointment").
  { destruct (extract_appointment_ok command m Hgood) as (e & ->). rsimpl. eauto. }
  destruct (String.eqb intent "query_patient"); [|eauto].
  destruct (extract_patient_ok command m Hgood) as (e & ->). rsimpl. eauto.
Qed.

Lemma consider_patterns command intent : forall patterns bi ents bn,
  forallb pattern_ok patterns = true ->
  exists ents',
    foldM (consider command intent) patterns (bi, ents, conf_of command bn) =
    Ok (let b := fold_left better
                   (candidates_of command (map (pair intent) patterns)) (bi, bn) in
        (fst b, ents', conf_of command (snd b))).
Proof.
  induction patterns as [|p ps IH]; intros bi ents bn H; cbn [foldM].
  - cbn. eauto.
  - cbn [forallb] in H. apply andb_true_iff in H as [Hp Hps].
    destruct (consider_shadow command intent p bi ents bn Hp) as (e1 & ->). rsimpl.
    unfold candidates_of. cbn [map omap list_omap fst snd].
    destruct (matched_len command p) as [n|]; cbn [fmap option_fmap option_map].
    + destruct (better (bi, bn) (intent, n)) as [bi' bn'] eqn:Hb.
      cbn [fold_left fst snd]. rewrite Hb. apply IH. exact Hps.
    + cbn [fst snd]. apply IH. exact Hps.
Qed.

Lemma candidates_of_app command l1 l2 :
  candidates_of command (l1 ++ l2) =
  candidates_of command l1 ++ candidates_of command l2.
Proof. unfold candidates_of. apply omap_app. Qed.

Lemma classify_rules command : forall rules bi ents bn,
  rules_ok rules = true ->
  exists ents',
    foldM (consider_intent command) rules (bi, ents, conf_of command bn) =
    Ok (let b := fold_left better
                   (candidates_of command (flatten_rules rules)) (bi, bn) in
        (fst b, ents', conf_of command (snd b))).
Proof.
  induction rules as [|[intent patterns] rules IH]; intros bi ents bn H;
    cbn [foldM].
  - cbn. eauto.
  - cbn [rules_ok forallb snd] in H. apply andb_true_iff in H as [Hp Hr].
    change (consider_intent command (bi, ents, conf_of command bn) (intent, patterns))
      with (foldM (consider command intent) patterns (bi, ents, conf_of command bn)).
    destruct (consider_patterns command intent patterns bi ents bn Hp) as (e1 & ->).
    rsimpl. cbn [flatten_rules flat_map fst snd]. rewrite candidates_of_app.
    rewrite fold_left_app.
    destruct (fold_left better (candidates_of command (map (pair intent) patterns))
                        (bi, bn)) as [bi' bn'].
    cbn [fst snd]. apply IH. exact Hr.
Qed.

Lemma intent_patterns_ok : rules_ok intent_patterns = true.
Proof. vm_compute. reflexivity. Qed.

(** The classifier returns the running best of the candidates. *)
Lemma classify_first_best command :
  exists ents,
    _extract_intent_and_entities command =
    Ok (let b := fold_left better (candidates command) ("unknown", 0) in
        (fst b, ents, conf_of command (snd b))).
Proof.
  unfold _extract_intent_and_entities.
  apply (classify_rules command intent_patterns "unknown" ∅ 0 intent_patterns_ok).
Qed.

Lemma flatten_rules_ok rules intent pattern :
  rules_ok rules = true ->
  In (intent, pattern) (flatten_rules rules) -> pattern_ok pattern = true.
Proof.
  unfold rules_ok, flatten_rules. rewrite forallb_forall. intros H Hin.
  apply in_flat_map in Hin as (entry & He & Hin).
  apply in_map_iff in Hin as (p & [= _ <-] & Hp).
  specialize (H entry He). rewrite forallb_forall in H. auto.
Qed.

Lemma matched_len_bounds command pattern n :
  pattern_ok pattern = true ->
  matched_len command pattern = Some n -> 1 <= n <= len command.
Proof.
  intros Hok. unfold matched_len.
  destruct (re_search_ok pattern command true Hok) as (mo & -> & Hgood).
  destruct mo as [m|]; [|discriminate].
  intros [= <-]. apply (Hgood m eq_refl).
Qed.

Lemma candidates_of_In command rules c :
  In c (candidates_of command rules) <->
  exists pattern, In (fst c, pattern) rules /\
                  matched_len command pattern = Some (snd c).
Proof.
  unfold candidates_of. rewrite <- list_elem_of_In, list_elem_of_omap. split.
  - intros ([i p] & Hin & Hf). cbn [fst snd] in Hf.
    destruct (matched_len command p) as [n|] eqn:E; [|discriminate].
    injection Hf as <-. exists p. rewrite <- list_elem_of_In. auto.
  - intros (p & Hin & Hm). exists (fst c, p). rewrite list_elem_of_In.
    split; [exact Hin|]. cbn [fst snd]. rewrite Hm. now destruct c.
Qed.

Lemma candidate_bounds command c :
  In c (candidates command) -> 1 <= snd c <= len command.
Proof.
  intros Hin. apply candidates_of_In in Hin as (p & Hin & Hm).
  eapply matched_len_bounds; [|exact Hm].
  eapply flatten_rules_ok; [exact intent_patterns_ok | exact Hin].
Qed.

(** The running best after a list of candidates is its first element of
    greatest length, unless nothing beats the initial best. *)
Lemma fold_better_spec : forall cs b0,
  let b := fold_left better cs b0 in
  (forall c, In c cs -> snd c <= snd b) /\
  ((b = b0 /\ forall c, In c cs -> snd c <= snd b0) \/
   (exists k, cs !! k = Some b /\ snd b0 < snd b /\
              forall j c, j < k -> cs !! j = Some c -> snd c < snd b)).
Proof.
  induction cs as [|c cs IH]; intros b0; cbn [fold_left].
  - split; [intros c []|]. left. split; [reflexivity | intros c []].
  - specialize (IH (better b0 c)). cbv zeta in IH. destruct IH as [Hmax Hcase].
    set (b := fold_left better cs (better b0 c)) in *.
    assert (Hb1 : snd (better b0 c) <= snd b).
    { destruct Hcase as [[-> _] | (k & _ & Hlt & _)]; lia. }
    unfold better in Hb1, Hcase.
    destruct (Nat.ltb_spec (snd b0) (snd c)) as [Hlt | Hge].
    + split; [intros c' [<- | Hin]; [lia | auto]|].
      right. destruct Hcase as [[Hb Hall] | (k & Hk & Hlt' & Hbefore)].
      * exists 0. rewrite Hb. split; [reflexivity|]. split; [lia|].
        intros j c' Hj. lia.
      * exists (S k). split; [exact Hk|]. split; [lia|].
        intros [|j] c' Hj; cbn; [intros [= <-]; lia|].
        apply Hbefore. lia.
    + split; [intros c' [<- | Hin]; [lia | auto]|].
      destruct Hcase as [[Hb Hall] | (k & Hk & Hlt' & Hbefore)].
      * left. split; [exact Hb|]. intros c' [<- | Hin]; [lia | auto].
      * right. exists (S k). split; [exact Hk|]. split; [lia|].
        intros [|j] c' Hj; cbn; [intros [= <-]; lia|].
        apply Hbefore. lia.
Qed.

Lemma conf_of_unit command n :
  n <= len command -> (0 <= conf_of command n <= 1)%Q.
Proof.
  intros Hn. unfold conf_of. destruct n as [|k].
  - split; unfold Qle; simpl; lia.
  - unfold Qle; cbn [Qnum Qden].
    assert (Hd : Z.pos (Pos.of_nat (len command)) = Z.of_nat (len command)).
    { rewrite <- positive_nat_Z, Nat2Pos.id; [reflexivity | lia]. }
    rewrite Hd. split; lia.
Qed.

(** ** Claims about the classifier *)

(** The winner of a classification, read off the candidates: either no
    rule matches, or the result is the first candidate of greatest
    length. *)
Lemma classify_winner command :
  exists ents b,
    _extract_intent_and_entities command =
      Ok (fst b, ents, conf_of command (snd b)) /\
    snd b <= len command /\
    ((candidates command = [] /\ b = ("unknown", 0)) \/
     (exists k, candidates command !! k = Some b /\ 1 <= snd b /\
                (forall c, In c (candidates command) -> snd c <= snd b) /\
                (forall j c, j < k -> candidates command !! j = Some c ->
                             snd c < snd b))).
Proof.
  destruct (classify_first_best command) as (ents & Hc). cbv zeta in Hc.
  destruct (fold_better_spec (candidates command) ("unknown", 0)) as [Hmax Hcase].
  set (b := fold_left better (candidates command) ("unknown", 0)) in *.
  exists ents, b. split; [exact Hc|].
  destruct Hcase as [[Hb Hall] | (k & Hk & Hlt & Hbefore)].
  - rewrite Hb. cbn [snd]. split; [lia|]. left. split; [|reflexivity].
    destruct (candidates command) as [|c cs] eqn:E; [reflexivity|].
    assert (Hin : In c (candidates command)) by (rewrite E; now left).
    apply candidate_bounds in Hin. specialize (Hall c (or_introl eq_refl)).
    cbn [snd] in Hall. lia.
  - assert (Hin : In b (candidates command)).
    { apply list_elem_of_In. eapply list_elem_of_lookup_2. exact Hk. }
    apply candidate_bounds in Hin. split; [lia|]. right.
    exists k. repeat split; auto; lia.
Qed.

Lemma classification_total_aux command :
  exists intent ents conf,
    _extract_intent_and_entities command = Ok (intent, ents, conf).
Proof. destruct (classify_winner command) as (ents & b & Hc & _). eauto. Qed.

(** C1. For every input string the confidence returned by the
    classifier lies in [0,1]: it is 0.0 when no rule matches and
    otherwise the length of the text matched by the winning rule divided
    by the length of the command, which is at most 1. *)
Theorem confidence_in_unit_interval (command : string) :
  exists intent ents conf,
    _extract_intent_and_entities command = Ok (intent, ents, conf) /\
    (0 <= conf <= 1)%Q /\
    match candidates command with
    | [] => conf = 0%Q
    | _ :: _ =>
        exists pattern m,
          In (intent, pattern) (flatten_rules intent_patterns) /\
          re_search pattern command true = Ok (Some m) /\
          len (group0 m) <= len command /\
          conf = Z.of_nat (len (group0 m)) # Pos.of_nat (len command)
    end.
Proof.
  destruct (classify_winner command) as (ents & b & Hc & Hle & Hcase).
  exists (fst b), ents, (conf_of command (snd b)).
  split; [exact Hc|]. split; [apply conf_of_unit; exact Hle|].
  destruct Hcase as [[-> ->] | (k & Hk & Hpos & _ & _)]; [reflexivity|].
  assert (Hin : In b (candidates command)).
  { apply list_elem_of_In. eapply list_elem_of_lookup_2. exact Hk. }
  destruct (candidates command) as [|c cs] eqn:E; [destruct Hin|].
  rewrite <- E in Hin. apply candidates_of_In in Hin as (p & Hp & Hm).
  unfold matched_len in Hm.
  destruct (re_search p command true) as [[m|]|] eqn:Hs; try discriminate.
  injection Hm as Hm. exists p, m. rewrite Hm.
  repeat split; auto.
  unfold conf_of. destruct (snd b); [lia | reflexivity].
Qed.

(** C2. A later match replaces the running best only when it is strictly
    better, so the classifier returns the first candidate, in registry
    order, among those of greatest confidence: every candidate matches
    at most as many characters as the winner and every earlier one
    strictly fewer (all confidences share the denominator
    [len(command)]).  The registry order is the fixed order of
    [intent_patterns], and the classifier is a function of the command
    alone, so classifying the same text twice in a row gives the same
    result both times. *)
Theorem classification_keeps_first_best (command : string) :
  exists intent ents conf,
    _extract_intent_and_entities command = Ok (intent, ents, conf) /\
    (first ← _extract_intent_and_entities command;
     second ← _extract_intent_and_entities command;
     Ok (first, second)) = Ok ((intent, ents, conf), (intent, ents, conf)) /\
    ((candidates command = [] /\ intent = "unknown" /\ conf = 0%Q) \/
     (exists k n,
        candidates command !! k = Some (intent, n) /\
        conf = Z.of_nat n # Pos.of_nat (len command) /\
        Forall (fun c => snd c <= n) (candidates command) /\
        Forall (fun c => snd c < n) (take k (candidates command)))).
Proof.
  destruct (classify_winner command) as (ents & b & Hc & Hle & Hcase).
  exists (fst b), ents, (conf_of command (snd b)).
  split; [exact Hc|]. split; [rewrite Hc; reflexivity|].
  destruct Hcase as [[He ->] | (k & Hk & Hpos & Hmax & Hbefore)].
  - left. auto.
  - right. exists k, (snd b). split; [now destruct b|].
    split; [unfold conf_of; destruct (snd b); [lia | reflexivity]|].
    split.
    + apply Forall_forall. intros c Hin. apply Hmax. now apply list_elem_of_In.
    + apply Forall_forall. intros c Hin.
      apply list_elem_of_lookup_1 in Hin as (j & Hj).
      apply lookup_take_Some in Hj as [Hj Hlt]. eapply Hbefore; eauto.
Qed.

(** C8. The classifier is total: it returns a result for every command;
    no rule matches the empty string, so the quotient by the length of
    the command is only ever taken for a non-empty command, and the
    empty command is classified as [("unknown", {}, 0.0)]. *)
Theorem classification_total (command : string) :
  (exists intent ents conf,
     _extract_intent_and_entities command = Ok (intent, ents, conf)) /\
  Forall (fun c => exists q, py_div (snd c) (len command) = Ok q)
         (candidates command) /\
  candidates "" = [] /\
  _extract_intent_and_entities "" = Ok ("unknown", ∅, 0%Q).
Proof.
  split; [|split; [|split]].
  - apply classification_total_aux.
  - apply Forall_forall. intros c Hin. apply list_elem_of_In in Hin.
    apply candidate_bounds in Hin. unfold py_div.
    destruct (len command); [lia | eauto].
  - vm_compute. reflexivity.
  - vm_compute. reflexivity.
Qed.

(** C5. The entities are replaced only when the new winner's pattern has
    groups.  In the command below a [query_patient] rule wins first and
    leaves its [patient_name]; a [view_patients] rule, which has no
    group, then wins with a longer match: the result carries the intent
    [view_patients] together with the entity extracted for
    [query_patient]. *)
Theorem stale_entities_survive :
  _preprocess_command "Show me the patients and find patient 7"
    = Ok "show me the patients and find patient 7" /\
  matched_len "show me the patients and find patient 7" "find.*patient.*([a-zA-Z\s]+)"
    = Some 13 /\
  matched_len "show me the patients and find patient 7" "show.*patients"
    = Some 20 /\
  _extract_intent_and_entities "show me the patients and find patient 7"
    = Ok ("view_patients", <["patient_name" := PyStr ""]> ∅, 20 # 39).
Proof. repeat split; vm_compute; reflexivity. Qed.

(** C4. The command of the help message, run through [interpret] on the
    SQLite-backed manager, in any world and with any date parser: the
    rule [book.*([a-zA-Z\s]+).*(\d+\s*(?:am|pm|AM|PM))] gives the
    longest match (40 of 49 characters) and its first group is the
    single blank before the digit, so the patient name is empty, the
    time token is ["3"] without its [pm], and the handler asks for a
    patient name: no appointment is created and no time is resolved. *)
Theorem help_example_books_nothing
  (date_parser_parse : string -> datetime -> result (Z * Z))
  (w : world sqlite_db) :
  let cmd := "Book an appointment for John Doe at 3 PM tomorrow" in
  let cleaned := "book an appointment for john doe at 3 pm tomorrow" in
  _preprocess_command cmd = Ok cleaned /\
  _extract_intent_and_entities cleaned =
    Ok ("book_appointment",
        <["doctor" := PyStr "Dr. Smith"]>
          (<["time" := PyStr "3"]> (<["patient_name" := PyStr ""]> ∅)),
        40 # 49) /\
  interpret date_parser_parse cmd w =
    (Ok (Outcome "book_appointment" (response clarify_booking) DataNone (40 # 49)),
     World (wall_clock w) (clock_reads w)
           (snd (sqlite_log_voice_interaction cmd "book_appointment"
                   (response clarify_booking) (40 # 49) (db w)))
           (calls w ++ [LogVoiceInteraction cmd "book_appointment"
                          (response clarify_booking) (40 # 49)])) /\
  appointments (db (snd (interpret date_parser_parse cmd w))) = appointments (db w).
Proof.
  destruct w as [clock n [c a p v l s] cs].
  cbv zeta. split; [vm_compute; reflexivity|]. split; [vm_compute; reflexivity|].
  assert (H : interpret date_parser_parse
                "Book an appointment for John Doe at 3 PM tomorrow"
                (World clock n (SqliteDb c a p v l s) cs) =
              (Ok (Outcome "book_appointment" (response clarify_booking) DataNone (40 # 49)),
               World clock n
                 (snd (sqlite_log_voice_interaction
                         "Book an appointment for John Doe at 3 PM tomorrow"
                         "book_appointment" (response clarify_booking) (40 # 49)
                         (SqliteDb c a p v l s)))
                 (cs ++ [LogVoiceInteraction
                           "Book an appointment for John Doe at 3 PM tomorrow"
                           "book_appointment" (response clarify_booking) (40 # 49)]))).
  { destruct c; vm_compute; reflexivity. }
  split; [exact H|]. rewrite H. destruct c; reflexivity.
Qed.

(** ** Claims about the handlers *)

(** Reduces the binds of the world monad and nothing else. *)
Ltac msimpl :=
  cbv beta iota zeta
      delta [mbind M_bind bind mret M_ret ret lift try_except invoke
             result_bind rbind result_ret fst snd].

(** C10. When the store returns no appointment, [view_appointments]
    answers "No appointments scheduled." with the empty list as data,
    and when the directory returns no patient, [view_patients] answers
    "No patients in the database." with the empty list as data.  Both
    listing handlers always return, and their data is a list unless they
    return their fixed failure reply. *)
Theorem empty_listings_carry_empty_lists
  {store : Type} {db_manager : DbManager store} (w : world store) :
  (forall s, get_appointments (db w) = (Ok [], s) ->
     fst (_handle_view_appointments w) =
       Ok (Reply "No appointments scheduled." (DataAppointments []))) /\
  (forall s, get_all_patients (db w) = (Ok [], s) ->
     fst (_handle_view_patients w) =
       Ok (Reply "No patients in the database." (DataPatients []))) /\
  (exists r, fst (_handle_view_appointments w) = Ok r /\
     (r = Reply "Sorry, I couldn't retrieve the appointments." DataNone \/
      exists l, data r = DataAppointments l)) /\
  (exists r, fst (_handle_view_patients w) = Ok r /\
     (r = Reply "Sorry, I couldn't retrieve the patient list." DataNone \/
      exists l, data r = DataPatients l)).
Proof.
  repeat split.
  - intros s Hs. unfold _handle_view_appointments. msimpl.
    rewrite Hs. reflexivity.
  - intros s Hs. unfold _handle_view_patients. msimpl.
    rewrite Hs. reflexivity.
  - unfold _handle_view_appointments. msimpl.
    destruct (get_appointments (db w)) as [[l|e] s]; [|eauto].
    destruct l as [|a l]; [cbn; eauto|].
    destruct (select_upcoming (a :: l) _) as [[u|e] w1]; [|cbn; eauto].
    destruct (foldM _ _ _) as [resp|e]; cbn; eauto.
  - unfold _handle_view_patients. msimpl.
    destruct (get_all_patients (db w)) as [[l|e] s]; [|eauto].
    destruct l as [|a l]; [cbn; eauto|].
    destruct (foldM _ _ _) as [resp|e]; cbn; eauto.
Qed.

Lemma empty_listings_witness :
  @get_appointments unit empty_manager (db quiet_world) = (Ok [], tt) /\
  @get_all_patients unit empty_manager (db quiet_world) = (Ok [], tt) /\
  fst (@_handle_view_appointments unit empty_manager quiet_world) =
    Ok (Reply "No appointments scheduled." (DataAppointments [])) /\
  fst (@_handle_view_patients unit empty_manager quiet_world) =
    Ok (Reply "No patients in the database." (DataPatients [])).
Proof.
  split; [reflexivity|]. split; [reflexivity|].
  destruct (@empty_listings_carry_empty_lists unit empty_manager quiet_world)
    as (Ha & Hp & _).
  split; [apply (Ha tt); reflexivity | apply (Hp tt); reflexivity].
Defined.

Lemma preprocess_total command :
  exists cleaned, _preprocess_command command = Ok cleaned.
Proof.
  unfold _preprocess_command, re_sub.
  assert (E1 : re_compile "\s+" = Some (Plus (Cls false [CSpace]), 0))
    by reflexivity.
  assert (E2 : re_compile "[^\w\s@.:,-]" =
               Some (One (Cls true [CWord; CSpace; CChar "@"; CChar ".";
                                    CChar ":"; CChar ","; CChar "-"]), 0))
    by reflexivity.
  rewrite E1, E2. rsimpl. eauto.
Qed.

Lemma try_except_returns {store A : Type} (body : M store A)
  (handler : exn -> M store A) (w : world store) :
  (forall e w', exists a w'', handler e w' = (Ok a, w'')) ->
  exists a w', try_except body handler w = (Ok a, w').
Proof.
  intros Hh. unfold try_except.
  destruct (body w) as [[a|e] w']; [eauto | apply Hh].
Qed.

(** Every handler ends in an [except Exception] that returns a reply. *)
Lemma process_intent_returns {store : Type} {db_manager : DbManager store}
  (date_parser_parse : string -> datetime -> result (Z * Z))
  (intent : string) (ents : entities) (command : string) (w : world store) :
  exists r w', _process_intent date_parser_parse intent ents command w = (Ok r, w').
Proof.
  unfold _process_intent.
  repeat (match goal with
          | |- context [if String.eqb ?a ?b then _ else _] =>
              destruct (String.eqb a b)
          end);
    try (apply try_except_returns; intros e w'; msimpl; eauto);
    msimpl; eauto.
Qed.

(** C9. [interpret] never raises.  Normalisation, classification and
    the handlers always return, so the only failure left in the body is
    that of the interaction logger; the outer [except Exception] turns
    it into the outcome with intent ["error"], confidence 0.0, no data
    and the message of the exception in the response. *)
Theorem interpret_never_raises
  {store : Type} {db_manager : DbManager store}
  (date_parser_parse : string -> datetime -> result (Z * Z))
  (command : string) (w : world store) :
  exists cleaned intent ents conf r w1,
    _preprocess_command command = Ok cleaned /\
    _extract_intent_and_entities cleaned = Ok (intent, ents, conf) /\
    _process_intent date_parser_parse intent ents cleaned w = (Ok r, w1) /\
    interpret date_parser_parse command w =
      (let logged :=
         calls w1 ++ [LogVoiceInteraction command intent (response r) conf] in
       match log_voice_interaction command intent (response r) conf (db w1) with
       | (Ok _, s) =>
           (Ok (Outcome intent (response r) (data r) conf),
            World (wall_clock w1) (clock_reads w1) s logged)
       | (Raise e, s) =>
           (Ok (Outcome "error"
                  ("Sorry, I couldn't understand that command. Error: "
                   ++ exn_str e)%string
                  DataNone 0%Q),
            World (wall_clock w1) (clock_reads w1) s logged)
       end) /\
    exists o w', interpret date_parser_parse command w = (Ok o, w').
Proof.
  destruct (preprocess_total command) as (cleaned & Hp).
  destruct (classification_total_aux cleaned) as (intent & ents & conf & Hc).
  destruct (process_intent_returns date_parser_parse intent ents cleaned w)
    as (r & w1 & Hr).
  exists cleaned, intent, ents, conf, r, w1.
  split; [exact Hp|]. split; [exact Hc|]. split; [exact Hr|].
  assert (Hi : interpret date_parser_parse command w =
    (let logged :=
       calls w1 ++ [LogVoiceInteraction command intent (response r) conf] in
     match log_voice_interaction command intent (response r) conf (db w1) with
     | (Ok _, s) =>
         (Ok (Outcome intent (response r) (data r) conf),
          World (wall_clock w1) (clock_reads w1) s logged)
     | (Raise e, s) =>
         (Ok (Outcome "error"
                ("Sorry, I couldn't understand that command. Error: "
                 ++ exn_str e)%string
                DataNone 0%Q),
          World (wall_clock w1) (clock_reads w1) s logged)
     end)).
  { unfold interpret, interpret_body. msimpl. rewrite Hp, Hc. msimpl.
    rewrite Hr.
    destruct (log_voice_interaction command intent (response r) conf (db w1))
      as [[u|e] s]; reflexivity. }
  split; [exact Hi|]. rewrite Hi. cbv zeta.
  destruct (log_voice_interaction command intent (response r) conf (db w1))
    as [[u|e] s]; eauto.
Qed.

(** The outer boundary at work: with a logger that raises, a greeting
    comes back as the error outcome. *)
Example broken_logger_is_reported :
  fst (@interpret unit broken_logger (fun _ _ => Raise (ValueError "unparsable"))
         "Hello" quiet_world) =
  Ok (Outcome "error"
        "Sorry, I couldn't understand that command. Error: disk full"
        DataNone 0%Q).
Proof. vm_compute. reflexivity. Qed.

(** *** Code that only reads the clock *)

Lemma frame_refl {store : Type} (w : world store) : frame w w.
Proof. unfold frame. auto. Qed.

Lemma frame_trans {store : Type} (w1 w2 w3 : world store) :
  frame w1 w2 -> frame w2 w3 -> frame w1 w3.
Proof.
  unfold frame. intros (A1 & B1 & C1 & D1) (A2 & B2 & C2 & D2).
  repeat split; try congruence; lia.
Qed.

Lemma clock_only_ret {store A : Type} (a : A) : clock_only (mret a : M store A).
Proof. intros w. apply frame_refl. Qed.

Lemma clock_only_lift {store A : Type} (r : result A) :
  clock_only (lift r : M store A).
Proof. intros w. apply frame_refl. Qed.

Lemma clock_only_now {store : Type} : clock_only (@datetime_now store).
Proof. intros w. unfold frame, datetime_now; cbn. auto. Qed.

Lemma clock_only_bind {store A B : Type} (c : M store A) (k : A -> M store B) :
  clock_only c -> (forall a, clock_only (k a)) -> clock_only (c ≫= k).
Proof.
  intros Hc Hk w. msimpl. specialize (Hc w).
  destruct (c w) as [[a|e] w1]; cbn [snd] in *; [|exact Hc].
  eapply frame_trans; [exact Hc | apply Hk].
Qed.

Lemma clock_only_try {store A : Type} (body : M store A)
  (handler : exn -> M store A) :
  clock_only body -> (forall e, clock_only (handler e)) ->
  clock_only (try_except body handler).
Proof.
  intros Hb Hh w. unfold try_except. specialize (Hb w).
  destruct (body w) as [[a|e] w1]; cbn [snd] in *; [exact Hb|].
  eapply frame_trans; [exact Hb | apply Hh].
Qed.

Create HintDb clock.
#[local] Hint Resolve clock_only_ret clock_only_lift clock_only_now : clock.

(** The time resolver reads the clock and touches nothing else. *)
Lemma parse_time_clock_only {store : Type}
  (date_parser_parse : string -> datetime -> result (Z * Z))
  (time_str : pyval) (full_command : string) :
  clock_only (@_parse_time store date_parser_parse time_str full_command).
Proof.
  unfold _parse_time, dateutil_parse.
  apply clock_only_try.
  - apply clock_only_bind; [auto with clock|]. intros now.
    apply clock_only_bind; [auto with clock|]. intros base_date.
    apply clock_only_bind.
    + destruct (py_truthy time_str); [|auto with clock].
      apply clock_only_try; [|auto with clock].
      apply clock_only_bind.
      * apply clock_only_bind; auto with clock.
      * intros [h mi]. apply clock_only_bind; auto with clock.
    + intros [t|]; auto with clock.
  - intros e. apply clock_only_bind; auto with clock.
Qed.

(** *** Booking *)

(** C6, as stated, fails on the notes: the appointment created for
    "Book appointment for Bob" does not carry the original command as
    its notes but the normalised command behind a fixed prefix. *)
Lemma booking_notes_are_not_the_command :
  let command := "Book appointment for Bob" in
  let t := DateTime 2024 1 1 11 0 0 0 None in
  let notes := "Booked via voice command: book appointment for bob" in
  calls (snd (interpret no_parser command fresh_world)) =
    [ CreateAppointment "Bob" (PyStr "Dr. Smith") t notes;
      LogVoiceInteraction command "book_appointment"
        (response (booked_reply 1 "Bob" (PyStr "Dr. Smith") t)) (24 # 24) ] /\
  notes <> command.
Proof.
  cbv zeta. split; [vm_compute; reflexivity | discriminate].
Qed.

(** C6, amended.  With the patient name title-cased from the entities
    (the empty string when the key is absent): if it is empty the
    handler returns the clarification reply with no data and leaves the
    world as it was, so no call reaches the store; otherwise, once the
    time is resolved, it calls [create_appointment] exactly once with
    the title-cased name, the doctor (["Dr. Smith"] by default), the
    resolved time and the notes ["Booked via voice command: "] followed
    by the command it was given, and answers with the identifier and
    the formatted time, the data carrying the identifier, the two names
    and the time in ISO format; if that call raises, it answers with the
    fixed failure reply and no data. *)
Theorem booking_handler_contract
  {store : Type} {db_manager : DbManager store}
  (date_parser_parse : string -> datetime -> result (Z * Z))
  (ents : entities) (command : string) (w : world store)
  (patient_name : string)
  (Hname : py_title (ent_get ents "patient_name" "") = Ok patient_name) :
  (truthy patient_name = false ->
     _handle_book_appointment date_parser_parse ents command w =
       (Ok (Reply "I need a patient name to book an appointment. Please specify who the appointment is for." DataNone),
        w)) /\
  (truthy patient_name = true ->
     forall t w1,
       _parse_time date_parser_parse (ent_get ents "time" "") command w = (Ok t, w1) ->
       let doctor_name := ent_get ents "doctor" "Dr. Smith" in
       let notes := ("Booked via voice command: " ++ command)%string in
       let logged := calls w ++ [CreateAppointment patient_name doctor_name t notes] in
       _handle_book_appointment date_parser_parse ents command w =
         match create_appointment patient_name doctor_name t notes (db w) with
         | (Ok appointment_id, s) =>
             (Ok (booked_reply appointment_id patient_name doctor_name t),
              World (wall_clock w) (clock_reads w1) s logged)
         | (Raise _, s) =>
             (Ok (Reply "Sorry, I couldn't book the appointment. Please try again with more specific details." DataNone),
              World (wall_clock w) (clock_reads w1) s logged)
         end).
Proof.
  split.
  - intros Hempty. unfold _handle_book_appointment. msimpl.
    rewrite Hname. rewrite Hempty. reflexivity.
  - intros Hfull t w1 Ht. cbv zeta.
    pose proof (parse_time_clock_only date_parser_parse
                  (ent_get ents "time" "") command w) as Hf.
    rewrite Ht in Hf. destruct Hf as (Hclock & Hdb & Hcalls & _).
    cbn [snd] in Hclock, Hdb, Hcalls.
    unfold _handle_book_appointment. msimpl.
    rewrite Hname. rewrite Hfull. cbn [negb]. rewrite Ht.
    rewrite Hclock, Hdb, Hcalls.
    destruct (create_appointment patient_name (ent_get ents "doctor" "Dr. Smith")
                t ("Booked via voice command: " ++ command)%string (db w))
      as [[appointment_id|e] s]; reflexivity.
Qed.

Lemma booking_handler_witness :
  py_title (ent_get bob_entities "patient_name" "") = Ok "Bob" /\
  py_title (ent_get (∅ : entities) "patient_name" "") = Ok "" /\
  _handle_book_appointment no_parser ∅ "book appointment" fresh_world =
    (Ok clarify_booking, fresh_world) /\
  fst (_handle_book_appointment no_parser bob_entities "book appointment for bob"
         fresh_world) =
    Ok (booked_reply 1 "Bob" (PyStr "Dr. Smith") (DateTime 2024 1 1 11 0 0 0 None)).
Proof.
  assert (H0 : py_title (ent_get (∅ : entities) "patient_name" "") = Ok "")
    by reflexivity.
  assert (H1 : py_title (ent_get bob_entities "patient_name" "") = Ok "Bob")
    by reflexivity.
  split; [exact H1|]. split; [exact H0|]. split.
  - apply (proj1 (booking_handler_contract no_parser ∅ "book appointment"
                    fresh_world "" H0)).
    reflexivity.
  - rewrite (proj2 (booking_handler_contract no_parser bob_entities
                      "book appointment for bob" fresh_world "Bob" H1)
                   eq_refl (DateTime 2024 1 1 11 0 0 0 None)
                   (World (fun _ => ten_oclock) 1 (SqliteDb true [] [] [] [] 0) []));
      [reflexivity | vm_compute; reflexivity].
Defined.

(** ** The time resolver *)

(** *** What the search for [(\d+)] finds *)

Lemma digits_mem a : cset_mem false digits a = is_digit a.
Proof.
  unfold cset_mem, digits. cbn [existsb citem_mem andb xorb].
  now destruct (is_digit a).
Qed.

Lemma star_run_digits s : forall p cp,
  exists st l, star_run false digits p s cp = st :: l /\
               pos st = p + digit_run s /\ caps st = cp.
Proof.
  induction s as [|a s IH]; intros p cp; cbn [star_run digit_run].
  - eexists _, _. split; [reflexivity|]. cbn. split; [lia | reflexivity].
  - rewrite digits_mem. destruct (is_digit a).
    + destruct (IH (S p) cp) as (st & l & -> & Hp & Hc).
      exists st, (l ++ [MState p (String a s) cp]).
      split; [reflexivity|]. split; [lia | exact Hc].
    + eexists _, _. split; [reflexivity|]. cbn. split; [lia | reflexivity].
Qed.

Lemma search_digits text : forall s p,
  search_from false (Grp 1 (Plus digits)) 1 text p s =
  match first_run p s with
  | Some (b, e) => Some (ReMatch text b e [(1, (b, e))] 1)
  | None => None
  end.
Proof.
  induction s as [|a s IH]; intros p; cbn [search_from first_run].
  - reflexivity.
  - cbn [run one_run rest pos caps]. rewrite digits_mem.
    destruct (is_digit a).
    + cbn [flat_map]. unfold star_from. cbn [pos rest caps].
      destruct (star_run_digits s (S p) []) as (st & l & -> & Hp & Hc).
      cbn [app map pos caps]. rewrite Hp, Hc. reflexivity.
    + cbn [flat_map map]. apply IH.
Qed.

Lemma digit_val_digit a : is_digit a = false -> digit_val a = None.
Proof. unfold digit_val. now intros ->. Qed.

Lemma int_of_digits_run s : forall acc,
  int_of_digits (substring 0 (digit_run s) s) acc = int_of_digits s acc.
Proof.
  induction s as [|a s IH]; intros acc; cbn [digit_run]; [reflexivity|].
  destruct (is_digit a) eqn:E.
  - cbn [substring int_of_digits]. destruct (digit_val a); [apply IH | reflexivity].
  - cbn [substring int_of_digits]. now rewrite (digit_val_digit a E).
Qed.

Lemma substring_skip pre : forall s n,
  substring (len pre) n (pre ++ s) = substring 0 n s.
Proof.
  induction pre as [|c pre IH]; intros s n; [reflexivity|].
  change (substring (len pre) n (pre ++ s) = substring 0 n s). apply IH.
Qed.

Lemma append_snoc_cons pre a s :
  ((pre ++ String a "") ++ s = pre ++ String a s)%string.
Proof.
  induction pre as [|c pre IH]; [reflexivity|].
  change (String c ((pre ++ String a "") ++ s) = String c (pre ++ String a s))%string.
  f_equal. exact IH.
Qed.

Lemma len_snoc pre a : len (pre ++ String a "") = S (len pre).
Proof.
  induction pre as [|c pre IH]; [reflexivity|].
  change (S (len (pre ++ String a "")) = S (S (len pre))).
  f_equal. exact IH.
Qed.

Lemma first_run_integer : forall s pre,
  match first_run (len pre) s with
  | Some sp => first_integer s = Some (int_of_digits (slice (pre ++ s) sp) 0)
  | None => first_integer s = None
  end.
Proof.
  induction s as [|a s IH]; intros pre; cbn [first_run first_integer].
  - reflexivity.
  - destruct (is_digit a) eqn:E.
    + unfold slice. cbn [fst snd].
      replace (S (len pre) + digit_run s - len pre) with (digit_run (String a s))
        by (cbn [digit_run]; rewrite E; lia).
      rewrite substring_skip, int_of_digits_run. reflexivity.
    + specialize (IH (pre ++ String a "")%string).
      rewrite len_snoc, append_snoc_cons in IH. exact IH.
Qed.

(** The [except:] branch of the resolver takes the first integer of the
    token as the hour. *)
Lemma hour_fallback_first_integer base_date time_str :
  hour_fallback base_date time_str =
  match first_integer time_str with
  | Some hour =>
      t ← dt_replace_hm base_date (adjust_hour time_str hour) 0; Ok (Some t)
  | None => Ok None
  end.
Proof.
  unfold hour_fallback, re_search.
  change (re_compile "(\d+)") with (Some (Grp 1 (Plus digits), 1)).
  rsimpl. rewrite search_digits.
  pose proof (first_run_integer time_str "") as H. cbn [len String.length append] in H.
  destruct (first_run 0 time_str) as [[b e]|]; rewrite H; [|reflexivity].
  unfold group. cbn [m_ngroups m_caps m_string assoc_span Nat.ltb Nat.leb Nat.eqb].
  rsimpl. unfold py_int. rsimpl. reflexivity.
Qed.

(** *** The resolver of the specification *)

(** C3, as stated, fails: [_parse_time] has no [now] parameter and reads
    the wall clock itself, so the same arguments give different
    timestamps at different times of the day. *)
Lemma parse_time_reads_the_wall_clock :
  fst (_parse_time no_parser (PyStr "3 pm") "at 3 pm tomorrow" morning_world)
    = Ok (DateTime 2024 1 2 15 0 0 0 None) /\
  fst (_parse_time no_parser (PyStr "") "see you soon" morning_world)
    = Ok (DateTime 2024 1 1 11 0 0 0 None) /\
  fst (_parse_time no_parser (PyStr "") "see you soon" evening_world)
    = Ok (DateTime 2024 1 1 19 0 0 0 None) /\
  fst (_parse_time no_parser (PyStr "") "see you soon" morning_world)
    <> fst (_parse_time no_parser (PyStr "") "see you soon" evening_world).
Proof.
  repeat split; try (vm_compute; reflexivity).
  vm_compute. discriminate.
Qed.

(** C3, amended.  The resolver takes the time token and the full text
    and reads the reference time from the wall clock.  It touches
    nothing but the clock, and whenever the clock shows the same instant
    [now] at every reading it returns what the pure resolver of the
    specification returns for that [now]; hence two calls with the same
    arguments under clocks showing the same instant return the same
    timestamp. *)
Theorem parse_time_is_resolveTime_of_the_clock
  {store : Type}
  (date_parser_parse : string -> datetime -> result (Z * Z))
  (time_str : pyval) (full_command : string) (now : datetime)
  (w w' : world store)
  (Hclock : forall k, naive (wall_clock w k) = now)
  (Hclock' : forall k, naive (wall_clock w' k) = now) :
  fst (_parse_time date_parser_parse time_str full_command w) =
    resolveTime date_parser_parse time_str full_command now /\
  frame w (snd (_parse_time date_parser_parse time_str full_command w)) /\
  fst (_parse_time date_parser_parse time_str full_command w') =
    fst (_parse_time date_parser_parse time_str full_command w).
Proof.
  assert (Hres : forall w0 : world store,
             (forall k, naive (wall_clock w0 k) = now) ->
             fst (_parse_time date_parser_parse time_str full_command w0) =
             resolveTime date_parser_parse time_str full_command now).
  { clear w w' Hclock Hclock'. intros w Hclock.
    unfold _parse_time, resolveTime, dateutil_parse, base_date_of, datetime_now.
    msimpl. cbn [wall_clock clock_reads]. rewrite !Hclock.
    set (fallback := dt_add now (timedelta 0 1)).
    set (base_day := if str_contains "tomorrow" full_command then _ else _).
    assert (Hfrom : forall base token,
               match hour_fallback base token with
               | Ok (Some t) => Ok t
               | Ok None => Ok (dt_top_of_hour base)
               | Raise _ => fallback
               end =
               match first_integer token with
               | Some h =>
                   match dt_replace_hm base (adjust_hour token h) 0 with
                   | Ok t => Ok t
                   | Raise _ => fallback
                   end
               | None => Ok (dt_top_of_hour base)
               end).
    { intros base token. rewrite hour_fallback_first_integer.
      destruct (first_integer token) as [h|]; [|reflexivity]. rsimpl.
      destruct (dt_replace_hm base (adjust_hour token h) 0); reflexivity. }
    destruct base_day as [base|e];
      [|cbn [wall_clock clock_reads]; rewrite ?Hclock; reflexivity].
    destruct time_str as [|token]; [reflexivity|].
    cbn [py_truthy py_format]. destruct (truthy token); [|reflexivity].
    cbn [wall_clock clock_reads]. rewrite ?Hclock.
    specialize (Hfrom base token). unfold adjust_hour in Hfrom.
    destruct (date_parser_parse token now) as [[h mi]|e].
    - destruct (dt_replace_hm base h mi) as [t|e]; [reflexivity|].
      rewrite <- Hfrom.
      destruct (hour_fallback base token) as [[t|]|e'];
        cbn [wall_clock clock_reads]; rewrite ?Hclock; reflexivity.
    - rewrite <- Hfrom.
      destruct (hour_fallback base token) as [[t|]|e'];
        cbn [wall_clock clock_reads]; rewrite ?Hclock; reflexivity. }
  split; [apply Hres; exact Hclock|].
  split; [apply parse_time_clock_only|].
  rewrite (Hres w' Hclock'), (Hres w Hclock). reflexivity.
Qed.

Lemma parse_time_witness :
  (forall k, naive (wall_clock morning_world k) = DateTime 2024 1 1 10 0 0 0 None) /\
  (forall k, naive (wall_clock later_morning_world k) = DateTime 2024 1 1 10 0 0 0 None) /\
  fst (_parse_time no_parser (PyStr "3 pm") "at 3 pm tomorrow" morning_world) =
    resolveTime no_parser (PyStr "3 pm") "at 3 pm tomorrow"
                (DateTime 2024 1 1 10 0 0 0 None) /\
  fst (_parse_time no_parser (PyStr "3 pm") "at 3 pm tomorrow" later_morning_world) =
    fst (_parse_time no_parser (PyStr "3 pm") "at 3 pm tomorrow" morning_world) /\
  resolveTime no_parser (PyStr "3 pm") "at 3 pm tomorrow"
              (DateTime 2024 1 1 10 0 0 0 None) =
    Ok (DateTime 2024 1 2 15 0 0 0 None).
Proof.
  assert (H : forall k, naive (wall_clock morning_world k) =
                        DateTime 2024 1 1 10 0 0 0 None)
    by (intros k; reflexivity).
  assert (H' : forall k, naive (wall_clock later_morning_world k) =
                         DateTime 2024 1 1 10 0 0 0 None)
    by (intros k; reflexivity).
  destruct (parse_time_is_resolveTime_of_the_clock no_parser (PyStr "3 pm")
              "at 3 pm tomorrow" (DateTime 2024 1 1 10 0 0 0 None)
              morning_world later_morning_world H H') as (H1 & _ & H3).
  split; [exact H|]. split; [exact H'|]. split; [exact H1|].
  split; [exact H3|]. vm_compute. reflexivity.
Defined.

(** ** The order of [ORDER BY] *)

Section order_by_facts.
Context {A : Type} (R : relation A) `{!∀ x y, Decision (R x y)}.

Lemma order_insert_Permutation (x : A) (l : list A) : order_insert R x l ≡ₚ x :: l.
Proof.
  induction l as [|y l IH]; cbn [order_insert]; [reflexivity|].
  destruct (decide (R x y)); [reflexivity|].
  rewrite IH. apply Permutation_swap.
Qed.

Lemma order_by_Permutation (l : list A) : order_by R l ≡ₚ l.
Proof.
  induction l as [|x l IH]; cbn [order_by]; [reflexivity|].
  rewrite order_insert_Permutation, IH. reflexivity.
Qed.

Context `{!Transitive R, !Total R}.

Lemma StronglySorted_order_insert (x : A) (l : list A) :
  StronglySorted R l -> StronglySorted R (order_insert R x l).
Proof.
  induction 1 as [|y l Hl IH Hy]; cbn [order_insert].
  - repeat constructor.
  - destruct (decide (R x y)) as [Hxy|Hxy].
    + constructor; [constructor; assumption|].
      constructor; [exact Hxy|].
      eapply List.Forall_impl; [|exact Hy]. intros z Hz. cbv beta.
      transitivity y; assumption.
    + constructor; [exact IH|].
      rewrite order_insert_Permutation. constructor; [|exact Hy].
      destruct (total R x y); [contradiction | assumption].
Qed.

Lemma StronglySorted_order_by (l : list A) : StronglySorted R (order_by R l).
Proof.
  induction l as [|x l IH]; cbn [order_by]; [constructor|].
  apply StronglySorted_order_insert. exact IH.
Qed.

(** Rows that are in order already are handed back as they are stored:
    in particular rows with one and the same key stay in the order of
    their insertion. *)
Lemma order_by_sorted (l : list A) : StronglySorted R l -> order_by R l = l.
Proof.
  induction 1 as [|x l Hl IH Hx]; cbn [order_by]; [reflexivity|].
  rewrite IH. destruct Hx as [|y l Hy _]; cbn [order_insert]; [reflexivity|].
  destruct (decide (R x y)); [reflexivity | contradiction].
Qed.

(** Selecting rows before or after the sort is the same: the rows
    selected keep the order they have among themselves. *)
Lemma order_insert_filter (P : A -> bool) (x : A) (l : list A) :
  StronglySorted R l ->
  List.filter P (order_insert R x l) =
  if P x then order_insert R x (List.filter P l) else List.filter P l.
Proof.
  induction 1 as [|y l Hl IH Hy]; cbn [order_insert List.filter].
  - destruct (P x); reflexivity.
  - destruct (decide (R x y)) as [Hxy|Hxy]; cbn [List.filter].
    + destruct (P x) eqn:Ex; [|reflexivity].
      destruct (P y) eqn:Ey.
      * cbn [order_insert]. destruct (decide (R x y)); [reflexivity | contradiction].
      * assert (Hall : Forall (R x) (List.filter P l)).
        { apply List.Forall_forall. intros z Hz. apply filter_In in Hz as [Hz _].
          rewrite List.Forall_forall in Hy. transitivity y; auto. }
        destruct Hall as [|z l' Hz _]; cbn [order_insert]; [reflexivity|].
        destruct (decide (R x z)); [reflexivity | contradiction].
    + rewrite IH. destruct (P y) eqn:Ey; destruct (P x) eqn:Ex; try reflexivity.
      cbn [order_insert]. destruct (decide (R x y)); [contradiction | reflexivity].
Qed.

Lemma order_by_filter (P : A -> bool) (l : list A) :
  List.filter P (order_by R l) = order_by R (List.filter P l).
Proof.
  induction l as [|x l IH]; cbn [order_by List.filter]; [reflexivity|].
  rewrite order_insert_filter by apply StronglySorted_order_by.
  rewrite IH. destruct (P x); reflexivity.
Qed.

(** Rows that are all of one key come back in the order of their
    insertion. *)
Lemma order_by_ties (P : A -> bool) (l : list A) :
  (forall a b, P a = true -> P b = true -> R a b) ->
  List.filter P (order_by R l) = List.filter P l.
Proof.
  intros HP. rewrite order_by_filter. apply order_by_sorted.
  induction l as [|x l IH]; cbn [List.filter]; [constructor|].
  destruct (P x) eqn:Ex; [|exact IH].
  constructor; [exact IH|].
  apply List.Forall_forall. intros y Hy. apply filter_In in Hy as [_ Hy]. auto.
Qed.

End order_by_facts.

(** ** Listing the appointments *)

#[export] Instance by_time_trans : Transitive by_time.
Proof. intros a b c. unfold by_time. apply transitivity. Qed.

#[export] Instance by_time_total : Total by_time.
Proof. intros a b. unfold by_time. apply (total String.le). Qed.

Lemma append_assoc (a b c : string) : ((a ++ b) ++ c = a ++ (b ++ c))%string.
Proof.
  induction a as [|x a IH]; [reflexivity|].
  change (String x ((a ++ b) ++ c) = String x (a ++ (b ++ c)))%string.
  f_equal. exact IH.
Qed.

Lemma append_empty (a : string) : (a ++ "")%string = a.
Proof.
  induction a as [|x a IH]; [reflexivity|].
  change (String x (a ++ "") = String x a)%string. f_equal. exact IH.
Qed.

Lemma add_line_ok {A : Type} (line : A -> result string) resp x l :
  line x = Ok l -> add_line line resp x = Ok (resp ++ l)%string.
Proof. intros H. unfold add_line. rewrite H. reflexivity. Qed.

Lemma naive_time_line apt :
  is_naive_time apt = true -> appointment_line apt = Ok (upcoming_line apt).
Proof.
  unfold is_naive_time, upcoming_line, appointment_line.
  destruct (fromisoformat _) as [t|e]; [reflexivity | discriminate].
Qed.

Lemma lines_fold : forall (l : list appointment) (header : string),
  Forall (fun apt => is_naive_time apt = true) l ->
  foldM (add_line appointment_line) l header =
  Ok (header ++ join (map upcoming_line l))%string.
Proof.
  induction l as [|apt l IH]; intros header Hl; cbn [foldM map join].
  - now rewrite append_empty.
  - inversion Hl as [|? ? Hapt Hl']; subst.
    rewrite (add_line_ok _ _ _ _ (naive_time_line apt Hapt)). rsimpl.
    rewrite (IH _ Hl'), append_assoc. reflexivity.
Qed.

(** Under a clock that shows [now] at every reading, the comprehension
    keeps exactly the rows whose time is after [now]. *)
Lemma select_upcoming_filter {store : Type} (now : datetime) :
  forall (l : list appointment) (w : world store),
    (forall k, naive (wall_clock w k) = now) ->
    Forall (fun apt => is_naive_time apt = true) l ->
    fst (select_upcoming l w) = Ok (List.filter (after now) l) /\
    frame w (snd (select_upcoming l w)).
Proof.
  induction l as [|apt l IH]; intros w Hclock Hl; cbn [select_upcoming List.filter].
  - split; [reflexivity | apply frame_refl].
  - inversion Hl as [|? ? Hapt Hl']; subst.
    unfold is_naive_time in Hapt. unfold after at 1.
    msimpl. unfold datetime_now.
    destruct (fromisoformat _) as [t|e]; [|discriminate].
    destruct (tzoffset t) eqn:Htz; [discriminate|].
    cbn [wall_clock clock_reads]. rewrite Hclock.
    assert (Hnow : tzoffset now = None) by (rewrite <- (Hclock 0); reflexivity).
    unfold dt_gt. rewrite Htz, Hnow.
    set (w1 := World (wall_clock w) (S (clock_reads w)) (db w) (calls w)).
    destruct (IH w1 Hclock Hl') as (Hsel & Hfr).
    destruct (select_upcoming l w1) as [[u|e] w2]; cbn [fst snd] in *;
      [|discriminate].
    injection Hsel as ->. split.
    + destruct (to_us now <? to_us t)%Z; reflexivity.
    + eapply frame_trans; [|exact Hfr].
      unfold frame, w1; cbn. repeat split; auto.
Qed.

Lemma StronglySorted_filter {A : Type} (R : relation A) (f : A -> bool) l :
  StronglySorted R l -> StronglySorted R (List.filter f l).
Proof.
  induction 1 as [|x l Hs IH Hx]; cbn [List.filter]; [constructor|].
  destruct (f x); [|exact IH].
  constructor; [exact IH|].
  rewrite List.Forall_forall in *. intros y Hy.
  apply filter_In in Hy as [Hy _]. auto.
Qed.

(** C7, as stated, fails in two ways.  For an empty store the response
    is the fixed sentence and reports no count.  And the clock is read
    anew for every row, so "now" need not be one instant: under a clock
    that moves on between two readings the handler keeps the appointment
    of 10:00:01 and drops the later one of 10:00:02, which is the filter
    "strictly after [now]" for no [now] at all. *)
Lemma view_appointments_empty_store_and_moving_clock :
  fst (_handle_view_appointments fresh_world) =
    Ok (Reply "No appointments scheduled." (DataAppointments [])) /\
  "No appointments scheduled." <> ("You have 0 upcoming appointments:" ++ nl)%string /\
  fst (_handle_view_appointments ticking_world) =
    Ok (Reply ("You have 1 upcoming appointments:" ++ nl
               ++ "- Omar Khan with Dr. Brown on 2024-01-01 at 10:00 AM" ++ nl)%string
              (DataAppointments [one_past])) /\
  forall now, List.filter (after now) [one_past; two_past] <> [one_past].
Proof.
  split; [vm_compute; reflexivity|]. split; [discriminate|].
  split; [vm_compute; reflexivity|].
  intros now. cbn [List.filter]. unfold after.
  assert (H1 : fromisoformat (replace_char "Z" "+00:00" (apt_appointment_time one_past))
               = Ok (DateTime 2024 1 1 10 0 1 0 None)) by (vm_compute; reflexivity).
  assert (H2 : fromisoformat (replace_char "Z" "+00:00" (apt_appointment_time two_past))
               = Ok (DateTime 2024 1 1 10 0 2 0 None)) by (vm_compute; reflexivity).
  assert (H3 : (to_us (DateTime 2024 1 1 10 0 1 0 None)
                < to_us (DateTime 2024 1 1 10 0 2 0 None))%Z)
    by (vm_compute; reflexivity).
  rewrite H1, H2.
  destruct (Z.ltb_spec (to_us now) (to_us (DateTime 2024 1 1 10 0 1 0 None)));
    destruct (Z.ltb_spec (to_us now) (to_us (DateTime 2024 1 1 10 0 2 0 None)));
    try discriminate.
  lia.
Qed.

(** C7, amended.  With the SQLite-backed store reachable, every stored time
    reading back as a naive timestamp and the clock showing [now]
    throughout the call, [view_appointments] returns as data the whole
    list of the rows the store hands back (ordered by
    [appointment_time]) whose time is strictly after [now]: it is in
    ascending order of [appointment_time], rows of one and the same
    time in the order in which they were stored, and is not cut short.
    The response reports the length of that list and then lists its
    first five rows at most; for an empty store it is the fixed
    sentence. *)
Theorem view_appointments_lists_all_upcoming
  (w : world sqlite_db) (now : datetime)
  (Hdb : connectable (db w) = true)
  (Hclock : forall k, naive (wall_clock w k) = now)
  (Htimes : forallb is_naive_time (appointments (db w)) = true) :
  let rows := order_by by_time (appointments (db w)) in
  let upcoming := List.filter (after now) rows in
  fst (_handle_view_appointments w) =
    Ok (Reply
          match rows with
          | [] => "No appointments scheduled."
          | _ :: _ =>
              ("You have " ++ str_of_N (N.of_nat (length upcoming))
               ++ " upcoming appointments:" ++ nl
               ++ join (map upcoming_line (take 5 upcoming)))%string
          end
          (DataAppointments upcoming)) /\
  StronglySorted by_time upcoming /\
  length (take 5 upcoming) <= 5 /\
  (forall t, List.filter (same_slot t) upcoming =
             List.filter (same_slot t)
               (List.filter (after now) (appointments (db w)))).
Proof.
  intros rows upcoming.
  assert (Hrows : Forall (fun apt => is_naive_time apt = true) rows).
  { unfold rows. rewrite order_by_Permutation.
    apply List.Forall_forall. rewrite forallb_forall in Htimes. exact Htimes. }
  assert (Hup : Forall (fun apt => is_naive_time apt = true) upcoming).
  { rewrite List.Forall_forall in *. intros apt Hin.
    apply filter_In in Hin as [Hin _]. auto. }
  split; [|split; [|split]].
  - unfold _handle_view_appointments. msimpl.
    cbn [get_appointments DatabaseManager]. unfold sqlite_get_appointments.
    rewrite Hdb. cbn [negb]. fold rows.
    destruct rows as [|apt rows'] eqn:Erows; [reflexivity|].
    set (w1 := World (wall_clock w) (clock_reads w) (db w) (calls w ++ [GetAppointments])).
    destruct (select_upcoming_filter now (apt :: rows') w1 Hclock Hrows) as (Hsel & _).
    destruct (select_upcoming (apt :: rows') w1) as [[u|e] w2]; cbn [fst] in Hsel;
      [|discriminate].
    injection Hsel as ->. fold upcoming.
    rewrite lines_fold.
    + cbn [fst]. rewrite !append_assoc. reflexivity.
    + apply Forall_take. exact Hup.
  - apply StronglySorted_filter. apply StronglySorted_order_by; apply _.
  - rewrite length_take. lia.
  - intros t. unfold upcoming, rows. rewrite (order_by_filter by_time (after now)).
    apply (order_by_ties by_time (same_slot t)). intros a b Ha Hb.
    unfold same_slot in Ha, Hb.
    apply String.eqb_eq in Ha, Hb. unfold by_time. rewrite Ha, Hb. reflexivity.
Qed.

(** Five bookings for two times: the store hands them back by time,
    those of one and the same time in the order in which they were
    made. *)
Example same_slot_keeps_booking_order :
  map apt_id
    (order_by by_time
       (map (fun '(i, t) => Appointment i "Bob Ray" "Dr. Smith" t (PyStr "") "scheduled")
            [(1, "2024-01-01 11:00:00"); (2, "2024-01-01 09:00:00");
             (3, "2024-01-01 11:00:00"); (4, "2024-01-01 09:00:00");
             (5, "2024-01-01 11:00:00")]%Z))
  = [2; 4; 1; 3; 5]%Z.
Proof. vm_compute. reflexivity. Qed.

Lemma view_appointments_witness :
  connectable (db clinic_world) = true /\
  (forall k, naive (wall_clock clinic_world k) = ten_oclock) /\
  forallb is_naive_time (appointments (db clinic_world)) = true /\
  fst (_handle_view_appointments clinic_world) =
    Ok (Reply ("You have 2 upcoming appointments:" ++ nl
               ++ "- Zara Ahmed with Dr. Wilson on 2024-01-01 at 11:00 AM" ++ nl
               ++ "- Ahmed Raza with Dr. Smith on 2024-01-01 at 12:00 PM" ++ nl)%string
              (DataAppointments [at_eleven; at_noon])).
Proof.
  assert (H1 : connectable (db clinic_world) = true) by reflexivity.
  assert (H2 : forall k, naive (wall_clock clinic_world k) = ten_oclock)
    by (intros k; reflexivity).
  assert (H3 : forallb is_naive_time (appointments (db clinic_world)) = true)
    by (vm_compute; reflexivity).
  split; [exact H1|]. split; [exact H2|]. split; [exact H3|].
  rewrite (proj1 (view_appointments_lists_all_upcoming clinic_world ten_oclock
                    H1 H2 H3)).
  vm_compute. reflexivity.
Defined.

(** Outside the hypotheses of the amended C7: a row whose stored time carries a UTC
    offset reads back as an aware timestamp, its comparison with the
    naive [datetime.now()] raises, and the handler falls back to its
    failure reply. *)
Example offset_aware_row_fails_listing :
  fst (_handle_view_appointments
         (World (fun _ => ten_oclock) 0
                (SqliteDb true
                   [Appointment 1 "Zara Ahmed" "Dr. Wilson"
                      "2024-01-01 11:00:00+00:00" PyNone "scheduled"]
                   [] [] [] 1) [])) =
  Ok (Reply "Sorry, I couldn't retrieve the appointments." DataNone).
Proof. vm_compute. reflexivity. Qed.

(** ** Invariants of the classification loop *)

Ltac rsimpl_in H := cbn [mbind result_bind rbind mret result_ret] in H.

Lemma foldM_invariant {A B : Type} (P : A -> Prop) (Q : B -> Prop)
  (f : A -> B -> result A) :
  (forall a x a', Q x -> P a -> f a x = Ok a' -> P a') ->
  forall l acc r, Forall Q l -> P acc -> foldM f l acc = Ok r -> P r.
Proof.
  intros Hstep. induction l as [|x l IH]; intros acc r Hl Hacc; cbn [foldM].
  - intros [= <-]. exact Hacc.
  - inversion Hl as [|? ? Hx Hl']; subst.
    destruct (f acc x) as [a1|e] eqn:E; rsimpl; [|discriminate].
    apply IH; [exact Hl'|]. eapply Hstep; eauto.
Qed.

(** A property that holds of the initial best and is kept by every
    iteration of the inner loop holds of the result. *)
Lemma classify_invariant (P : classification -> Prop) (command : string) :
  P ("unknown", ∅, 0%Q) ->
  (forall intent pattern acc acc',
     In (intent, pattern) (flatten_rules intent_patterns) ->
     P acc -> consider command intent acc pattern = Ok acc' -> P acc') ->
  forall r, _extract_intent_and_entities command = Ok r -> P r.
Proof.
  intros Hinit Hstep r. unfold _extract_intent_and_entities.
  apply (foldM_invariant P (fun entry => In entry intent_patterns));
    [|apply List.Forall_forall; auto | exact Hinit].
  intros acc [intent patterns] acc' Hentry Hacc. unfold consider_intent. cbn [fst snd].
  apply (foldM_invariant P (fun pattern => In pattern patterns));
    [|apply List.Forall_forall; auto | exact Hacc].
  intros a pattern a' Hp Ha. apply Hstep; [|exact Ha].
  unfold flatten_rules. apply in_flat_map. exists (intent, patterns).
  split; [exact Hentry|]. cbn [fst snd]. apply in_map. exact Hp.
Qed.

(** What one iteration can do to the running best. *)
Lemma consider_cases command intent pattern bi ents bc acc' :
  consider command intent (bi, ents, bc) pattern = Ok acc' ->
  acc' = (bi, ents, bc) \/
  exists m c ents',
    re_search pattern command true = Ok (Some m) /\
    acc' = (intent, ents', c) /\
    if has_groups m then
      if String.eqb intent "book_appointment"
      then _extract_appointment_entities command m = Ok ents'
      else if String.eqb intent "query_patient"
           then _extract_patient_entities command m = Ok ents'
           else ents' = ents
    else ents' = ents.
Proof.
  unfold consider.
  destruct (re_search pattern command true) as [[m|]|e]; rsimpl;
    [|intros [= <-]; auto | discriminate].
  destruct (py_div _ _) as [c|e]; rsimpl; [|discriminate].
  destruct (Qgt_bool c bc); [|intros [= <-]; auto].
  intros H. right. exists m, c.
  destruct (has_groups m).
  - destruct (String.eqb intent "book_appointment").
    + destruct (_extract_appointment_entities command m) as [e1|e]; rsimpl_in H;
        [|discriminate].
      injection H as <-. eauto.
    + destruct (String.eqb intent "query_patient").
      * destruct (_extract_patient_entities command m) as [e1|e]; rsimpl_in H;
          [|discriminate].
        injection H as <-. eauto.
      * injection H as <-. eauto.
  - injection H as <-. eauto.
Qed.

Lemma re_search_has_groups pattern text icase m :
  pattern_grouped pattern = true ->
  re_search pattern text icase = Ok (Some m) -> has_groups m = true.
Proof.
  unfold pattern_grouped, re_search. intros H.
  apply andb_true_iff in H as [_ Hng].
  destruct (re_compile pattern) as [[r ng]|]; [|discriminate].
  intros [= Hs]. apply search_from_ok in Hs; [|reflexivity].
  unfold has_groups. rewrite (mo_ngroups _ _ _ _ Hs).
  apply Nat.leb_le in Hng. apply Nat.ltb_lt. lia.
Qed.

Lemma entities_wf_empty : entities_wf ∅.
Proof. intros k v H. rewrite lookup_empty in H. discriminate. Qed.

Lemma entities_wf_insert (ents : entities) k s :
  entities_wf ents -> In k ["patient_name"; "time"; "doctor"] ->
  entities_wf (<[k := PyStr s]> ents).
Proof.
  intros Hwf Hk k' v. destruct (decide (k = k')) as [<- | Hne].
  - rewrite lookup_insert_eq. intros [= <-]. eauto.
  - rewrite lookup_insert_ne by exact Hne. apply Hwf.
Qed.

Lemma extract_time_shape command : forall patterns (e1 e2 : entities),
  forallb pattern_grouped patterns = true ->
  extract_time patterns command e1 = Ok e2 ->
  e2 = e1 \/ exists s, e2 = <["time" := PyStr s]> e1.
Proof.
  induction patterns as [|p ps IH]; intros e1 e2 H; cbn [extract_time].
  - intros [= <-]. auto.
  - cbn [forallb] in H. apply andb_true_iff in H as [Hp Hps].
    destruct (re_search_grouped p command false Hp) as (mo & -> & Hg). rsimpl.
    destruct mo as [tm|]; [|apply IH; exact Hps].
    destruct (Hg tm eq_refl) as (g & ->). rsimpl. intros [= <-]. eauto.
Qed.

Lemma py_strip_ok g name : py_strip g = Ok name -> exists s, g = PyStr s /\ name = str_strip s.
Proof. destruct g as [|s]; [discriminate|]. intros [= <-]. eauto. Qed.

(** What the appointment extractor returns for a match with groups. *)
Lemma extract_appointment_shape command m ents :
  has_groups m = true ->
  _extract_appointment_entities command m = Ok ents ->
  entities_wf ents /\ is_str (ents !! "patient_name") /\ is_str (ents !! "doctor").
Proof.
  intros Hg. unfold _extract_appointment_entities. rewrite Hg.
  destruct (group m 1) as [g|e]; rsimpl; [|discriminate].
  destruct (py_strip g) as [name|e]; rsimpl; [|discriminate].
  set (e1 := <["patient_name" := PyStr name]> (∅ : entities)).
  assert (Hwf1 : entities_wf e1)
    by (apply entities_wf_insert; [apply entities_wf_empty | cbn; auto]).
  assert (Hn1 : e1 !! "patient_name" = Some (PyStr name))
    by (unfold e1; apply lookup_insert_eq).
  destruct (extract_time time_patterns command e1) as [e2|e] eqn:Et; rsimpl;
    [|discriminate].
  assert (Hwf2 : entities_wf e2 /\ e2 !! "patient_name" = Some (PyStr name)).
  { destruct (extract_time_shape _ _ _ _ time_patterns_grouped Et) as [-> | (s & ->)].
    - auto.
    - split; [apply entities_wf_insert; [exact Hwf1 | cbn; auto]|].
      rewrite lookup_insert_ne by discriminate. exact Hn1. }
  destruct Hwf2 as [Hwf2 Hn2].
  destruct (re_search_grouped _ command false doctor_pattern_grouped)
    as (mo & -> & Hd). rsimpl.
  assert (Hfin : forall d, entities_wf (<["doctor" := PyStr d]> e2) /\
                           is_str (<["doctor" := PyStr d]> e2 !! "patient_name") /\
                           is_str (<["doctor" := PyStr d]> e2 !! "doctor")).
  { intros d. split; [apply entities_wf_insert; [exact Hwf2 | cbn; auto]|].
    split; [exists name; rewrite lookup_insert_ne by discriminate; exact Hn2|].
    exists d. apply lookup_insert_eq. }
  destruct mo as [dm|]; [|intros [= <-]; apply Hfin].
  destruct (Hd dm eq_refl) as (g' & ->). rsimpl. intros [= <-]. apply Hfin.
Qed.

(** What the patient extractor returns for a match with groups. *)
Lemma extract_patient_shape command m ents :
  has_groups m = true ->
  _extract_patient_entities command m = Ok ents ->
  exists g, group m 1 = Ok (PyStr g) /\
            ents = <["patient_name" := PyStr (str_strip g)]> ∅.
Proof.
  intros Hg. unfold _extract_patient_entities. rewrite Hg.
  destruct (group m 1) as [g|e]; rsimpl; [|discriminate].
  destruct (py_strip g) as [name|e] eqn:Es; rsimpl; [|discriminate].
  apply py_strip_ok in Es as (s & -> & ->). intros [= <-]. eauto.
Qed.

Lemma registry_extractor_rules_grouped :
  extractor_rules_grouped (flatten_rules intent_patterns) = true.
Proof. vm_compute. reflexivity. Qed.

Lemma registry_intents_known :
  forallb (fun rule => existsb (String.eqb (fst rule)) known_intents)
          (flatten_rules intent_patterns) = true.
Proof. vm_compute. reflexivity. Qed.

(** ** What a capture group can hold *)

Lemma all_ascii_complete (a : ascii) : In a all_ascii.
Proof.
  unfold all_ascii. rewrite <- (ascii_nat_embedding a).
  apply in_map. apply in_seq. pose proof (nat_ascii_bounded a). lia.
Qed.

Lemma class_within_mem icase f c a :
  class_within icase f c = true -> cset_mem icase c a = true -> f a = true.
Proof.
  unfold class_within. rewrite forallb_forall. intros H Hm.
  specialize (H a (all_ascii_complete a)). rewrite Hm in H. exact H.
Qed.

Lemma cursor_step text p a s cp :
  cursor text (MState p (String a s) cp) ->
  cursor text (MState (S p) s cp) /\ String.get p text = Some a.
Proof.
  intros (pre & -> & Hlen). cbn [rest pos] in *. split.
  - exists (pre ++ String a "")%string. cbn [rest pos].
    rewrite append_snoc_cons, len_snoc, Hlen. auto.
  - rewrite <- Hlen. unfold len.
    change (String.length pre) with (0 + String.length pre).
    rewrite <- append_correct2. reflexivity.
Qed.

Lemma cursor_caps text p s cp cp' :
  cursor text (MState p s cp) -> cursor text (MState p s cp').
Proof. intros (pre & H). exists pre. exact H. Qed.

Lemma range_ok_empty f text a : range_ok f text a a.
Proof. intros i ch Hi. lia. Qed.

Lemma range_ok_trans f text a b c :
  range_ok f text a b -> range_ok f text b c -> range_ok f text a c.
Proof.
  intros H1 H2 i ch Hi Hg. destruct (Nat.lt_ge_cases i b).
  - apply (H1 i ch); [lia | exact Hg].
  - apply (H2 i ch); [lia | exact Hg].
Qed.

Lemma range_ok_weaken f text a b b' :
  range_ok f text a b -> b' <= b -> range_ok f text a b'.
Proof. intros H Hb i ch Hi. apply H. lia. Qed.

Lemma one_run_advanced icase f c text st st' :
  (class_within icase f c = true \/ f = (fun _ => true)) ->
  cursor text st -> In st' (one_run icase c st) -> advanced f text st st'.
Proof.
  intros Hc Hcur. unfold one_run. destruct st as [p s cp]. cbn [rest pos caps].
  destruct s as [|a s]; [intros []|].
  destruct (cset_mem icase c a) eqn:Hm; [|intros []].
  intros [<- | []]. apply cursor_step in Hcur as [Hcur Hg].
  split; [exact Hcur|]. cbn [pos]. split; [lia|].
  intros i ch Hi Hgi. assert (i = p) as -> by lia.
  rewrite Hg in Hgi. injection Hgi as <-.
  destruct Hc as [Hc | ->]; [eapply class_within_mem; eauto | reflexivity].
Qed.

Lemma star_run_advanced icase f c text s : forall p cp st',
  (class_within icase f c = true \/ f = (fun _ => true)) ->
  cursor text (MState p s cp) -> In st' (star_run icase c p s cp) ->
  advanced f text (MState p s cp) st'.
Proof.
  induction s as [|a s IH]; intros p cp st' Hc Hcur; cbn [star_run].
  - intros [<- | []]. split; [exact Hcur|]. split; [lia | apply range_ok_empty].
  - assert (Hhere : advanced f text (MState p (String a s) cp)
                             (MState p (String a s) cp))
      by (split; [exact Hcur|]; split; [lia | apply range_ok_empty]).
    destruct (cset_mem icase c a) eqn:Hm; [|intros [<- | []]; exact Hhere].
    rewrite in_app_iff. intros [Hin | [<- | []]]; [|exact Hhere].
    pose proof (cursor_step _ _ _ _ _ Hcur) as [Hcur1 Hg].
    destruct (IH (S p) cp st' Hc Hcur1 Hin) as (H1 & H2 & H3).
    unfold advanced. cbn [pos] in *.
    split; [exact H1|]. split; [lia|].
    apply (range_ok_trans f text p (S p)); [|exact H3].
    intros i ch Hi Hgi. assert (i = p) as -> by lia.
    rewrite Hg in Hgi. injection Hgi as <-.
    destruct Hc as [Hc | ->]; [eapply class_within_mem; eauto | reflexivity].
Qed.

Lemma advanced_trans f text st1 st2 st3 :
  advanced f text st1 st2 -> advanced f text st2 st3 -> advanced f text st1 st3.
Proof.
  intros (_ & P1 & R1) (C2 & P2 & R2). split; [exact C2|]. split; [lia|].
  eapply range_ok_trans; eauto.
Qed.

(** The matcher stays a cursor into the text and, for an expression
    whose atoms all lie within [f], reads only characters within [f]. *)
Lemma run_advanced icase f text r : forall st st',
  (consumes_only icase f r = true \/ f = (fun _ => true)) ->
  cursor text st -> In st' (run icase r st) -> advanced f text st st'.
Proof.
  induction r as [|c|c|c|c|r1 IH1 r2 IH2|r1 IH1 r2 IH2|n r IH];
    intros st st' Hc Hcur Hin; cbn [run] in Hin; cbn [consumes_only] in Hc.
  - destruct Hin as [<- | []].
    split; [exact Hcur|]. split; [lia | apply range_ok_empty].
  - eapply one_run_advanced; eauto.
  - destruct st as [p s cp]. eapply star_run_advanced; eauto.
  - apply in_flat_map in Hin as (st1 & H1 & H2).
    pose proof (one_run_advanced _ _ _ _ _ _ Hc Hcur H1) as A1.
    destruct st1 as [p1 s1 cp1].
    eapply advanced_trans; [exact A1|].
    eapply star_run_advanced; [exact Hc | apply A1 | exact H2].
  - apply in_app_iff in Hin as [H | [<- | []]].
    + eapply one_run_advanced; eauto.
    + split; [exact Hcur|]. split; [lia | apply range_ok_empty].
  - assert (Hc1 : consumes_only icase f r1 = true \/ f = (fun _ => true))
      by (destruct Hc as [Hc | Hc]; [apply andb_true_iff in Hc; tauto | auto]).
    assert (Hc2 : consumes_only icase f r2 = true \/ f = (fun _ => true))
      by (destruct Hc as [Hc | Hc]; [apply andb_true_iff in Hc; tauto | auto]).
    apply in_flat_map in Hin as (st1 & H1 & H2).
    pose proof (IH1 _ _ Hc1 Hcur H1) as A1.
    eapply advanced_trans; [exact A1|]. apply IH2; [exact Hc2 | apply A1 | exact H2].
  - assert (Hc1 : consumes_only icase f r1 = true \/ f = (fun _ => true))
      by (destruct Hc as [Hc | Hc]; [apply andb_true_iff in Hc; tauto | auto]).
    assert (Hc2 : consumes_only icase f r2 = true \/ f = (fun _ => true))
      by (destruct Hc as [Hc | Hc]; [apply andb_true_iff in Hc; tauto | auto]).
    apply in_app_iff in Hin as [H | H]; [apply IH1 | apply IH2]; auto.
  - apply in_map_iff in Hin as (st1 & <- & H1).
    destruct (IH _ _ Hc Hcur H1) as (C & P & R).
    split; [|split; [exact P | exact R]].
    destruct st1 as [p1 s1 cp1]. eapply cursor_caps. exact C.
Qed.

Lemma run_cursor icase text r st st' :
  cursor text st -> In st' (run icase r st) -> cursor text st'.
Proof.
  intros Hcur Hin.
  apply (run_advanced icase (fun _ => true) text r st st'); auto.
Qed.

Lemma star_run_caps icase c s : forall p cp st',
  In st' (star_run icase c p s cp) -> caps st' = cp.
Proof.
  induction s as [|a s IH]; intros p cp st'; cbn [star_run].
  - intros [<- | []]. reflexivity.
  - destruct (cset_mem icase c a).
    + rewrite in_app_iff. intros [H | [<- | []]]; [eauto | reflexivity].
    + intros [<- | []]. reflexivity.
Qed.

Lemma one_run_caps icase c st st' :
  In st' (one_run icase c st) -> caps st' = caps st.
Proof.
  unfold one_run. destruct (rest st) as [|a s]; [intros []|].
  destruct (cset_mem icase c a); [|intros []]. intros [<- | []]. reflexivity.
Qed.

(** Group [n], once closed over characters within [f], stays so: the
    matcher only ever closes it again over characters within [f]. *)
Lemma run_group_within n icase f text r : forall st st',
  group_within n icase f r = true ->
  cursor text st -> In st' (run icase r st) ->
  span_within f text (assoc_span n (caps st)) ->
  span_within f text (assoc_span n (caps st')).
Proof.
  induction r as [|c|c|c|c|r1 IH1 r2 IH2|r1 IH1 r2 IH2|k r IH];
    intros st st' Hg Hcur Hin Hsp; cbn [run] in Hin; cbn [group_within] in Hg.
  - destruct Hin as [<- | []]. exact Hsp.
  - rewrite (one_run_caps _ _ _ _ Hin). exact Hsp.
  - unfold star_from in Hin. rewrite (star_run_caps _ _ _ _ _ _ Hin). exact Hsp.
  - apply in_flat_map in Hin as (st1 & H1 & H2). unfold star_from in H2.
    rewrite (star_run_caps _ _ _ _ _ _ H2), (one_run_caps _ _ _ _ H1). exact Hsp.
  - apply in_app_iff in Hin as [H | [<- | []]]; [|exact Hsp].
    rewrite (one_run_caps _ _ _ _ H). exact Hsp.
  - apply andb_true_iff in Hg as [Hg1 Hg2].
    apply in_flat_map in Hin as (st1 & H1 & H2).
    apply (IH2 st1 st' Hg2); [eapply run_cursor; eauto | exact H2|].
    apply (IH1 st st1 Hg1); auto.
  - apply andb_true_iff in Hg as [Hg1 Hg2].
    apply in_app_iff in Hin as [H | H]; [eapply IH1 | eapply IH2]; eauto.
  - apply andb_true_iff in Hg as [Hk Hg].
    apply in_map_iff in Hin as (st1 & <- & H1). cbn [caps assoc_span].
    destruct (Nat.eqb k n) eqn:Ekn.
    + cbn [negb orb] in Hk. intros sp [= <-]. cbn [fst snd].
      apply (run_advanced icase f text r st st1); auto.
    + apply (IH st st1 Hg); auto.
Qed.

Lemma search_from_group_within n icase f r ng text :
  group_within n icase f r = true ->
  forall s p m, cursor text (MState p s []) ->
  search_from icase r ng text p s = Some m ->
  m_string m = text /\ span_within f text (assoc_span n (m_caps m)).
Proof.
  intros Hg. induction s as [|a s IH]; intros p m Hcur; cbn [search_from].
  - destruct (run icase r (MState p "" [])) as [|st l] eqn:E; [discriminate|].
    intros [= <-]. cbn [m_string m_caps]. split; [reflexivity|].
    apply (run_group_within n icase f text r (MState p "" []) st); auto.
    + rewrite E. left. reflexivity.
    + intros sp. discriminate.
  - destruct (run icase r (MState p (String a s) [])) as [|st l] eqn:E.
    + apply IH. apply (cursor_step _ _ _ _ _ Hcur).
    + intros [= <-]. cbn [m_string m_caps]. split; [reflexivity|].
      apply (run_group_within n icase f text r (MState p (String a s) []) st); auto.
      * rewrite E. left. reflexivity.
      * intros sp. discriminate.
Qed.

Lemma str_forall_get f s :
  (forall i ch, String.get i s = Some ch -> f ch = true) -> str_forall f s = true.
Proof.
  induction s as [|a s IH]; intros H; cbn [str_forall]; [reflexivity|].
  apply andb_true_iff. split.
  - apply (H 0). reflexivity.
  - apply IH. intros i ch Hi. apply (H (S i)). exact Hi.
Qed.

Lemma get_length i : forall s ch, String.get i s = Some ch -> i < String.length s.
Proof.
  induction i as [|i IH]; intros [|a s] ch; cbn [String.get String.length];
    try discriminate; [lia|].
  intros H. apply IH in H. lia.
Qed.

Lemma range_ok_slice f text sp :
  range_ok f text (fst sp) (snd sp) -> str_forall f (slice text sp) = true.
Proof.
  intros H. apply str_forall_get. intros i ch Hi. unfold slice in Hi.
  pose proof (get_length _ _ _ Hi) as Hlen.
  assert (Hi' : i < snd sp - fst sp).
  { destruct (Nat.lt_ge_cases i (snd sp - fst sp)) as [|Hge]; [assumption|].
    rewrite (substring_correct2 text (fst sp) (snd sp - fst sp) i Hge) in Hi.
    discriminate. }
  rewrite (substring_correct1 text (fst sp) (snd sp - fst sp) i Hi') in Hi.
  apply (H (i + fst sp) ch); [lia | exact Hi].
Qed.

(** The first group of a match of a pattern whose first group lies
    within [f] holds characters within [f] only. *)
Lemma re_search_group_within f pattern text icase r ng m g :
  re_compile pattern = Some (r, ng) ->
  group_within 1 icase f r = true ->
  re_search pattern text icase = Ok (Some m) ->
  group m 1 = Ok (PyStr g) -> str_forall f g = true.
Proof.
  intros Hc Hg. unfold re_search. rewrite Hc. intros [= Hs].
  apply (search_from_group_within 1 icase f r ng text Hg) in Hs as [Hstr Hsp];
    [|exists ""; split; reflexivity].
  unfold group. destruct (m_ngroups m <? 1); [discriminate|].
  destruct (assoc_span 1 (m_caps m)) as [sp|] eqn:E; [|discriminate].
  intros [= <-]. rewrite Hstr. apply range_ok_slice. apply Hsp. reflexivity.
Qed.

Lemma str_forall_lstrip f s : str_forall f s = true -> str_forall f (lstrip s) = true.
Proof.
  induction s as [|a s IH]; cbn [lstrip str_forall]; [auto|].
  intros H. destruct (is_space a); [|exact H].
  apply andb_true_iff in H as [_ H]. auto.
Qed.

Lemma str_forall_rstrip f s : str_forall f s = true -> str_forall f (rstrip s) = true.
Proof.
  induction s as [|a s IH]; cbn [rstrip str_forall]; [auto|].
  intros H. apply andb_true_iff in H as [Ha H]. specialize (IH H).
  destruct (rstrip s).
  - destruct (is_space a); cbn [str_forall]; [reflexivity|].
    rewrite Ha. reflexivity.
  - cbn [str_forall] in *. rewrite Ha. exact IH.
Qed.

Lemma lstrip_idem s : lstrip (lstrip s) = lstrip s.
Proof.
  induction s as [|a s IH]; cbn [lstrip]; [reflexivity|].
  destruct (is_space a) eqn:E; [exact IH|]. cbn [lstrip]. rewrite E. reflexivity.
Qed.

Lemma rstrip_idem s : rstrip (rstrip s) = rstrip s.
Proof.
  induction s as [|a s IH]; cbn [rstrip]; [reflexivity|].
  destruct (rstrip s) as [|b t] eqn:E.
  - destruct (is_space a) eqn:Ea; cbn [rstrip]; [reflexivity|].
    rewrite Ea. reflexivity.
  - cbn [rstrip]. cbn [rstrip] in IH. rewrite IH. reflexivity.
Qed.

(** Trailing white space goes without touching the first character. *)
Lemma lstrip_rstrip s : lstrip s = s -> lstrip (rstrip s) = rstrip s.
Proof.
  destruct s as [|a s]; [reflexivity|]. cbn [lstrip rstrip].
  destruct (is_space a) eqn:Ea.
  - intros H. exfalso. clear Ea.
    assert (Hlen : forall t, String.length (lstrip t) <= String.length t).
    { induction t as [|b t IHt]; cbn [lstrip String.length]; [lia|].
      destruct (is_space b); cbn [String.length]; lia. }
    specialize (Hlen s). rewrite H in Hlen. cbn [String.length] in Hlen. lia.
  - intros _. destruct (rstrip s); cbn [lstrip]; rewrite Ea; reflexivity.
Qed.

Lemma str_strip_idem s : str_strip (str_strip s) = str_strip s.
Proof.
  unfold str_strip.
  rewrite (lstrip_rstrip (lstrip s) (lstrip_idem s)). apply rstrip_idem.
Qed.

Lemma plain_name_strip g :
  str_forall is_letter_or_space g = true -> plain_name (str_strip g).
Proof.
  intros H. split; [|apply str_strip_idem].
  unfold str_strip. apply str_forall_rstrip, str_forall_lstrip, H.
Qed.

Lemma name_group_search icase pattern text m g :
  name_group icase pattern = true ->
  re_search pattern text icase = Ok (Some m) ->
  group m 1 = Ok (PyStr g) -> str_forall is_letter_or_space g = true.
Proof.
  unfold name_group. destruct (re_compile pattern) as [[r ng]|] eqn:E;
    [|discriminate].
  intros Hg. eapply re_search_group_within; eauto.
Qed.

Lemma registry_extractor_rules_name :
  extractor_rules_name (flatten_rules intent_patterns) = true.
Proof. vm_compute. reflexivity. Qed.

Lemma doctor_pattern_name :
  name_group false "(?:with|doctor|dr\.?)\s+([a-zA-Z\s]+)" = true.
Proof. vm_compute. reflexivity. Qed.

Lemma names_plain_empty : names_plain ∅.
Proof. split; intros s H; rewrite lookup_empty in H; discriminate. Qed.

Lemma names_plain_patient g :
  str_forall is_letter_or_space g = true ->
  names_plain (<["patient_name" := PyStr (str_strip g)]> ∅).
Proof.
  intros H. split; intros s.
  - rewrite lookup_insert_eq. intros [= <-]. apply plain_name_strip, H.
  - rewrite lookup_insert_ne by discriminate. rewrite lookup_empty. discriminate.
Qed.

Lemma names_plain_time (ents : entities) t :
  names_plain ents -> names_plain (<["time" := t]> ents).
Proof.
  intros [H1 H2]. split; intros s; rewrite lookup_insert_ne by discriminate; auto.
Qed.

Lemma names_plain_doctor (ents : entities) d :
  names_plain ents -> d = "Dr. Smith" \/ plain_name d ->
  names_plain (<["doctor" := PyStr d]> ents).
Proof.
  intros [H1 H2] Hd. split; intros s.
  - rewrite lookup_insert_ne by discriminate. auto.
  - rewrite lookup_insert_eq. intros [= <-]. exact Hd.
Qed.

Lemma extract_time_names command : forall patterns (e1 e2 : entities),
  extract_time patterns command e1 = Ok e2 -> names_plain e1 -> names_plain e2.
Proof.
  induction patterns as [|p ps IH]; intros e1 e2; cbn [extract_time].
  - intros [= <-]. auto.
  - destruct (re_search p command false) as [[tm|]|e]; rsimpl;
      [|apply IH | discriminate].
    destruct (group tm 1) as [t|e]; rsimpl; [|discriminate].
    intros [= <-]. apply names_plain_time.
Qed.

Lemma extract_appointment_names command m ents :
  has_groups m = true ->
  (forall g, group m 1 = Ok (PyStr g) -> str_forall is_letter_or_space g = true) ->
  _extract_appointment_entities command m = Ok ents -> names_plain ents.
Proof.
  intros Hg Hname. unfold _extract_appointment_entities. rewrite Hg.
  destruct (group m 1) as [g|e]; rsimpl; [|discriminate].
  destruct (py_strip g) as [name|e] eqn:Es; rsimpl; [|discriminate].
  apply py_strip_ok in Es as (s & -> & ->).
  destruct (extract_time time_patterns command _) as [e2|e] eqn:Et; rsimpl;
    [|discriminate].
  apply extract_time_names in Et; [|apply names_plain_patient; auto].
  destruct (re_search _ command false) as [[dm|]|e] eqn:Ed; rsimpl;
    [| |discriminate].
  - destruct (group dm 1) as [g'|e] eqn:Eg; rsimpl; [|discriminate].
    destruct (py_strip g') as [d|e] eqn:Es; rsimpl; [|discriminate].
    apply py_strip_ok in Es as (s' & -> & ->). intros [= <-].
    apply names_plain_doctor; [exact Et|]. right. apply plain_name_strip.
    exact (name_group_search _ _ _ _ _ doctor_pattern_name Ed Eg).
  - intros [= <-]. apply names_plain_doctor; auto.
Qed.

(** X1. The classifier answers ["unknown"] with confidence 0 exactly
    when no rule of the registry matches the command; as soon as one
    rule matches, the intent is one of the six intents of the registry
    and the confidence is positive, however short the match. *)
Theorem classified_intent_is_known (command : string) :
  exists intent ents conf,
    _extract_intent_and_entities command = Ok (intent, ents, conf) /\
    match candidates command with
    | [] => intent = "unknown" /\ conf = 0%Q
    | _ :: _ => In intent known_intents /\ (0 < conf)%Q
    end.
Proof.
  destruct (classify_winner command) as (ents & b & Hc & Hle & Hcase).
  exists (fst b), ents, (conf_of command (snd b)). split; [exact Hc|].
  destruct Hcase as [[-> ->] | (k & Hk & Hpos & _ & _)]; [auto|].
  assert (Hin : In b (candidates command)).
  { apply list_elem_of_In. eapply list_elem_of_lookup_2. exact Hk. }
  destruct (candidates command) as [|c cs] eqn:E; [destruct Hin|].
  rewrite <- E in Hin. apply candidates_of_In in Hin as (p & Hp & _).
  split.
  - pose proof registry_intents_known as H. rewrite forallb_forall in H.
    specialize (H _ Hp). cbn [fst] in H.
    apply existsb_exists in H as (i & Hi & Heq).
    apply String.eqb_eq in Heq. now subst.
  - unfold conf_of. destruct (snd b) as [|n]; [lia|].
    unfold Qlt. cbn [Qnum Qden]. lia.
Qed.

(** The shape of the entities, for any result of the classifier. *)
Lemma classification_shape command intent ents conf :
  _extract_intent_and_entities command = Ok (intent, ents, conf) ->
  entities_wf ents /\
  if String.eqb intent "book_appointment"
  then is_str (ents !! "patient_name") /\ is_str (ents !! "doctor")
  else if String.eqb intent "query_patient"
       then exists name, ents = <["patient_name" := PyStr name]> ∅
       else True.
Proof.
  intros Hc.
  set (P := fun acc : classification =>
              entities_wf (snd (fst acc)) /\
              if String.eqb (fst (fst acc)) "book_appointment"
              then is_str (snd (fst acc) !! "patient_name") /\
                   is_str (snd (fst acc) !! "doctor")
              else if String.eqb (fst (fst acc)) "query_patient"
                   then exists name,
                          snd (fst acc) = <["patient_name" := PyStr name]> ∅
                   else True).
  change (P (intent, ents, conf)).
  apply (classify_invariant P command); [| |exact Hc]; unfold P; cbn [fst snd].
  - split; [apply entities_wf_empty | exact I].
  - intros i p [[bi e] bc] acc' Hrule [Hwf Hshape] Hstep.
    apply consider_cases in Hstep as [-> | (m & c & e' & Hs & -> & Hcase)];
      [auto|].
    cbn [fst snd] in *.
    pose proof registry_extractor_rules_grouped as Hreg.
    unfold extractor_rules_grouped in Hreg. rewrite forallb_forall in Hreg.
    specialize (Hreg _ Hrule). cbn [fst snd] in Hreg.
    destruct (String.eqb i "book_appointment") eqn:Eb.
    + cbn [orb] in Hreg.
      rewrite (re_search_has_groups _ _ _ _ Hreg Hs) in Hcase.
      apply extract_appointment_shape in Hcase;
        [tauto | exact (re_search_has_groups _ _ _ _ Hreg Hs)].
    + destruct (String.eqb i "query_patient") eqn:Eq.
      * cbn [orb] in Hreg.
        rewrite (re_search_has_groups _ _ _ _ Hreg Hs) in Hcase.
        apply extract_patient_shape in Hcase as (g & _ & ->);
          [|exact (re_search_has_groups _ _ _ _ Hreg Hs)].
        split; [|eauto].
        apply entities_wf_insert; [apply entities_wf_empty | cbn; auto].
      * assert (e' = e) as -> by (destruct (has_groups m); exact Hcase).
        auto.
Qed.

(** X2. The entities the classifier returns only have the keys
    [patient_name], [time] and [doctor], and their values are strings,
    never [None].  When the intent is [book_appointment] the keys
    [patient_name] and [doctor] are both present; when it is
    [query_patient] the dictionary is exactly [{patient_name: ...}]. *)
Theorem classified_entities_shape (command : string) :
  exists intent ents conf,
    _extract_intent_and_entities command = Ok (intent, ents, conf) /\
    entities_wf ents /\
    if String.eqb intent "book_appointment"
    then is_str (ents !! "patient_name") /\ is_str (ents !! "doctor")
    else if String.eqb intent "query_patient"
         then exists name, ents = <["patient_name" := PyStr name]> ∅
         else True.
Proof.
  destruct (classification_total_aux command) as (intent & ents & conf & Hc).
  exists intent, ents, conf. split; [exact Hc|].
  exact (classification_shape command intent ents conf Hc).
Qed.

(** X3. Whatever the command (of ASCII text), a patient name among the
    entities the classifier returns consists of letters and white space only
    and has no white space at either end, and so does a doctor's name
    unless it is the default ["Dr. Smith"]: digits and punctuation of
    the command never reach a name. *)
Theorem extracted_names_are_plain (command : string) :
  exists intent ents conf,
    _extract_intent_and_entities command = Ok (intent, ents, conf) /\
    names_plain ents.
Proof.
  destruct (classification_total_aux command) as (intent & ents & conf & Hc).
  exists intent, ents, conf. split; [exact Hc|].
  set (P := fun acc : classification => names_plain (snd (fst acc))).
  change (P (intent, ents, conf)).
  apply (classify_invariant P command); [| |exact Hc]; unfold P; cbn [fst snd].
  - apply names_plain_empty.
  - intros i p [[bi e] bc] acc' Hrule Hnames Hstep.
    apply consider_cases in Hstep as [-> | (m & c & e' & Hs & -> & Hcase)];
      [auto|].
    cbn [fst snd] in *.
    pose proof registry_extractor_rules_name as Hreg.
    unfold extractor_rules_name in Hreg. rewrite forallb_forall in Hreg.
    specialize (Hreg _ Hrule). cbn [fst snd] in Hreg.
    destruct (has_groups m) eqn:Hg; [|now subst].
    destruct (String.eqb i "book_appointment") eqn:Eb.
    + cbn [orb] in Hreg.
      apply (extract_appointment_names command m e' Hg); [|exact Hcase].
      intros g. apply (name_group_search _ _ _ _ _ Hreg Hs).
    + destruct (String.eqb i "query_patient") eqn:Eq; [|now subst].
      cbn [orb] in Hreg.
      apply extract_patient_shape in Hcase as (g & Hgrp & ->); [|exact Hg].
      apply names_plain_patient. apply (name_group_search _ _ _ _ _ Hreg Hs Hgrp).
Qed.

(** ** The normalisation of commands *)

Lemma ascii_forall (P : ascii -> bool) :
  forallb P all_ascii = true -> forall a, P a = true.
Proof. rewrite forallb_forall. intros H a. apply H, all_ascii_complete. Qed.

Lemma str_forall_impl (f g : ascii -> bool) s :
  (forall a, f a = true -> g a = true) ->
  str_forall f s = true -> str_forall g s = true.
Proof.
  intros Hfg. induction s as [|a s IH]; cbn [str_forall]; [auto|].
  intros H. apply andb_true_iff in H as [Ha Hs]. rewrite (Hfg a Ha). auto.
Qed.

(** Substituting the empty string for a single-character class removes
    the characters of the class. *)
Lemma sub_from_remove c s :
  sub_from false (One c) "" 0 s = str_filter (fun a => negb (cset_mem false c a)) s.
Proof.
  induction s as [|a s IH]; [reflexivity|].
  cbn [sub_from run one_run rest pos caps str_filter].
  destruct (cset_mem false c a); cbn [negb pos]; rewrite IH; reflexivity.
Qed.

Lemma star_run_head c s : forall p cp,
  (forall a, cset_mem false c a = is_space a) ->
  exists st l, star_run false c p s cp = st :: l /\ pos st = p + space_run s.
Proof.
  intros p cp Hc. revert p. induction s as [|a s IH]; intros p;
    cbn [star_run space_run].
  - eexists _, _. split; [reflexivity|]. cbn [pos]. lia.
  - rewrite Hc. destruct (is_space a).
    + destruct (IH (S p)) as (st & l & -> & Hp).
      eexists _, _. split; [reflexivity|]. rewrite Hp. lia.
    + eexists _, _. split; [reflexivity|]. cbn [pos]. lia.
Qed.

(** Substituting a blank for [\s+] collapses the runs of white space. *)
Lemma sub_from_collapse c :
  (forall a, cset_mem false c a = is_space a) ->
  forall s,
    sub_from false (Plus c) " " 0 s = collapse false s /\
    sub_from false (Plus c) " " (space_run s) s = collapse true s.
Proof.
  intros Hc. induction s as [|a s [IH0 IH1]]; [split; reflexivity|].
  cbn [space_run collapse]. destruct (is_space a) eqn:Ea.
  - split; [|cbn [sub_from]; exact IH1].
    cbn [sub_from run one_run rest pos caps]. rewrite Hc, Ea.
    cbn [flat_map]. unfold star_from. cbn [pos rest caps].
    destruct (star_run_head c s 1 [] Hc) as (st & l & -> & Hp).
    cbn [app]. rewrite Hp. cbn [Nat.add]. rewrite IH1. reflexivity.
  - assert (H : sub_from false (Plus c) " " 0 (String a s) =
                String a (collapse false s)).
    { cbn [sub_from run one_run rest pos caps]. rewrite Hc, Ea.
      cbn [flat_map]. rewrite IH0. reflexivity. }
    split; exact H.
Qed.

Lemma lower_char_not_upper a : negb (is_upper (lower_char a)) = true.
Proof. revert a. apply ascii_forall. vm_compute. reflexivity. Qed.

Lemma second_class_kept a :
  negb (cset_mem false (Cls true [CWord; CSpace; CChar "@"; CChar ".";
                                  CChar ":"; CChar ","; CChar "-"]) a) = kept a.
Proof.
  apply Bool.eqb_prop. revert a. apply ascii_forall. vm_compute. reflexivity.
Qed.

Lemma kept_lower_clean a :
  implb (kept a && (negb (is_upper a) && (negb (is_space a) || Ascii.eqb a " ")))
        (clean_char a) = true.
Proof. revert a. apply ascii_forall. vm_compute. reflexivity. Qed.

Lemma clean_char_facts a :
  implb (clean_char a)
        (kept a && Ascii.eqb (lower_char a) a
         && implb (is_space a) (Ascii.eqb a " ")) = true.
Proof. revert a. apply ascii_forall. vm_compute. reflexivity. Qed.

Lemma str_filter_ext (f g : ascii -> bool) s :
  (forall a, f a = g a) -> str_filter f s = str_filter g s.
Proof.
  intros H. induction s as [|a s IH]; cbn [str_filter]; [reflexivity|].
  rewrite H, IH. reflexivity.
Qed.

Lemma str_lower_not_upper s :
  str_forall (fun a => negb (is_upper a)) (str_lower s) = true.
Proof.
  unfold str_lower. induction s as [|a s IH]; cbn [str_map str_forall];
    [reflexivity|].
  rewrite lower_char_not_upper. exact IH.
Qed.

Lemma len_str_lower s : len (str_lower s) = len s.
Proof.
  unfold str_lower, len. induction s as [|a s IH]; cbn [str_map String.length];
    congruence.
Qed.

Lemma len_lstrip s : len (lstrip s) <= len s.
Proof.
  unfold len. induction s as [|a s IH]; cbn [lstrip String.length]; [lia|].
  destruct (is_space a); cbn [String.length]; lia.
Qed.

Lemma len_rstrip s : len (rstrip s) <= len s.
Proof.
  unfold len. induction s as [|a s IH]; cbn [rstrip String.length]; [lia|].
  destruct (rstrip s); [destruct (is_space a)|]; cbn [String.length] in *; lia.
Qed.

Lemma len_collapse s : forall b, len (collapse b s) <= len s.
Proof.
  unfold len. induction s as [|a s IH]; intros b; cbn [collapse String.length];
    [lia|].
  destruct (is_space a); [destruct b|]; cbn [String.length];
    [specialize (IH true) | specialize (IH true) | specialize (IH false)]; lia.
Qed.

Lemma len_str_filter f s : len (str_filter f s) <= len s.
Proof.
  unfold len. induction s as [|a s IH]; cbn [str_filter String.length]; [lia|].
  destruct (f a); cbn [String.length]; lia.
Qed.

Lemma str_forall_collapse f s : forall b,
  str_forall f s = true ->
  str_forall (fun a => (Ascii.eqb a " " || f a)
                       && (negb (is_space a) || Ascii.eqb a " "))
             (collapse b s) = true.
Proof.
  induction s as [|a s IH]; intros b; cbn [collapse str_forall]; [auto|].
  intros H. apply andb_true_iff in H as [Ha Hs].
  destruct (is_space a) eqn:Ea; [destruct b|]; cbn [str_forall]; cbv beta.
  - auto.
  - rewrite Ascii.eqb_refl, orb_true_r. cbn [orb andb]. auto.
  - rewrite Ha, Ea, orb_true_r. cbn [negb orb andb]. auto.
Qed.

Lemma str_forall_filter f g s :
  str_forall f s = true ->
  str_forall (fun a => g a && f a) (str_filter g s) = true.
Proof.
  induction s as [|a s IH]; cbn [str_filter str_forall]; [auto|].
  intros H. apply andb_true_iff in H as [Ha Hs].
  destruct (g a) eqn:Eg; cbn [str_forall]; cbv beta; [rewrite Eg, Ha|]; auto.
Qed.

(** [_preprocess_command] without the regular expressions. *)
Lemma preprocess_eq command :
  _preprocess_command command =
    Ok (str_filter kept (collapse false (str_strip (str_lower command)))).
Proof.
  unfold _preprocess_command, re_sub.
  assert (E1 : re_compile "\s+" = Some (Plus (Cls false [CSpace]), 0))
    by reflexivity.
  assert (E2 : re_compile "[^\w\s@.:,-]" =
               Some (One (Cls true [CWord; CSpace; CChar "@"; CChar ".";
                                    CChar ":"; CChar ","; CChar "-"]), 0))
    by reflexivity.
  rewrite E1, E2. rsimpl. f_equal.
  rewrite sub_from_remove.
  rewrite (str_filter_ext _ kept _ second_class_kept). f_equal.
  apply sub_from_collapse. intros a.
  cbn [cset_mem existsb citem_mem andb xorb]. rewrite !orb_false_r. reflexivity.
Qed.

Lemma str_lower_clean s : str_forall clean_char s = true -> str_lower s = s.
Proof.
  unfold str_lower. induction s as [|a s IH]; cbn [str_map str_forall]; [auto|].
  intros H. apply andb_true_iff in H as [Ha Hs]. rewrite (IH Hs). f_equal.
  pose proof (clean_char_facts a) as F. rewrite Ha in F. cbn [implb] in F.
  apply andb_true_iff in F as [F _]. apply andb_true_iff in F as [_ F].
  apply Ascii.eqb_eq. exact F.
Qed.

Lemma str_filter_clean s : str_forall clean_char s = true -> str_filter kept s = s.
Proof.
  induction s as [|a s IH]; cbn [str_filter str_forall]; [auto|].
  intros H. apply andb_true_iff in H as [Ha Hs]. rewrite (IH Hs).
  pose proof (clean_char_facts a) as F. rewrite Ha in F. cbn [implb] in F.
  apply andb_true_iff in F as [F _]. apply andb_true_iff in F as [F _].
  rewrite F. reflexivity.
Qed.

Lemma collapse_clean s : forall b,
  str_forall clean_char s = true -> single_spaced s = true ->
  (b = true -> match s with String a _ => Ascii.eqb a " " = false | _ => True end) ->
  collapse b s = s.
Proof.
  induction s as [|a s IH]; intros b; cbn [collapse str_forall single_spaced];
    [auto|].
  intros H Hss Hb. apply andb_true_iff in H as [Ha Hs].
  apply andb_true_iff in Hss as [Hfirst Hss].
  pose proof (clean_char_facts a) as F. rewrite Ha in F. cbn [implb] in F.
  apply andb_true_iff in F as [_ F].
  destruct (is_space a) eqn:Ea.
  - cbn [implb] in F. destruct b; [rewrite (Hb eq_refl) in F; discriminate|].
    apply Ascii.eqb_eq in F. subst a. f_equal. apply IH; [exact Hs | exact Hss|].
    intros _. destruct s as [|c s]; [exact I|].
    rewrite Ascii.eqb_refl in Hfirst. cbn [andb negb] in Hfirst.
    apply negb_true_iff. exact Hfirst.
  - f_equal. apply IH; [exact Hs | exact Hss | discriminate].
Qed.

(** X4. Normalising a command never fails and never lengthens it, and
    (on ASCII text) the result is made of lower-case letters, digits,
    the underscore, blanks and the punctuation [@ . : , -] only: upper
    case, tabs and line breaks, and all other punctuation are gone.  It
    is the command lower-cased, stripped, with each run of white space
    collapsed into one blank and the other characters filtered out, in
    that order. *)
Theorem preprocess_normalises (command : string) :
  exists cleaned,
    _preprocess_command command = Ok cleaned /\
    cleaned = str_filter kept (collapse false (str_strip (str_lower command))) /\
    str_forall clean_char cleaned = true /\
    len cleaned <= len command.
Proof.
  eexists. split; [apply preprocess_eq|]. split; [reflexivity|]. split.
  - eapply str_forall_impl;
      [|apply str_forall_filter, str_forall_collapse;
        apply str_forall_rstrip, str_forall_lstrip, str_lower_not_upper].
    intros a H. cbv beta in H.
    pose proof (kept_lower_clean a) as F.
    destruct (kept a); [|discriminate].
    destruct (Ascii.eqb a " ") eqn:E.
    + apply Ascii.eqb_eq in E. subst a. reflexivity.
    + cbn [orb andb] in H. rewrite orb_false_r in *.
      cbn [andb] in F. rewrite H in F. exact F.
  - etransitivity; [apply len_str_filter|].
    etransitivity; [apply len_collapse|]. unfold str_strip.
    etransitivity; [apply len_rstrip|].
    etransitivity; [apply len_lstrip|]. rewrite len_str_lower. lia.
Qed.

(** X5. A command that is already in normal form (only lower-case
    letters, digits, underscores, single blanks and [@ . : , -], with no
    blank at either end) is returned unchanged. *)
Theorem preprocess_fixes_normalised (command : string)
  (Hnorm : normalised command) :
  _preprocess_command command = Ok command.
Proof.
  destruct Hnorm as (Hclean & Hss & Hstrip).
  rewrite preprocess_eq. f_equal.
  rewrite (str_lower_clean _ Hclean), Hstrip.
  rewrite (collapse_clean _ false Hclean Hss) by discriminate.
  apply str_filter_clean, Hclean.
Qed.

Lemma preprocess_fixes_normalised_witness :
  normalised "book appointment for bob at 3 pm" /\
  _preprocess_command "book appointment for bob at 3 pm" =
    Ok "book appointment for bob at 3 pm".
Proof.
  assert (H : normalised "book appointment for bob at 3 pm")
    by (repeat split; vm_compute; reflexivity).
  split; [exact H | exact (preprocess_fixes_normalised _ H)].
Defined.

(** ** The calls the handlers make *)

Lemma frame_trace {store : Type} (w w1 : world store) :
  frame w w1 -> trace w w1 [].
Proof.
  intros (H1 & H2 & H3 & H4). unfold trace. rewrite app_nil_r. auto.
Qed.

Ltac no_call H :=
  exists []; split; [apply frame_trace; exact H | split; [cbn; lia | reflexivity]].

Lemma clock_only_at_most_one {store A : Type} allowed (c : M store A) :
  clock_only c -> at_most_one allowed c.
Proof. intros Hc w. specialize (Hc w). no_call Hc. Qed.

Lemma at_most_one_invoke {store A : Type} allowed (c : db_call)
  (op : store -> result A * store) :
  allowed c = true -> at_most_one allowed (invoke c op).
Proof.
  intros Hc w. exists [c]. unfold invoke. destruct (op (db w)) as [r s].
  cbn [snd forallb length]. rewrite Hc.
  split; [|split; [lia | reflexivity]].
  unfold trace. cbn [calls wall_clock clock_reads db].
  repeat split; [lia | discriminate].
Qed.

Lemma trace_frame_l {store : Type} (w w1 w2 : world store) cs :
  frame w w1 -> trace w1 w2 cs -> trace w w2 cs.
Proof.
  unfold frame, trace. intros (A1 & B1 & C1 & D1) (A2 & B2 & C2 & D2).
  repeat split; try congruence; try lia. intros E. rewrite (D2 E). exact B1.
Qed.

Lemma trace_frame_r {store : Type} (w w1 w2 : world store) cs :
  trace w w1 cs -> frame w1 w2 -> trace w w2 cs.
Proof.
  unfold frame, trace. intros (A1 & B1 & C1 & D1) (A2 & B2 & C2 & D2).
  repeat split; try congruence; try lia. intros E. rewrite B2. exact (D1 E).
Qed.

Lemma at_most_one_bind_l {store A B : Type} allowed (c : M store A)
  (k : A -> M store B) :
  clock_only c -> (forall a, at_most_one allowed (k a)) ->
  at_most_one allowed (c ≫= k).
Proof.
  intros Hc Hk w. msimpl. specialize (Hc w).
  destruct (c w) as [[a|e] w1]; cbn [snd] in *; [|no_call Hc].
  destruct (Hk a w1) as (cs & Ht & Hl & Ha). exists cs.
  split; [eapply trace_frame_l; eauto | auto].
Qed.

Lemma at_most_one_bind_r {store A B : Type} allowed (c : M store A)
  (k : A -> M store B) :
  at_most_one allowed c -> (forall a, clock_only (k a)) ->
  at_most_one allowed (c ≫= k).
Proof.
  intros Hc Hk w. msimpl. destruct (Hc w) as (cs & Ht & Hl & Ha).
  destruct (c w) as [[a|e] w1]; cbn [snd] in *; [|eauto].
  exists cs. split; [eapply trace_frame_r; [exact Ht | apply Hk] | auto].
Qed.

Lemma at_most_one_try {store A : Type} allowed (body : M store A)
  (handler : exn -> M store A) :
  at_most_one allowed body -> (forall e, clock_only (handler e)) ->
  at_most_one allowed (try_except body handler).
Proof.
  intros Hb Hh w. unfold try_except. destruct (Hb w) as (cs & Ht & Hl & Ha).
  destruct (body w) as [[a|e] w1]; cbn [snd] in *; [eauto|].
  exists cs. split; [eapply trace_frame_r; [exact Ht | apply Hh] | auto].
Qed.

Lemma select_upcoming_clock_only {store : Type} (l : list appointment) :
  clock_only (@select_upcoming store l).
Proof.
  induction l as [|apt l IH]; cbn [select_upcoming]; [auto with clock|].
  apply clock_only_bind; [auto with clock|]. intros t.
  apply clock_only_bind; [auto with clock|]. intros now.
  apply clock_only_bind; [auto with clock|]. intros keep.
  apply clock_only_bind; [exact IH|]. intros upcoming. auto with clock.
Qed.

(** Each handler makes at most one call, the one of its intent. *)
Lemma process_intent_calls {store : Type} {db_manager : DbManager store}
  (date_parser_parse : string -> datetime -> result (Z * Z))
  (intent : string) (ents : entities) (command : string) :
  at_most_one (call_of_intent intent)
              (_process_intent date_parser_parse intent ents command).
Proof.
  unfold _process_intent.
  destruct (String.eqb intent "book_appointment") eqn:E1.
  { unfold _handle_book_appointment.
    apply at_most_one_try; [|auto with clock].
    apply at_most_one_bind_l; [auto with clock|]. intros name.
    destruct (negb (truthy name));
      [apply clock_only_at_most_one; auto with clock|].
    apply at_most_one_bind_l; [apply parse_time_clock_only|]. intros t.
    apply at_most_one_bind_r; [|auto with clock].
    apply at_most_one_invoke. exact E1. }
  destruct (String.eqb intent "query_patient") eqn:E2.
  { unfold _handle_query_patient.
    apply at_most_one_try; [|auto with clock].
    apply at_most_one_bind_l; [auto with clock|]. intros name.
    destruct (negb (truthy name));
      [apply clock_only_at_most_one; auto with clock|].
    apply at_most_one_bind_l; [auto with clock|]. intros now.
    apply at_most_one_bind_r; [|intros [msg|p vs up]; auto with clock].
    apply at_most_one_invoke. exact E2. }
  destruct (String.eqb intent "view_appointments") eqn:E3.
  { unfold _handle_view_appointments.
    apply at_most_one_try; [|auto with clock].
    apply at_most_one_bind_r; [apply at_most_one_invoke; exact E3|].
    intros [|apt l]; [auto with clock|].
    apply clock_only_bind; [apply select_upcoming_clock_only|]. intros up.
    apply clock_only_bind; auto with clock. }
  destruct (String.eqb intent "view_patients") eqn:E4.
  { unfold _handle_view_patients.
    apply at_most_one_try; [|auto with clock].
    apply at_most_one_bind_r; [apply at_most_one_invoke; exact E4|].
    intros [|p l]; [auto with clock|].
    apply clock_only_bind; auto with clock. }
  destruct (String.eqb intent "greeting");
    [apply clock_only_at_most_one; auto with clock|].
  destruct (String.eqb intent "help"); apply clock_only_at_most_one;
    auto with clock.
Qed.

(** X6. What [interpret] does to the database manager, whatever the
    manager and the command: first at most one call of a handler, and
    only the call that belongs to the intent the classifier chose for
    the normalised command ([create_appointment] for [book_appointment],
    [get_patient_info] for [query_patient], [get_appointments] for
    [view_appointments], [get_all_patients] for [view_patients], none
    for the other intents); then exactly one [log_voice_interaction],
    with the transcript as it was given, that intent and its
    confidence.  In particular no appointment is created for a command
    that is not classified as a booking. *)
Theorem interpret_store_discipline
  {store : Type} {db_manager : DbManager store}
  (date_parser_parse : string -> datetime -> result (Z * Z))
  (command : string) (w : world store) :
  exists cleaned intent ents conf resp o w' cs,
    _preprocess_command command = Ok cleaned /\
    _extract_intent_and_entities cleaned = Ok (intent, ents, conf) /\
    interpret date_parser_parse command w = (Ok o, w') /\
    calls w' = calls w ++ cs ++ [LogVoiceInteraction command intent resp conf] /\
    length cs <= 1 /\ forallb (call_of_intent intent) cs = true.
Proof.
  destruct (preprocess_total command) as (cleaned & Hp).
  destruct (classification_total_aux cleaned) as (intent & ents & conf & Hc).
  destruct (process_intent_returns date_parser_parse intent ents cleaned w)
    as (r & w1 & Hr).
  destruct (process_intent_calls date_parser_parse intent ents cleaned w)
    as (cs & (Hcalls & _) & Hlen & Hall).
  rewrite Hr in Hcalls. cbn [snd] in Hcalls.
  assert (Hi : exists o s,
    interpret date_parser_parse command w =
      (Ok o, World (wall_clock w1) (clock_reads w1) s
               (calls w1 ++ [LogVoiceInteraction command intent (response r) conf]))).
  { unfold interpret, interpret_body. msimpl. rewrite Hp, Hc. msimpl.
    rewrite Hr.
    destruct (log_voice_interaction command intent (response r) conf (db w1))
      as [[u|e] s]; eauto. }
  destruct Hi as (o & s & Hi).
  exists cleaned, intent, ents, conf, (response r), o.
  eexists _, cs. split; [exact Hp|]. split; [exact Hc|]. split; [exact Hi|].
  cbn [calls]. rewrite Hcalls, <- app_assoc. auto.
Qed.

(** ** The SQLite store *)

#[export] Instance by_name_trans : Transitive by_name.
Proof. intros a b c. unfold by_name. apply transitivity. Qed.

#[export] Instance by_name_total : Total by_name.
Proof. intros a b. unfold by_name. apply (total String.le). Qed.

#[export] Instance by_date_desc_trans : Transitive by_date_desc.
Proof. intros a b c. unfold by_date_desc. intros H1 H2. exact (transitivity H2 H1). Qed.

#[export] Instance by_date_desc_total : Total by_date_desc.
Proof. intros a b. unfold by_date_desc. apply (total String.le). Qed.

Lemma StronglySorted_take {A : Type} (R : relation A) n l :
  StronglySorted R l -> StronglySorted R (take n l).
Proof.
  intros H. revert n. induction H as [|a l Hl IH Ha]; intros [|n]; cbn [take];
    try constructor; auto.
  apply Forall_take. exact Ha.
Qed.

Lemma find_fresh_row (id : Z) (row : appointment) l l' :
  l' ≡ₚ row :: l -> apt_id row = id ->
  Forall (fun a => (apt_id a < id)%Z) l ->
  by_id id l' = Some row.
Proof.
  intros Hperm Hid Hold. unfold by_id.
  assert (Hin : In row l') by (apply list_elem_of_In; rewrite Hperm; left).
  assert (Hall : forall a, In a l' -> (apt_id a =? id)%Z = true -> a = row).
  { intros a Ha Heq. apply list_elem_of_In in Ha. rewrite Hperm in Ha.
    apply elem_of_cons in Ha as [-> | Ha]; [reflexivity|].
    rewrite List.Forall_forall in Hold. apply list_elem_of_In in Ha.
    specialize (Hold _ Ha). apply Z.eqb_eq in Heq. lia. }
  clear Hperm. induction l' as [|a l' IH]; [destruct Hin|].
  cbn [List.find]. destruct (apt_id a =? id)%Z eqn:E.
  - f_equal. apply Hall; [left; reflexivity | exact E].
  - apply IH.
    + destruct Hin as [-> | Hin]; [|exact Hin].
      rewrite Hid, Z.eqb_refl in E. discriminate.
    + intros b Hb. apply Hall. right. exact Hb.
Qed.

Lemma StronglySorted_app_le {A : Type} (R : relation A) l1 l2 :
  StronglySorted R (l1 ++ l2) -> forall x y, In x l1 -> In y l2 -> R x y.
Proof.
  induction l1 as [|a l1 IH]; intros H x y Hx Hy; [destruct Hx|].
  cbn [app] in H. inversion H as [|? ? Hs Ha]; subst.
  destruct Hx as [<- | Hx]; [|eauto].
  rewrite List.Forall_forall in Ha. apply Ha, in_or_app. right. exact Hy.
Qed.

(** The first [n] rows of a sorted list come before every row left out. *)
Lemma take_sorted_first {A : Type} (R : relation A) n l :
  StronglySorted R l ->
  forall x, In x l -> In x (take n l) \/
                      (length (take n l) = n /\ Forall (fun r => R r x) (take n l)).
Proof.
  intros Hs x Hx. rewrite <- (take_drop n l) in Hx, Hs.
  apply in_app_or in Hx as [Hx | Hx]; [left; exact Hx | right].
  split.
  - rewrite length_take. apply Nat.min_l.
    destruct (Nat.le_gt_cases n (length l)) as [|Hlt]; [assumption|].
    rewrite drop_ge in Hx by lia. destruct Hx.
  - apply List.Forall_forall. intros r Hr.
    exact (StronglySorted_app_le R _ _ Hs r x Hr Hx).
Qed.

(** X7. Creating an appointment in a reachable database and listing the
    appointments: the identifier returned is the one after the last
    handed out, the listing is the old rows together with the new one,
    in ascending order of [appointment_time], and the row found in the
    listing under the returned identifier is the one created, with the
    patient, the doctor and the notes as given, the time as [sqlite3]
    stores it and the status ["scheduled"].  The identifiers stay
    distinct. *)
Theorem created_appointment_is_listed
  (s : sqlite_db) (patient_name doctor_name notes : string) (t : datetime)
  (Hconn : connectable s = true) (Hids : ids_fresh s) :
  let appointment_id := (appointment_seq s + 1)%Z in
  let row := Appointment appointment_id patient_name doctor_name
               (adapt_datetime t) (PyStr notes) "scheduled" in
  exists s' l,
    sqlite_create_appointment patient_name (PyStr doctor_name) t notes s =
      (Ok appointment_id, s') /\
    sqlite_get_appointments s' = (Ok l, s') /\
    l ≡ₚ row :: appointments s /\
    StronglySorted by_time l /\
    by_id appointment_id l = Some row /\
    ids_fresh s'.
Proof.
  intros appointment_id row. destruct Hids as [Hnd Hle].
  unfold sqlite_create_appointment, sqlite_get_appointments. rewrite Hconn.
  cbn [negb connectable appointments]. fold appointment_id. fold row.
  eexists _, _. split; [reflexivity|]. split; [reflexivity|].
  assert (Hperm : order_by by_time (appointments s ++ [row])
                  ≡ₚ row :: appointments s).
  { rewrite order_by_Permutation. rewrite Permutation_app_comm. reflexivity. }
  assert (Hold : Forall (fun a => (apt_id a < appointment_id)%Z) (appointments s)).
  { eapply List.Forall_impl; [|exact Hle]. cbv beta. unfold appointment_id.
    intros a Ha. lia. }
  split; [exact Hperm|].
  split; [apply StronglySorted_order_by; apply _|].
  split; [apply (find_fresh_row _ _ _ _ Hperm eq_refl Hold)|].
  unfold ids_fresh. cbn [appointments appointment_seq].
  rewrite map_app. cbn [map apt_id]. split.
  - apply NoDup_app. split; [exact Hnd|]. split; [|apply NoDup_singleton].
    intros x Hx Hx'. apply list_elem_of_singleton in Hx'. subst x.
    apply list_elem_of_In, in_map_iff in Hx as (a & Ha & Hin).
    rewrite List.Forall_forall in Hold. specialize (Hold _ Hin). cbv beta in Hold.
    unfold row in Ha. cbn [apt_id] in Ha. lia.
  - apply Forall_app. split.
    + eapply List.Forall_impl; [|exact Hold]. intros a Ha. cbn [appointment_seq] in *.
      cbv beta in *. lia.
    + constructor; [unfold row; cbn [apt_id appointment_seq]; lia | constructor].
Qed.

Lemma created_appointment_is_listed_witness :
  connectable clinic_db = true /\ ids_fresh clinic_db /\
  exists s' l,
    sqlite_create_appointment "Bob" (PyStr "Dr. Smith") ten_oclock "by phone"
      clinic_db = (Ok 4%Z, s') /\
    sqlite_get_appointments s' = (Ok l, s') /\
    by_id 4 l = Some (Appointment 4 "Bob" "Dr. Smith" "2024-01-01 10:00:00"
                                  (PyStr "by phone") "scheduled").
Proof.
  assert (Hconn : connectable clinic_db = true) by reflexivity.
  assert (Hids : ids_fresh clinic_db).
  { split.
    - cbn. apply NoDup_cons. split; [|apply NoDup_singleton].
      intros H. apply list_elem_of_singleton in H. discriminate.
    - repeat constructor; cbn; lia. }
  split; [exact Hconn|]. split; [exact Hids|].
  destruct (created_appointment_is_listed clinic_db "Bob" "Dr. Smith" "by phone"
              ten_oclock Hconn Hids) as (s' & l & H1 & H2 & _ & _ & H3 & _).
  exists s', l. auto.
Defined.

(** X8. [get_patient_info] on a reachable database never raises and
    leaves the database as it is.  When no patient's name matches it
    answers with the error ["Patient <name> not found"]; otherwise with
    the first matching patient, with her matching visits, latest first,
    five at most and none of those left out more recent than one that
    is kept, and with all her matching appointments whose stored time
    is after the current time, in ascending order of time. *)
Theorem patient_info_contract
  (s : sqlite_db) (patient_name : string) (now : datetime)
  (Hconn : connectable s = true) :
  exists info,
    sqlite_get_patient_info patient_name now s = (Ok info, s) /\
    match info with
    | PatientError msg =>
        matching_patients patient_name s = [] /\
        msg = ("Patient " ++ patient_name ++ " not found")%string
    | PatientFound p recent_visits upcoming =>
        head (matching_patients patient_name s) = Some p /\
        length recent_visits <= 5 /\
        StronglySorted by_date_desc recent_visits /\
        (forall v, In v recent_visits -> In v (matching_visits patient_name s)) /\
        (forall v, In v (matching_visits patient_name s) ->
                   In v recent_visits \/
                   (length recent_visits = 5 /\
                    Forall (fun r => by_date_desc r v) recent_visits)) /\
        upcoming ≡ₚ matching_upcoming patient_name now s /\
        StronglySorted by_time upcoming
    end.
Proof.
  unfold sqlite_get_patient_info. rewrite Hconn. cbn [negb].
  fold (matching_patients patient_name s).
  fold (matching_visits patient_name s).
  fold (matching_upcoming patient_name now s).
  destruct (matching_patients patient_name s) as [|p ps] eqn:E.
  { eexists. split; [reflexivity|]. split; reflexivity. }
  eexists. split; [reflexivity|].
  set (sorted := order_by by_date_desc (matching_visits patient_name s)).
  assert (Hs : StronglySorted by_date_desc sorted)
    by (apply StronglySorted_order_by; apply _).
  assert (Hp : forall v, In v sorted <-> In v (matching_visits patient_name s)).
  { intros v. rewrite <- !list_elem_of_In. unfold sorted.
    rewrite order_by_Permutation. reflexivity. }
  split; [reflexivity|].
  split; [rewrite length_take; lia|].
  split; [apply StronglySorted_take; exact Hs|].
  split.
  { intros v Hv. apply Hp. rewrite <- (take_drop 5 sorted).
    apply in_or_app. left. exact Hv. }
  split.
  { intros v Hv. apply Hp in Hv. apply take_sorted_first; assumption. }
  split; [apply order_by_Permutation|].
  apply StronglySorted_order_by; apply _.
Qed.

Lemma patient_info_contract_witness :
  connectable clinic_db = true /\
  sqlite_get_patient_info "zara" ten_oclock clinic_db =
    (Ok (PatientFound zara [visit_in_june; visit_in_march] [at_eleven]), clinic_db).
Proof.
  assert (Hconn : connectable clinic_db = true) by reflexivity.
  split; [exact Hconn|].
  destruct (patient_info_contract clinic_db "zara" ten_oclock Hconn)
    as (info & Hinfo & _).
  rewrite Hinfo. vm_compute in Hinfo. injection Hinfo as <-. reflexivity.
Defined.

(** Seven visits on two days: the five that are kept are the latest,
    those of one and the same day in the order in which they were
    recorded. *)
Example same_day_visits_keep_their_order :
  map vis_id
    (take 5
       (order_by by_date_desc
          (map (fun '(i, d) => Visit i "Zara Ahmed" "Dr. Wilson" d PyNone PyNone PyNone)
               [(1, "2023-03-01 09:00:00"); (2, "2023-06-01 09:00:00");
                (3, "2023-03-01 09:00:00"); (4, "2023-06-01 09:00:00");
                (5, "2023-03-01 09:00:00"); (6, "2023-06-01 09:00:00");
                (7, "2023-03-01 09:00:00")]%Z)))
  = [2; 4; 6; 1; 3]%Z.
Proof. vm_compute. reflexivity. Qed.

(** ** An unreachable database *)

Lemma process_intent_down
  (date_parser_parse : string -> datetime -> result (Z * Z))
  (intent : string) (ents : entities) (command : string) (w : world sqlite_db) :
  connectable (db w) = false ->
  exists r w1,
    _process_intent date_parser_parse intent ents command w = (Ok r, w1) /\
    db w1 = db w /\ data r = DataNone /\ In (response r) (down_replies intent).
Proof.
  intros Hdown. unfold _process_intent, down_replies.
  destruct (String.eqb intent "book_appointment").
  { unfold _handle_book_appointment. msimpl.
    destruct (py_title (ent_get ents "patient_name" "")) as [name|e];
      [|eexists _, _; split; [reflexivity|]; cbn; auto].
    destruct (negb (truthy name));
      [eexists _, _; split; [reflexivity|]; cbn; auto|].
    pose proof (parse_time_clock_only date_parser_parse
                  (ent_get ents "time" "") command w) as Hf.
    destruct (_parse_time date_parser_parse (ent_get ents "time" "") command w)
      as [[t|e] w1]; destruct Hf as (_ & Hdb & _); cbn [snd] in Hdb;
      [|eexists _, _; split; [reflexivity|]; cbn; auto].
    cbn [create_appointment DatabaseManager]. unfold sqlite_create_appointment.
    rewrite Hdb, Hdown. cbn [negb].
    eexists _, _. split; [reflexivity|]. cbn. auto. }
  destruct (String.eqb intent "query_patient").
  { unfold _handle_query_patient. msimpl.
    destruct (py_title (ent_get ents "patient_name" "")) as [name|e];
      [|eexists _, _; split; [reflexivity|]; cbn; auto].
    destruct (negb (truthy name));
      [eexists _, _; split; [reflexivity|]; cbn; auto|].
    unfold datetime_now. cbn [db get_patient_info DatabaseManager].
    unfold sqlite_get_patient_info. rewrite Hdown. cbn [negb].
    eexists _, _. split; [reflexivity|]. cbn. auto. }
  destruct (String.eqb intent "view_appointments").
  { unfold _handle_view_appointments. msimpl.
    cbn [get_appointments DatabaseManager]. unfold sqlite_get_appointments.
    rewrite Hdown. cbn [negb].
    eexists _, _. split; [reflexivity|]. cbn. auto. }
  destruct (String.eqb intent "view_patients").
  { unfold _handle_view_patients. msimpl.
    cbn [get_all_patients DatabaseManager]. unfold sqlite_get_all_patients.
    rewrite Hdown. cbn [negb].
    eexists _, _. split; [reflexivity|]. cbn. auto. }
  destruct (String.eqb intent "greeting");
    [eexists _, _; split; [reflexivity|]; cbn; auto|].
  destruct (String.eqb intent "help");
    eexists _, _; (split; [reflexivity|]); cbn; auto.
Qed.

(** X9. With the SQLite database unreachable, [interpret] still
    answers every command under the intent and the confidence of the
    classifier, never as an ["error"]: the handler's apology (or its
    request for a name) for the four intents that need the database,
    the usual text for the others, in both cases without data.  The
    failure to log the interaction is swallowed, and the database is
    left as it was. *)
Theorem database_down_is_answered
  (date_parser_parse : string -> datetime -> result (Z * Z))
  (command : string) (w : world sqlite_db)
  (Hdown : connectable (db w) = false) :
  exists cleaned intent ents conf resp w',
    _preprocess_command command = Ok cleaned /\
    _extract_intent_and_entities cleaned = Ok (intent, ents, conf) /\
    interpret date_parser_parse command w =
      (Ok (Outcome intent resp DataNone conf), w') /\
    In resp (down_replies intent) /\
    db w' = db w.
Proof.
  destruct (preprocess_total command) as (cleaned & Hp).
  destruct (classification_total_aux cleaned) as (intent & ents & conf & Hc).
  destruct (process_intent_down date_parser_parse intent ents cleaned w Hdown)
    as (r & w1 & Hr & Hdb & Hdata & Hresp).
  exists cleaned, intent, ents, conf, (response r).
  eexists. split; [exact Hp|]. split; [exact Hc|].
  split; [|split; [exact Hresp|]].
  - unfold interpret, interpret_body. msimpl. rewrite Hp, Hc. msimpl.
    rewrite Hr. cbn [log_voice_interaction DatabaseManager].
    unfold sqlite_log_voice_interaction. rewrite Hdb, Hdown. cbn [negb].
    rewrite Hdata. reflexivity.
  - cbn [db]. reflexivity.
Qed.

Lemma database_down_is_answered_witness :
  connectable (db down_world) = false /\
  fst (interpret no_parser "Show appointments" down_world) =
    Ok (Outcome "view_appointments" "Sorry, I couldn't retrieve the appointments."
                DataNone (17 # 17)).
Proof.
  assert (Hdown : connectable (db down_world) = false) by reflexivity.
  split; [exact Hdown|].
  destruct (database_down_is_answered no_parser "Show appointments" down_world
              Hdown) as (cleaned & intent & ents & conf & resp & w' & Hp & Hc & Hi & _).
  rewrite Hi. vm_compute in Hi. injection Hi as <- <- <- _. reflexivity.
Defined.

(** ** Listing the patients *)

Lemma patient_lines_fold : forall (l : list patient) (header : string),
  foldM (add_line patient_line) l header =
  Ok (header ++ join (map patient_text l))%string.
Proof.
  induction l as [|p l IH]; intros header; cbn [foldM map join].
  - now rewrite append_empty.
  - rewrite (add_line_ok patient_line header p (patient_text p) eq_refl). rsimpl.
    rewrite IH, append_assoc. reflexivity.
Qed.

(** X10. With the SQLite database reachable, [view_patients] makes the
    one call [get_all_patients] and answers with all the patients of the
    table in ascending order of name as data, patients of one and the
    same name in the order in which they were registered.  The response
    states how many they are and then lists ten of them at most, the
    first ten in that order, each with the telephone number in brackets
    when there is one; for an empty table it is the fixed sentence. *)
Theorem view_patients_lists_first_ten
  (w : world sqlite_db) (Hdb : connectable (db w) = true) :
  let rows := order_by by_name (patients (db w)) in
  _handle_view_patients w =
    (Ok (Reply
           match rows with
           | [] => "No patients in the database."
           | _ :: _ =>
               ("You have " ++ str_of_N (N.of_nat (length rows))
                ++ " patients registered:" ++ nl
                ++ join (map patient_text (take 10 rows)))%string
           end
           (DataPatients rows)),
     World (wall_clock w) (clock_reads w) (db w) (calls w ++ [GetAllPatients])) /\
  rows ≡ₚ patients (db w) /\
  StronglySorted by_name rows /\
  length (take 10 rows) = Nat.min 10 (length (patients (db w))) /\
  (forall n, List.filter (same_name n) rows =
             List.filter (same_name n) (patients (db w))).
Proof.
  intros rows. split; [|split; [|split; [|split]]].
  - unfold _handle_view_patients. msimpl.
    cbn [get_all_patients DatabaseManager]. unfold sqlite_get_all_patients.
    rewrite Hdb. cbn [negb]. fold rows.
    destruct rows as [|p rows']; [reflexivity|].
    rewrite patient_lines_fold. rewrite !append_assoc. reflexivity.
  - apply order_by_Permutation.
  - apply StronglySorted_order_by; apply _.
  - rewrite length_take. unfold rows. rewrite order_by_Permutation. reflexivity.
  - intros n. unfold rows. apply (order_by_ties by_name (same_name n)).
    intros a b Ha Hb.
    unfold same_name in Ha, Hb. apply String.eqb_eq in Ha, Hb.
    unfold by_name. rewrite Ha, Hb. reflexivity.
Qed.

Lemma view_patients_lists_first_ten_witness :
  connectable (db two_patients_world) = true /\
  fst (_handle_view_patients two_patients_world) =
    Ok (Reply ("You have 2 patients registered:" ++ nl
               ++ "- Omar Khan" ++ nl
               ++ "- Zara Ahmed (555-0104)" ++ nl)%string
              (DataPatients [omar; zara])).
Proof.
  assert (Hdb : connectable (db two_patients_world) = true) by reflexivity.
  split; [exact Hdb|].
  rewrite (proj1 (view_patients_lists_first_ten two_patients_world Hdb)).
  vm_compute. reflexivity.
Defined.

(** Patients of one and the same name are listed in the order in which
    they were registered. *)
Example namesakes_keep_their_order :
  map pat_id
    (order_by by_name
       (map (fun '(i, n) => Patient i n PyNone PyNone PyNone PyNone)
            [(1, "Omar Khan"); (2, "Ali Khan"); (3, "Omar Khan");
             (4, "Ali Khan"); (5, "Omar Khan")]%Z))
  = [2; 4; 1; 3; 5]%Z.
Proof. vm_compute. reflexivity. Qed.

(** ** Looking a patient up by name *)

Lemma sql_like_any q s :
  sql_like (String "%" q) s =
  sql_like q s || match s with
                  | String _ s' => sql_like (String "%" q) s'
                  | EmptyString => false
                  end.
Proof. destruct s; reflexivity. Qed.

Lemma sql_like_char c q s :
  negb (Ascii.eqb c "%" || Ascii.eqb c "_") = true ->
  sql_like (String c q) s =
  match s with
  | String a s' => Ascii.eqb (lower_char a) (lower_char c) && sql_like q s'
  | EmptyString => false
  end.
Proof.
  destruct c as [b0 b1 b2 b3 b4 b5 b6 b7].
  destruct b0, b1, b2, b3, b4, b5, b6, b7; intros H;
    try discriminate H; reflexivity.
Qed.

Lemma sql_like_percent s : sql_like "%" s = true.
Proof.
  induction s as [|a s IH]; [reflexivity|].
  rewrite sql_like_any. rewrite IH. apply orb_true_r.
Qed.

Lemma sql_like_prefix p : forall s,
  no_wildcard p = true -> sql_like (p ++ "%") s = ci_prefix p s.
Proof.
  unfold no_wildcard. induction p as [|c p IH]; intros s H.
  - change ("" ++ "%")%string with "%". rewrite sql_like_percent.
    destruct s; reflexivity.
  - cbn [str_forall] in H. apply andb_true_iff in H as [Hc Hp].
    change (String c p ++ "%")%string with (String c (p ++ "%")).
    rewrite (sql_like_char c _ s Hc).
    destruct s as [|a s]; [reflexivity|]. cbn [ci_prefix]. rewrite (IH s Hp).
    reflexivity.
Qed.

(** X11. The [LIKE '%name%'] test of the patient queries is a search
    for [name] as a substring that ignores the case of ASCII letters,
    whenever [name] has no [%] and no [_] in it: ["zara"] finds
    ["Zara Ahmed"].  (The names the classifier extracts are letters and
    white space only, so they have none, and the empty name is found in
    every row.) *)
Theorem patient_lookup_is_substring_search (patient_name s : string)
  (Hplain : no_wildcard patient_name = true) :
  name_like patient_name s = ci_contains patient_name s.
Proof.
  unfold name_like.
  change ("%" ++ patient_name ++ "%")%string
    with (String "%" (patient_name ++ "%")).
  induction s as [|a s IH]; rewrite sql_like_any, (sql_like_prefix _ _ Hplain);
    cbn [ci_contains]; [reflexivity|].
  rewrite IH. reflexivity.
Qed.

Lemma patient_lookup_is_substring_search_witness :
  no_wildcard "zara" = true /\
  name_like "zara" "Zara Ahmed" = ci_contains "zara" "Zara Ahmed" /\
  ci_contains "zara" "Zara Ahmed" = true.
Proof.
  assert (H : no_wildcard "zara" = true) by reflexivity.
  split; [exact H|].
  split; [exact (patient_lookup_is_substring_search "zara" "Zara Ahmed" H)|].
  reflexivity.
Defined.

Lemma lower_char_facts a :
  Ascii.eqb (lower_char (lower_char a)) (lower_char a)
  && Ascii.eqb (lower_char (upper_char a)) (lower_char a)
  && Bool.eqb (Ascii.eqb (lower_char a) "%") (Ascii.eqb a "%")
  && Bool.eqb (Ascii.eqb (lower_char a) "_") (Ascii.eqb a "_") = true.
Proof. revert a. apply ascii_forall. vm_compute. reflexivity. Qed.

Lemma lower_char_idem a : lower_char (lower_char a) = lower_char a.
Proof.
  pose proof (lower_char_facts a) as H. repeat (apply andb_true_iff in H as [H _]).
  apply Ascii.eqb_eq. exact H.
Qed.






(** ** Timestamps in the store *)

Lemma digit_val_digit_char (d : N) :
  (d < 10)%N -> digit_val (digit_char d) = Some (Z.of_N d) /\
                is_digit (digit_char d) = true.
Proof.
  intros H.
  assert (Hall : forallb (fun k => match digit_val (digit_char (N.of_nat k)) with
                                   | Some v => (v =? Z.of_nat k)%Z
                                   | None => false
                                   end && is_digit (digit_char (N.of_nat k)))
                         (seq 0 10) = true) by (vm_compute; reflexivity).
  rewrite forallb_forall in Hall.
  specialize (Hall (N.to_nat d)). rewrite N2Nat.id in Hall.
  assert (Hin : In (N.to_nat d) (seq 0 10)) by (apply in_seq; lia).
  apply Hall in Hin. apply andb_true_iff in Hin as [Hv Hd].
  split; [|exact Hd].
  destruct (digit_val (digit_char d)) as [v|]; [|discriminate].
  apply Z.eqb_eq in Hv. f_equal. lia.
Qed.

Lemma read_digits_split k : forall j s acc,
  read_digits (k + j) s acc =
  match read_digits k s acc with
  | Some (v, r) => read_digits j r v
  | None => None
  end.
Proof.
  induction k as [|k IH]; intros j s acc; [reflexivity|].
  cbn [Nat.add read_digits]. destruct s as [|a s]; [reflexivity|].
  destruct (digit_val a) as [d|]; [|reflexivity]. cbn. apply IH.
Qed.

Lemma str_forall_app f s t :
  str_forall f (s ++ t) = str_forall f s && str_forall f t.
Proof.
  induction s as [|a s IH]; [reflexivity|].
  change (String a s ++ t)%string with (String a (s ++ t)). cbn [str_forall].
  rewrite IH. apply andb_assoc.
Qed.

Lemma len_app s t : len (s ++ t) = len s + len t.
Proof.
  unfold len. induction s as [|a s IH]; [reflexivity|].
  change (String a s ++ t)%string with (String a (s ++ t)).
  cbn [String.length]. rewrite IH. reflexivity.
Qed.

(** The digits [dec_digits] puts before [acc] read back as [n]. *)
Lemma dec_digits_spec : forall fuel n acc,
  (n < 2 ^ N.of_nat (S fuel))%N ->
  exists ds,
    dec_digits (S fuel) n acc = (ds ++ acc)%string /\
    str_forall is_digit ds = true /\
    (forall rest, read_digits (len ds) (ds ++ rest) 0 = Some (Z.of_N n, rest)) /\
    (forall w, (n < 10 ^ N.of_nat (S w))%N -> len ds <= S w).
Proof.
  assert (Hsmall : forall n acc, (n < 10)%N ->
    exists ds,
      String (digit_char (n mod 10)) acc = (ds ++ acc)%string /\
      str_forall is_digit ds = true /\
      (forall rest, read_digits (len ds) (ds ++ rest) 0 = Some (Z.of_N n, rest)) /\
      (forall w, (n < 10 ^ N.of_nat (S w))%N -> len ds <= S w)).
  { intros n acc Hlt. exists (String (digit_char n) "").
    destruct (digit_val_digit_char n Hlt) as [Hv Hd].
    replace (n mod 10)%N with n by (symmetry; apply N.mod_small; exact Hlt).
    split; [reflexivity|]. split; [cbn [str_forall]; rewrite Hd; reflexivity|].
    split.
    + intros rest. change (String (digit_char n) "" ++ rest)%string
        with (String (digit_char n) rest).
      cbn [len String.length read_digits]. rewrite Hv. cbn. reflexivity.
    + intros w Hw. cbn [len String.length]. lia. }
  induction fuel as [|fuel IH]; intros n acc Hn.
  { cbn [dec_digits]. destruct (N.ltb_spec n 10) as [Hlt | Hge]; [auto|].
    exfalso. change (N.of_nat 1) with 1%N in Hn. cbn in Hn. lia. }
  change (dec_digits (S (S fuel)) n acc)
    with (let acc' := String (digit_char (n mod 10)) acc in
          if (n <? 10)%N then acc' else dec_digits (S fuel) (n / 10) acc').
  cbv zeta. destruct (N.ltb_spec n 10) as [Hlt | Hge]; [auto|].
  assert (Hdiv : (n / 10 < 2 ^ N.of_nat (S fuel))%N).
  { apply N.Div0.div_lt_upper_bound.
    rewrite (Nat2N.inj_succ (S fuel)), N.pow_succ_r' in Hn. lia. }
  assert (Hmod : (n mod 10 < 10)%N) by (apply N.mod_lt; lia).
  destruct (digit_val_digit_char _ Hmod) as [Hv Hd].
  destruct (IH (n / 10)%N (String (digit_char (n mod 10)) acc) Hdiv)
    as (ds & Heq & Hdig & Hread & Hlen).
  exists (ds ++ String (digit_char (n mod 10)) "")%string.
  split; [rewrite Heq, append_assoc; reflexivity|].
  split; [rewrite str_forall_app, Hdig; cbn [str_forall]; rewrite Hd; reflexivity|].
  split.
  + intros rest. rewrite len_app, append_assoc, read_digits_split, Hread.
    change (String (digit_char (n mod 10)) "" ++ rest)%string
      with (String (digit_char (n mod 10)) rest).
    cbn [len String.length read_digits]. rewrite Hv.
    cbn [mbind option_bind mret option_ret]. f_equal. f_equal.
    pose proof (N.div_mod n 10). lia.
  + intros w Hw. rewrite len_app. cbn [len String.length].
    destruct w as [|w].
    { change (N.of_nat 1) with 1%N in Hw. cbn in Hw. lia. }
    assert (len ds <= S w); [|unfold len in *; lia].
    apply Hlen. apply N.Div0.div_lt_upper_bound.
    rewrite (Nat2N.inj_succ (S w)), N.pow_succ_r' in Hw. lia.
Qed.

Lemma read_zeros j : forall k s,
  read_digits (j + k) (zeros j ++ s) 0 = read_digits k s 0.
Proof.
  induction j as [|j IH]; intros k s; [reflexivity|].
  cbn [zeros Nat.add]. change (String "0" (zeros j) ++ s)%string
    with (String "0" (zeros j ++ s)).
  cbn [read_digits]. change (digit_val "0") with (Some 0%Z).
  cbn [mbind option_bind]. apply IH.
Qed.

Lemma str_forall_zeros j : str_forall is_digit (zeros j) = true.
Proof. induction j as [|j IH]; [reflexivity|]. cbn [zeros str_forall]. exact IH. Qed.

Lemma len_zeros j : len (zeros j) = j.
Proof.
  unfold len. induction j as [|j IH]; [reflexivity|].
  cbn [zeros String.length]. rewrite IH. reflexivity.
Qed.

(** A number below [10^w] padded to [w] digits is [w] digits that
    read back as the number. *)
Lemma pad_spec (w : nat) (n : N) :
  (n < 10 ^ N.of_nat (S w))%N ->
  len (pad (S w) n) = S w /\
  str_forall is_digit (pad (S w) n) = true /\
  forall rest, read_digits (S w) (pad (S w) n ++ rest) 0 = Some (Z.of_N n, rest).
Proof.
  intros Hn. unfold pad, str_of_N.
  assert (Hfuel : (n < 2 ^ N.of_nat (S (N.to_nat (N.log2 n))))%N).
  { rewrite Nat2N.inj_succ, N2Nat.id. destruct n as [|p]; [reflexivity|].
    apply N.log2_spec. lia. }
  destruct (dec_digits_spec _ n "" Hfuel) as (ds & Heq & Hdig & Hread & Hlen).
  rewrite Heq, append_empty. specialize (Hlen w Hn).
  split; [rewrite len_app, len_zeros; lia|].
  split; [rewrite str_forall_app, str_forall_zeros, Hdig; reflexivity|].
  intros rest.
  replace (S w) with ((S w - len ds) + len ds) at 1 by lia.
  rewrite append_assoc, read_zeros. apply Hread.
Qed.

Lemma Zpad_spec (w : nat) (z : Z) :
  (0 <= z < 10 ^ Z.of_nat (S w))%Z ->
  len (Zpad (S w) z) = S w /\
  str_forall is_digit (Zpad (S w) z) = true /\
  forall rest, read_digits (S w) (Zpad (S w) z ++ rest) 0 = Some (z, rest).
Proof.
  intros Hz. unfold Zpad.
  assert (Hn : (Z.to_N z < 10 ^ N.of_nat (S w))%N).
  { apply N2Z.inj_lt. rewrite N2Z.inj_pow, Z2N.id by lia.
    rewrite nat_N_Z. change (Z.of_N 10) with 10%Z. lia. }
  destruct (pad_spec w (Z.to_N z) Hn) as (H1 & H2 & H3).
  split; [exact H1|]. split; [exact H2|].
  intros rest. rewrite H3, Z2N.id by lia. reflexivity.
Qed.

Lemma expect_same a s : expect a (String a s) = Some s.
Proof. cbn [expect]. rewrite Ascii.eqb_refl. reflexivity. Qed.

Lemma split_at_none a s :
  str_forall (fun b => negb (Ascii.eqb a b)) s = true -> split_at a s = None.
Proof.
  induction s as [|b s IH]; cbn [str_forall split_at]; [reflexivity|].
  intros H. apply andb_true_iff in H as [Hb Hs].
  apply negb_true_iff in Hb. rewrite Hb, (IH Hs). reflexivity.
Qed.

Lemma replace_char_none a new s :
  str_forall (fun b => negb (Ascii.eqb b a)) s = true -> replace_char a new s = s.
Proof.
  induction s as [|b s IH]; cbn [str_forall replace_char]; [reflexivity|].
  intros H. apply andb_true_iff in H as [Hb Hs].
  apply negb_true_iff in Hb. rewrite Hb, (IH Hs). reflexivity.
Qed.

Lemma digit_time_char s : str_forall is_digit s = true -> str_forall time_char s = true.
Proof.
  apply str_forall_impl. intros a Ha. unfold time_char. rewrite Ha. reflexivity.
Qed.

Lemma hms_str_eq h mi s us :
  hms_str h mi s us =
  (Zpad 2 h ++ String ":" (Zpad 2 mi ++ String ":" (Zpad 2 s ++ fraction_str us)))%string.
Proof. reflexivity. Qed.

Section TimeOfDay.
Variables h mi s us : Z.
Hypothesis Hh : (0 <= h < 24)%Z.
Hypothesis Hmi : (0 <= mi < 60)%Z.
Hypothesis Hs : (0 <= s < 60)%Z.
Hypothesis Hus : (0 <= us < 1000000)%Z.

Lemma fraction_str_chars : str_forall time_char (fraction_str us) = true.
Proof.
  unfold fraction_str. destruct (us =? 0)%Z; [reflexivity|].
  change ("." ++ Zpad 6 us)%string with (String "." (Zpad 6 us)).
  cbn [str_forall]. apply digit_time_char.
  apply (Zpad_spec 5 us). change (10 ^ Z.of_nat 6)%Z with 1000000%Z. lia.
Qed.

Lemma hms_str_chars : str_forall time_char (hms_str h mi s us) = true.
Proof.
  rewrite hms_str_eq.
  assert (H2 : forall z, (0 <= z < 60)%Z -> str_forall time_char (Zpad 2 z) = true).
  { intros z Hz. apply digit_time_char. apply (Zpad_spec 1 z).
    change (10 ^ Z.of_nat 2)%Z with 100%Z. lia. }
  rewrite str_forall_app. cbn [str_forall]. rewrite str_forall_app.
  cbn [str_forall]. rewrite str_forall_app.
  rewrite !H2 by lia. rewrite fraction_str_chars. reflexivity.
Qed.

Lemma parse_fraction_str :
  match fraction_str us with
  | EmptyString => Some (h, mi, s, 0%Z)
  | String _ _ =>
      rest ← expect "." (fraction_str us); f ← parse_fraction rest;
      Some (h, mi, s, f)
  end = Some (h, mi, s, us).
Proof.
  unfold fraction_str. destruct (Z.eqb_spec us 0) as [-> | Hne]; [reflexivity|].
  change ("." ++ Zpad 6 us)%string with (String "." (Zpad 6 us)).
  cbv beta iota. rewrite expect_same. cbn [mbind option_bind].
  assert (H6 : (0 <= us < 10 ^ Z.of_nat 6)%Z)
    by (change (10 ^ Z.of_nat 6)%Z with 1000000%Z; lia).
  destruct (Zpad_spec 5 us H6) as (Hlen & _ & Hread).
  unfold parse_fraction. rewrite Hlen. cbn [Nat.eqb].
  rewrite <- (append_empty (Zpad 6 us)) at 1. rewrite Hread. reflexivity.
Qed.

Lemma parse_hms_str : parse_hh_mm_ss_ff (hms_str h mi s us) = Some (h, mi, s, us).
Proof.
  rewrite hms_str_eq. unfold parse_hh_mm_ss_ff.
  assert (R : forall z rest, (0 <= z < 60)%Z ->
                read_digits 2 (Zpad 2 z ++ rest) 0 = Some (z, rest)).
  { intros z rest Hz. apply (Zpad_spec 1 z).
    change (10 ^ Z.of_nat 2)%Z with 100%Z. lia. }
  rewrite R by lia. cbn [mbind option_bind]. rewrite expect_same.
  cbn [mbind option_bind]. rewrite R by lia. cbn [mbind option_bind].
  rewrite expect_same. cbn [mbind option_bind]. rewrite R by lia.
  cbn [mbind option_bind]. apply parse_fraction_str.
Qed.

Lemma parse_time_str :
  parse_isoformat_time (hms_str h mi s us) = Some (h, mi, s, us, None).
Proof.
  unfold parse_isoformat_time.
  assert (Hno : forall a, negb (time_char a) = true ->
                  split_at a (hms_str h mi s us) = None).
  { intros a Ha. apply split_at_none.
    eapply str_forall_impl; [|apply hms_str_chars].
    intros b Hb. cbv beta. destruct (Ascii.eqb_spec a b) as [<- | _]; [|reflexivity].
    rewrite Hb in Ha. discriminate. }
  rewrite !Hno by reflexivity. rewrite parse_hms_str. reflexivity.
Qed.
End TimeOfDay.

Lemma ascii_forall_impl (P Q : ascii -> bool) :
  forallb (fun a => implb (P a) (Q a)) all_ascii = true ->
  forall a, P a = true -> Q a = true.
Proof.
  intros H a Ha. pose proof (ascii_forall _ H a) as F. cbv beta in F.
  rewrite Ha in F. exact F.
Qed.

Lemma isoformat_sep_naive c y m d h mi s us :
  isoformat_sep (String c "") (DateTime y m d h mi s us None) =
  (Zpad 4 y ++ String "-" (Zpad 2 m ++ String "-"
     (Zpad 2 d ++ String c (hms_str h mi s us ++ ""))))%string.
Proof. reflexivity. Qed.

(** A valid naive timestamp rendered with any one-character separator
    reads back as itself. *)
Lemma parse_isoformat_sep c t :
  valid_naive t = true ->
  parse_isoformat (isoformat_sep (String c "") t) = Some t.
Proof.
  destruct t as [y m d h mi s us [o|]]; unfold valid_naive;
    cbn [year month day hour minute second microsecond tzoffset];
    [rewrite andb_false_r; discriminate|].
  rewrite andb_true_r. intros H.
  repeat (apply andb_true_iff in H as [H ?]).
  repeat match goal with
         | H : (_ <=? _)%Z = true |- _ => apply Z.leb_le in H
         | H : (_ <? _)%Z = true |- _ => apply Z.ltb_lt in H
         end.
  rewrite isoformat_sep_naive, append_empty. unfold parse_isoformat.
  assert (R4 : forall rest, read_digits 4 (Zpad 4 y ++ rest) 0 = Some (y, rest)).
  { intros rest. apply (Zpad_spec 3 y).
    change (10 ^ Z.of_nat 4)%Z with 10000%Z. lia. }
  assert (R2 : forall z rest, (0 <= z < 60)%Z ->
                 read_digits 2 (Zpad 2 z ++ rest) 0 = Some (z, rest)).
  { intros z rest Hz. apply (Zpad_spec 1 z).
    change (10 ^ Z.of_nat 2)%Z with 100%Z. lia. }
  assert (Hd : (d <= 31)%Z).
  { unfold days_in_month in *.
    repeat match goal with
           | H : context [if ?b then _ else _] |- _ => destruct b
           end; lia. }
  rewrite R4. cbn [mbind option_bind]. rewrite expect_same.
  cbn [mbind option_bind]. rewrite R2 by lia. cbn [mbind option_bind].
  rewrite expect_same. cbn [mbind option_bind]. rewrite R2 by lia.
  cbn [mbind option_bind]. rewrite parse_time_str by lia.
  cbn [mbind option_bind].
  repeat match goal with
         | H : (?a <= ?b)%Z |- context [(?a <=? ?b)%Z] =>
             rewrite (proj2 (Z.leb_le a b) H)
         | H : (?a < ?b)%Z |- context [(?a <? ?b)%Z] =>
             rewrite (proj2 (Z.ltb_lt a b) H)
         end.
  reflexivity.
Qed.

Lemma isoformat_sep_no_Z c t :
  valid_naive t = true -> Ascii.eqb c "Z" = false ->
  replace_char "Z" "+00:00" (isoformat_sep (String c "") t) =
    isoformat_sep (String c "") t.
Proof.
  intros Hvalid Hc. apply replace_char_none.
  destruct t as [y m d h mi s us [o|]]; unfold valid_naive in Hvalid;
    cbn [year month day hour minute second microsecond tzoffset] in Hvalid;
    [rewrite andb_false_r in Hvalid; discriminate|].
  rewrite andb_true_r in Hvalid.
  repeat (apply andb_true_iff in Hvalid as [Hvalid ?]).
  repeat match goal with
         | H : (_ <=? _)%Z = true |- _ => apply Z.leb_le in H
         | H : (_ <? _)%Z = true |- _ => apply Z.ltb_lt in H
         end.
  assert (Hd : (d <= 31)%Z).
  { unfold days_in_month in *.
    repeat match goal with
           | H : context [if ?b then _ else _] |- _ => destruct b
           end; lia. }
  assert (Hdig : forall s, str_forall is_digit s = true ->
                   str_forall (fun b => negb (Ascii.eqb b "Z")) s = true).
  { intros s0. apply str_forall_impl. apply ascii_forall_impl.
    vm_compute. reflexivity. }
  assert (Htime : forall s, str_forall time_char s = true ->
                    str_forall (fun b => negb (Ascii.eqb b "Z")) s = true).
  { intros s0. apply str_forall_impl. apply ascii_forall_impl.
    vm_compute. reflexivity. }
  rewrite isoformat_sep_naive, append_empty.
  rewrite str_forall_app. cbn [str_forall]. rewrite str_forall_app.
  cbn [str_forall]. rewrite str_forall_app. cbn [str_forall].
  rewrite Hc. cbn [negb andb].
  rewrite (Hdig (Zpad 4 y))
    by (apply (Zpad_spec 3 y); change (10 ^ Z.of_nat 4)%Z with 10000%Z; lia).
  rewrite !(Hdig (Zpad 2 _))
    by (apply (Zpad_spec 1); change (10 ^ Z.of_nat 2)%Z with 100%Z; lia).
  rewrite Htime by (apply hms_str_chars; lia). reflexivity.
Qed.

(** X13. A timestamp round trip between booking and listing: the text
    under which [create_appointment] stores a valid naive timestamp
    (through [sqlite3], as [isoformat(' ')]) is read back by
    [fromisoformat], after the replacement of ["Z"] the listing applies,
    as the very same naive timestamp, microseconds included; and so is
    the [isoformat()] text put in the data of a booking.  Hence a row
    created by [create_appointment] never makes the listing fail. *)
Theorem stored_time_reads_back (t : datetime) (Hvalid : valid_naive t = true) :
  fromisoformat (replace_char "Z" "+00:00" (adapt_datetime t)) = Ok t /\
  fromisoformat (isoformat t) = Ok t /\
  forall appointment_id patient_name doctor_name notes status,
    is_naive_time (Appointment appointment_id patient_name doctor_name
                               (adapt_datetime t) notes status) = true.
Proof.
  assert (H1 : fromisoformat (replace_char "Z" "+00:00" (adapt_datetime t)) = Ok t).
  { unfold adapt_datetime. rewrite isoformat_sep_no_Z by (exact Hvalid || reflexivity).
    unfold fromisoformat. rewrite parse_isoformat_sep by exact Hvalid. reflexivity. }
  split; [exact H1|]. split.
  - unfold isoformat, fromisoformat.
    rewrite parse_isoformat_sep by exact Hvalid. reflexivity.
  - intros. unfold is_naive_time. cbn [apt_appointment_time]. rewrite H1.
    unfold valid_naive in Hvalid. apply andb_true_iff in Hvalid as [_ Htz].
    destruct (tzoffset t); [discriminate | reflexivity].
Qed.

Lemma stored_time_reads_back_witness :
  valid_naive (DateTime 2024 2 29 23 59 58 250000 None) = true /\
  adapt_datetime (DateTime 2024 2 29 23 59 58 250000 None) =
    "2024-02-29 23:59:58.250000" /\
  fromisoformat "2024-02-29 23:59:58.250000" =
    Ok (DateTime 2024 2 29 23 59 58 250000 None).
Proof.
  assert (H : valid_naive (DateTime 2024 2 29 23 59 58 250000 None) = true)
    by reflexivity.
  split; [exact H|]. split; [reflexivity|].
  exact (proj1 (stored_time_reads_back _ H)).
Defined.

(** ** A clock in ordinary times *)

Lemma days_before_month_bound y m :
  (1 <= m <= 12)%Z ->
  (0 <= days_before_month y m /\
   days_before_month y m + days_in_month y m <= 366)%Z.
Proof.
  intros Hm.
  assert (Hcases : (m = 1 \/ m = 2 \/ m = 3 \/ m = 4 \/ m = 5 \/ m = 6 \/ m = 7
                    \/ m = 8 \/ m = 9 \/ m = 10 \/ m = 11 \/ m = 12)%Z) by lia.
  unfold days_before_month.
  repeat (destruct Hcases as [-> | Hcases]); try subst m;
    match goal with
    | |- context [Z.to_nat ?e] =>
        let n := eval vm_compute in (Z.to_nat e) in change (Z.to_nat e) with n
    end;
    cbn [days_before_month_aux]; unfold days_in_month;
    destruct (is_leap y); vm_compute; split; discriminate.
Qed.

Lemma ymd2ord_bound y m d :
  (1 <= y <= 9998)%Z -> (1 <= m <= 12)%Z -> (1 <= d <= days_in_month y m)%Z ->
  (1 <= ymd2ord y m d <= max_ordinal - 300)%Z.
Proof.
  intros Hy Hm Hd. pose proof (days_before_month_bound y m Hm) as [H0 H1].
  unfold ymd2ord, max_ordinal, days_before_year. cbv zeta.
  Z.div_mod_to_equations. lia.
Qed.

(** One hour after a valid time before the year 9999 is a time. *)
Lemma dt_add_hour_ok (t : datetime) :
  valid_naive t = true -> (year t <= 9998)%Z ->
  exists t', dt_add t (timedelta 0 1) = Ok t'.
Proof.
  destruct t as [y m d h mi s us tz]; unfold valid_naive;
    cbn [year month day hour minute second microsecond tzoffset].
  intros H Hy. apply andb_true_iff in H as [H _].
  repeat (apply andb_true_iff in H as [H ?]).
  repeat match goal with
         | H : (_ <=? _)%Z = true |- _ => apply Z.leb_le in H
         | H : (_ <? _)%Z = true |- _ => apply Z.ltb_lt in H
         end.
  pose proof (ymd2ord_bound y m d) as Hord.
  unfold dt_add, to_us, timedelta, us_per_day.
  cbn [year month day hour minute second microsecond tzoffset].
  set (ord := ymd2ord y m d) in *.
  assert (Hb : (1 <= ord <= max_ordinal - 300)%Z) by (apply Hord; lia).
  unfold max_ordinal in *.
  match goal with
  | |- context [(?a / ?b)%Z] =>
      assert (Hq : (ord <= a / b <= ord + 1)%Z)
        by (split; [apply Z.div_le_lower_bound | apply Z.lt_succ_r, Z.div_lt_upper_bound]; lia);
      destruct (Z.leb_spec 1 (a / b)); [|lia];
      destruct (Z.leb_spec (a / b) 3652059); [|lia]
  end.
  cbn [andb]. eauto.
Qed.

Lemma try_except_ok {store A : Type} (body : M store A)
  (handler : exn -> M store A) (w : world store) :
  clock_only body ->
  (forall e w1, frame w w1 -> exists a w2, handler e w1 = (Ok a, w2)) ->
  exists a w', try_except body handler w = (Ok a, w').
Proof.
  intros Hb Hh. unfold try_except. specialize (Hb w).
  destruct (body w) as [[a|e] w1]; cbn [snd] in Hb; [eauto|].
  apply Hh. exact Hb.
Qed.

(** The time resolver returns a time whenever the clock is in ordinary
    times: when all else fails it answers one hour from now. *)
Lemma parse_time_returns {store : Type}
  (date_parser_parse : string -> datetime -> result (Z * Z))
  (time_str : pyval) (full_command : string) (w : world store) :
  ordinary_clock w ->
  exists t w', _parse_time date_parser_parse time_str full_command w = (Ok t, w').
Proof.
  intros Hclock. unfold _parse_time, dateutil_parse.
  apply try_except_ok.
  - apply clock_only_bind; [auto with clock|]. intros now.
    apply clock_only_bind; [auto with clock|]. intros base_date.
    apply clock_only_bind.
    + destruct (py_truthy time_str); [|auto with clock].
      apply clock_only_try; [|auto with clock].
      apply clock_only_bind.
      * apply clock_only_bind; auto with clock.
      * intros [h mi]. apply clock_only_bind; auto with clock.
    + intros [t|]; auto with clock.
  - intros e w1 (Hwall & _). msimpl. unfold datetime_now.
    rewrite Hwall. destruct (Hclock (clock_reads w1)) as [Hvalid Hyear].
    destruct (dt_add_hour_ok _ Hvalid Hyear) as (t' & ->). eauto.
Qed.

(** X14. With a clock in ordinary times (valid readings, before the
    year 9999) the time resolver always returns a time, whatever the
    token, the text and the parser do, and it touches nothing but the
    clock: whatever goes wrong inside, the outer handler answers one
    hour from now. *)
Theorem parse_time_always_answers {store : Type}
  (date_parser_parse : string -> datetime -> result (Z * Z))
  (time_str : pyval) (full_command : string) (w : world store)
  (Hclock : ordinary_clock w) :
  exists t w',
    _parse_time date_parser_parse time_str full_command w = (Ok t, w') /\
    frame w w'.
Proof.
  destruct (parse_time_returns date_parser_parse time_str full_command w Hclock)
    as (t & w' & H).
  exists t, w'. split; [exact H|].
  pose proof (parse_time_clock_only date_parser_parse time_str full_command w) as F.
  rewrite H in F. exact F.
Qed.

Lemma parse_time_always_answers_witness :
  ordinary_clock fresh_world /\
  fst (_parse_time no_parser (PyStr "25") "at 25" fresh_world) =
    Ok (DateTime 2024 1 1 11 0 0 0 None).
Proof.
  assert (Hclock : ordinary_clock fresh_world).
  { intros k. split; [reflexivity | cbn; lia]. }
  split; [exact Hclock|].
  destruct (parse_time_always_answers no_parser (PyStr "25") "at 25" fresh_world
              Hclock) as (t & w' & H & _).
  rewrite H. vm_compute in H. injection H as <- _. reflexivity.
Defined.

(** In the last hour of the year 9999 the resolver has no answer left:
    the handler's own addition overflows and the exception leaves
    [_parse_time]. *)
Example parse_time_overflows_at_the_end_of_time :
  fst (_parse_time no_parser (PyStr "") "see you soon" last_world) =
    Raise OverflowError.
Proof. vm_compute. reflexivity. Qed.

Lemma truthy_title s : truthy (str_title s) = truthy s.
Proof.
  unfold str_title. destruct s as [|a s]; [reflexivity|].
  cbn [title_from]. destruct (is_upper a || is_lower a); reflexivity.
Qed.

(** X15. A booking goes through.  With the SQLite database reachable
    and the clock in ordinary times, a command that the classifier takes
    for [book_appointment] with a patient name that is not empty is
    answered under that intent with the confirmation, and exactly one
    row is added to the appointments: the next identifier, the
    title-cased name, the doctor of the entities, the time as [sqlite3]
    stores it, the notes ["Booked via voice command: "] followed by the
    normalised command, and the status ["scheduled"].  The time stored
    and confirmed is the one [_parse_time] gives for the time entity
    (the empty string when there is none) and the normalised command,
    at the clock as the call finds it; the clock is read no further.
    The interaction is logged with the transcript as given. *)
Theorem booking_is_stored
  (date_parser_parse : string -> datetime -> result (Z * Z))
  (command cleaned : string) (ents : entities) (conf : Q) (name : string)
  (w : world sqlite_db)
  (Hconn : connectable (db w) = true)
  (Hclock : ordinary_clock w)
  (Hp : _preprocess_command command = Ok cleaned)
  (Hc : _extract_intent_and_entities cleaned = Ok ("book_appointment", ents, conf))
  (Hname : ents !! "patient_name" = Some (PyStr name))
  (Hfull : truthy name = true) :
  exists doctor t w1 w',
    ents !! "doctor" = Some (PyStr doctor) /\
    _parse_time date_parser_parse (ent_get ents "time" "") cleaned w = (Ok t, w1) /\
    clock_reads w' = clock_reads w1 /\
    let appointment_id := (appointment_seq (db w) + 1)%Z in
    let r := booked_reply appointment_id (str_title name) (PyStr doctor) t in
    interpret date_parser_parse command w =
      (Ok (Outcome "book_appointment" (response r) (data r) conf), w') /\
    appointments (db w') =
      appointments (db w) ++
      [Appointment appointment_id (str_title name) doctor (adapt_datetime t)
                   (PyStr ("Booked via voice command: " ++ cleaned)) "scheduled"] /\
    voice_logs (db w') =
      voice_logs (db w) ++ [VoiceLog command "book_appointment" (response r) conf].
Proof.
  destruct (classification_shape _ _ _ _ Hc) as [_ [_ (doctor & Hdoc)]].
  destruct (parse_time_returns date_parser_parse (ent_get ents "time" "") cleaned w
              Hclock) as (t & w1 & Ht).
  pose proof (parse_time_clock_only date_parser_parse
                (ent_get ents "time" "") cleaned w) as Hf.
  rewrite Ht in Hf. destruct Hf as (Hwall & Hdb & Hcalls & _).
  cbn [snd] in Hwall, Hdb, Hcalls.
  exists doctor, t, w1. eexists. split; [exact Hdoc|]. split; [exact Ht|]. cbv zeta.
  assert (Hi : interpret date_parser_parse command w =
    (Ok (Outcome "book_appointment"
           (response (booked_reply (appointment_seq (db w) + 1) (str_title name)
                                   (PyStr doctor) t))
           (data (booked_reply (appointment_seq (db w) + 1) (str_title name)
                               (PyStr doctor) t)) conf),
     World (wall_clock w) (clock_reads w1)
       (SqliteDb true
          (appointments (db w) ++
           [Appointment (appointment_seq (db w) + 1) (str_title name) doctor
              (adapt_datetime t)
              (PyStr ("Booked via voice command: " ++ cleaned)) "scheduled"])
          (patients (db w)) (visits (db w))
          (voice_logs (db w) ++
           [VoiceLog command "book_appointment"
              (response (booked_reply (appointment_seq (db w) + 1) (str_title name)
                                      (PyStr doctor) t)) conf])
          (appointment_seq (db w) + 1))
       ((calls w ++
         [CreateAppointment (str_title name) (PyStr doctor) t
            ("Booked via voice command: " ++ cleaned)]) ++
        [LogVoiceInteraction command "book_appointment"
           (response (booked_reply (appointment_seq (db w) + 1) (str_title name)
                                   (PyStr doctor) t)) conf]))).
  { unfold interpret, interpret_body. msimpl. rewrite Hp, Hc. msimpl.
    unfold _process_intent. cbn [String.eqb Ascii.eqb Bool.eqb].
    unfold _handle_book_appointment. msimpl.
    unfold ent_get in *. rewrite Hname, Hdoc. cbn [py_title py_format].
    rewrite truthy_title, Hfull. cbn [negb]. rewrite Ht.
    cbn [create_appointment log_voice_interaction DatabaseManager].
    unfold sqlite_create_appointment, sqlite_log_voice_interaction.
    rewrite Hdb, Hconn, Hwall, Hcalls.
    cbn [negb connectable db wall_clock clock_reads calls appointments patients
         visits voice_logs appointment_seq].
    reflexivity. }
  split; [|split; [exact Hi|split; reflexivity]].
  reflexivity.
Qed.

Lemma booking_is_stored_witness :
  connectable (db fresh_world) = true /\ ordinary_clock fresh_world /\
  _preprocess_command "Book appointment for Bob" = Ok "book appointment for bob" /\
  fst (_parse_time no_parser (PyStr "") "book appointment for bob" fresh_world) =
    Ok (DateTime 2024 1 1 11 0 0 0 None) /\
  fst (interpret no_parser "Book appointment for Bob" fresh_world) =
    Ok (Outcome "book_appointment"
          ("Appointment booked successfully for Bob with Dr. Smith on "
           ++ "2024-01-01 at 11:00 AM. Appointment ID: 1")%string
          (DataBooking 1 "Bob" (PyStr "Dr. Smith") "2024-01-01T11:00:00")
          (24 # 24)) /\
  appointments (db (snd (interpret no_parser "Book appointment for Bob" fresh_world))) =
    [Appointment 1 "Bob" "Dr. Smith" "2024-01-01 11:00:00"
       (PyStr "Booked via voice command: book appointment for bob") "scheduled"].
Proof.
  assert (Hconn : connectable (db fresh_world) = true) by reflexivity.
  assert (Hclock : ordinary_clock fresh_world).
  { intros k. split; [reflexivity | cbn; lia]. }
  assert (Hp : _preprocess_command "Book appointment for Bob" =
               Ok "book appointment for bob") by (vm_compute; reflexivity).
  assert (Hc : _extract_intent_and_entities "book appointment for bob" =
               Ok ("book_appointment",
                   <["doctor" := PyStr "Dr. Smith"]>
                     (<["patient_name" := PyStr "bob"]> ∅), 24 # 24))
    by (vm_compute; reflexivity).
  assert (Hname : (<["doctor" := PyStr "Dr. Smith"]>
                     (<["patient_name" := PyStr "bob"]> (∅ : entities)))
                  !! "patient_name" = Some (PyStr "bob")) by reflexivity.
  split; [exact Hconn|]. split; [exact Hclock|]. split; [exact Hp|].
  destruct (booking_is_stored no_parser _ _ _ _ "bob" fresh_world
              Hconn Hclock Hp Hc Hname eq_refl)
    as (doctor & t & w1 & w' & Hdoc & Ht & _ & Hi & Happ & _).
  vm_compute in Hdoc. injection Hdoc as <-.
  apply (f_equal fst) in Ht. cbn [fst] in Ht. vm_compute in Ht.
  injection Ht as <-.
  split; [vm_compute; reflexivity|].
  rewrite Hi. cbn [fst snd]. rewrite Happ.
  split; vm_compute; reflexivity.
Defined.

(** ** What the interpreter leaves alone in the SQLite store *)

Lemma same_records_refl s : same_records s s.
Proof. unfold same_records. auto. Qed.

Lemma same_records_trans s1 s2 s3 :
  same_records s1 s2 -> same_records s2 s3 -> same_records s1 s3.
Proof.
  unfold same_records. intros (A1 & B1 & C1 & D1) (A2 & B2 & C2 & D2).
  repeat split; congruence.
Qed.

Lemma keeps_clock_only {A : Type} (c : M sqlite_db A) :
  clock_only c -> keeps_records c.
Proof.
  intros Hc w. destruct (Hc w) as (_ & Hdb & _). rewrite Hdb.
  apply same_records_refl.
Qed.

Lemma keeps_bind {A B : Type} (c : M sqlite_db A) (k : A -> M sqlite_db B) :
  keeps_records c -> (forall a, keeps_records (k a)) -> keeps_records (c ≫= k).
Proof.
  intros Hc Hk w. msimpl. specialize (Hc w).
  destruct (c w) as [[a|e] w1]; cbn [snd] in *; [|exact Hc].
  eapply same_records_trans; [exact Hc | apply Hk].
Qed.

Lemma keeps_try {A : Type} (body : M sqlite_db A) (handler : exn -> M sqlite_db A) :
  keeps_records body -> (forall e, keeps_records (handler e)) ->
  keeps_records (try_except body handler).
Proof.
  intros Hb Hh w. unfold try_except. specialize (Hb w).
  destruct (body w) as [[a|e] w1]; cbn [snd] in *; [exact Hb|].
  eapply same_records_trans; [exact Hb | apply Hh].
Qed.

Lemma keeps_invoke {A : Type} (c : db_call) (op : sqlite_db -> result A * sqlite_db) :
  (forall s, same_records s (snd (op s))) -> keeps_records (invoke c op).
Proof.
  intros Hop w. unfold invoke. specialize (Hop (db w)).
  destruct (op (db w)) as [r s]. exact Hop.
Qed.

(** The four operations the handlers call leave the patients, the
    visits and the voice log alone. *)
Lemma handler_operations_keep_records :
  (forall p d t n s, same_records s (snd (sqlite_create_appointment p d t n s))) /\
  (forall s, same_records s (snd (sqlite_get_appointments s))) /\
  (forall p now s, same_records s (snd (sqlite_get_patient_info p now s))) /\
  (forall s, same_records s (snd (sqlite_get_all_patients s))).
Proof.
  repeat split;
    try (unfold sqlite_create_appointment; destruct (negb (connectable s));
         [|destruct d]; reflexivity);
    try (unfold sqlite_get_appointments; destruct (negb (connectable s)); reflexivity);
    try (unfold sqlite_get_patient_info; destruct (negb (connectable s));
         [|destruct (List.filter _ _)]; reflexivity);
    try (unfold sqlite_get_all_patients; destruct (negb (connectable s)); reflexivity).
Qed.

Lemma process_intent_keeps_records
  (date_parser_parse : string -> datetime -> result (Z * Z))
  (intent : string) (ents : entities) (command : string) :
  keeps_records (_process_intent date_parser_parse intent ents command).
Proof.
  destruct handler_operations_keep_records as (Hcreate & Hget & Hinfo & Hall).
  unfold _process_intent.
  destruct (String.eqb intent "book_appointment").
  { unfold _handle_book_appointment.
    apply keeps_try; [|intros e; apply keeps_clock_only; auto with clock].
    apply keeps_bind; [apply keeps_clock_only; auto with clock|]. intros name.
    destruct (negb (truthy name)); [apply keeps_clock_only; auto with clock|].
    apply keeps_bind; [apply keeps_clock_only, parse_time_clock_only|]. intros t.
    apply keeps_bind; [|intros a; apply keeps_clock_only; auto with clock].
    apply keeps_invoke. apply Hcreate. }
  destruct (String.eqb intent "query_patient").
  { unfold _handle_query_patient.
    apply keeps_try; [|intros e; apply keeps_clock_only; auto with clock].
    apply keeps_bind; [apply keeps_clock_only; auto with clock|]. intros name.
    destruct (negb (truthy name)); [apply keeps_clock_only; auto with clock|].
    apply keeps_bind; [apply keeps_clock_only; auto with clock|]. intros now.
    apply keeps_bind;
      [|intros [msg|p vs up]; apply keeps_clock_only; auto with clock].
    apply keeps_invoke. apply Hinfo. }
  destruct (String.eqb intent "view_appointments").
  { unfold _handle_view_appointments.
    apply keeps_try; [|intros e; apply keeps_clock_only; auto with clock].
    apply keeps_bind; [apply keeps_invoke; apply Hget|].
    intros [|apt l]; apply keeps_clock_only; [auto with clock|].
    apply clock_only_bind; [apply select_upcoming_clock_only|]. intros up.
    apply clock_only_bind; auto with clock. }
  destruct (String.eqb intent "view_patients").
  { unfold _handle_view_patients.
    apply keeps_try; [|intros e; apply keeps_clock_only; auto with clock].
    apply keeps_bind; [apply keeps_invoke; apply Hall|].
    intros [|p l]; apply keeps_clock_only; [auto with clock|].
    apply clock_only_bind; auto with clock. }
  destruct (String.eqb intent "greeting");
    [apply keeps_clock_only; auto with clock|].
  destruct (String.eqb intent "help"); apply keeps_clock_only; auto with clock.
Qed.

(** X16. The audit trail.  With the SQLite database reachable, every
    call of [interpret] is answered under the classifier's intent and
    confidence (never as an ["error"]) and adds exactly one row to the
    voice log: the transcript as it was given, with the intent, the
    response and the confidence of the answer.  The patients and the
    visits are left as they were. *)
Theorem interaction_is_logged
  (date_parser_parse : string -> datetime -> result (Z * Z))
  (command : string) (w : world sqlite_db)
  (Hconn : connectable (db w) = true) :
  exists cleaned intent ents conf r w',
    _preprocess_command command = Ok cleaned /\
    _extract_intent_and_entities cleaned = Ok (intent, ents, conf) /\
    interpret date_parser_parse command w =
      (Ok (Outcome intent (response r) (data r) conf), w') /\
    voice_logs (db w') =
      voice_logs (db w) ++ [VoiceLog command intent (response r) conf] /\
    patients (db w') = patients (db w) /\
    visits (db w') = visits (db w).
Proof.
  destruct (preprocess_total command) as (cleaned & Hp).
  destruct (classification_total_aux cleaned) as (intent & ents & conf & Hc).
  destruct (process_intent_returns date_parser_parse intent ents cleaned w)
    as (r & w1 & Hr).
  pose proof (process_intent_keeps_records date_parser_parse intent ents cleaned w)
    as (Hk1 & Hk2 & Hk3 & Hk4).
  rewrite Hr in Hk1, Hk2, Hk3, Hk4. cbn [snd] in Hk1, Hk2, Hk3, Hk4.
  exists cleaned, intent, ents, conf, r. eexists.
  split; [exact Hp|]. split; [exact Hc|]. split.
  - unfold interpret, interpret_body. msimpl. rewrite Hp, Hc. msimpl.
    rewrite Hr. cbn [log_voice_interaction DatabaseManager].
    unfold sqlite_log_voice_interaction. rewrite Hk1, Hconn. cbn [negb].
    reflexivity.
  - cbn [db voice_logs patients visits]. rewrite Hk2, Hk3, Hk4. auto.
Qed.

Lemma interaction_is_logged_witness :
  connectable (db clinic_world) = true /\
  exists intent resp conf w',
    snd (interpret no_parser "Hello" clinic_world) = w' /\
    voice_logs (db w') = [VoiceLog "Hello" intent resp conf].
Proof.
  assert (Hconn : connectable (db clinic_world) = true) by reflexivity.
  split; [exact Hconn|].
  destruct (interaction_is_logged no_parser "Hello" clinic_world Hconn)
    as (cleaned & intent & ents & conf & r & w' & Hp & Hc & Hi & Hlog & _).
  exists intent, (response r), conf, w'. rewrite Hi.
  split; [reflexivity | exact Hlog].
Defined.

(** ** Groups and what a pattern matches *)

Lemma star_run_erase icase c s : forall p cp cp',
  map erase (star_run icase c p s cp) = map erase (star_run icase c p s cp').
Proof.
  induction s as [|a s IH]; intros p cp cp'; cbn [star_run]; [reflexivity|].
  destruct (cset_mem icase c a); [|reflexivity].
  rewrite !map_app. rewrite (IH (S p) cp cp'). reflexivity.
Qed.

Lemma one_run_erase icase c st st' :
  erase st = erase st' ->
  map erase (one_run icase c st) = map erase (one_run icase c st').
Proof.
  unfold erase, one_run. intros [= Hp Hr]. rewrite Hp, Hr.
  destruct (rest st') as [|a s]; [reflexivity|].
  destruct (cset_mem icase c a); reflexivity.
Qed.

Lemma star_from_erase icase c st st' :
  erase st = erase st' ->
  map erase (star_from icase c st) = map erase (star_from icase c st').
Proof.
  unfold erase, star_from. intros [= Hp Hr]. rewrite Hp, Hr. apply star_run_erase.
Qed.

Lemma flat_map_erase (f g : mstate -> list mstate) :
  (forall st st', erase st = erase st' -> map erase (f st) = map erase (g st')) ->
  forall l l', map erase l = map erase l' ->
               map erase (flat_map f l) = map erase (flat_map g l').
Proof.
  intros Hfg. induction l as [|st l IH]; intros [|st' l'] H; try discriminate;
    [reflexivity|].
  cbn [map] in H. injection H as Hp Hr Hl.
  assert (Hst : erase st = erase st') by (unfold erase; congruence).
  cbn [flat_map]. rewrite !map_app.
  rewrite (Hfg st st' Hst), (IH l' Hl). reflexivity.
Qed.

(** Groups record positions and play no part in what is matched. *)
Lemma run_ungroup icase r : forall st st',
  erase st = erase st' ->
  map erase (run icase r st) = map erase (run icase (ungroup r) st').
Proof.
  induction r as [|c|c|c|c|r1 IH1 r2 IH2|r1 IH1 r2 IH2|n r IH];
    intros st st' H; cbn [run ungroup].
  - cbn [map]. rewrite H. reflexivity.
  - apply one_run_erase, H.
  - apply star_from_erase, H.
  - apply flat_map_erase; [apply star_from_erase | apply one_run_erase, H].
  - rewrite !map_app. rewrite (one_run_erase icase c st st' H). cbn [map].
    rewrite H. reflexivity.
  - apply flat_map_erase; [exact IH2 | apply IH1, H].
  - rewrite !map_app, (IH1 st st' H), (IH2 st st' H). reflexivity.
  - rewrite map_map. rewrite <- (IH st st' H). apply map_ext. reflexivity.
Qed.

Lemma run_same_ungrouped icase r r' st :
  ungroup r = ungroup r' -> run icase r st = [] -> run icase r' st = [].
Proof.
  intros Hu Hr.
  assert (H : map erase (run icase r' st) = map erase (run icase r st)).
  { rewrite (run_ungroup icase r st st eq_refl), (run_ungroup icase r' st st eq_refl).
    rewrite Hu. reflexivity. }
  rewrite Hr in H. destruct (run icase r' st); [reflexivity | discriminate].
Qed.

Lemma search_from_none icase r r' ng ng' text :
  ungroup r = ungroup r' ->
  forall s p, search_from icase r ng text p s = None ->
              search_from icase r' ng' text p s = None.
Proof.
  intros Hu. induction s as [|a s IH]; intros p; cbn [search_from].
  - destruct (run icase r (MState p "" [])) eqn:E; [|discriminate].
    rewrite (run_same_ungrouped _ _ _ _ Hu E). reflexivity.
  - destruct (run icase r (MState p (String a s) [])) eqn:E; [|discriminate].
    rewrite (run_same_ungrouped _ _ _ _ Hu E). apply IH.
Qed.

(** A pattern that differs from one that finds nothing only in its
    groups finds nothing either. *)
Lemma re_search_none p q text icase :
  same_ungrouped p q = true ->
  re_search p text icase = Ok None -> re_search q text icase = Ok None.
Proof.
  unfold same_ungrouped, re_search.
  destruct (re_compile p) as [[r ng]|]; [|discriminate].
  destruct (re_compile q) as [[r' ng']|]; [|discriminate].
  destruct (decide (ungroup r = ungroup r')) as [Hu|]; [|discriminate].
  intros _ [= H]. rewrite (search_from_none icase r r' ng ng' text Hu _ _ H).
  reflexivity.
Qed.

(** X17. The last of the five time patterns, the one that would keep
    the am/pm marker in the entity, never contributes: it differs from
    the first pattern in its group only, so whenever it matches the
    first one has matched before it and the loop has stopped.  The time
    entity is what the first four patterns alone extract. *)
Theorem fifth_time_pattern_is_dead (command : string) (ents : entities) :
  extract_time time_patterns command ents =
  extract_time (take 4 time_patterns) command ents.
Proof.
  unfold time_patterns. cbn [take extract_time].
  destruct (re_search "(\d+)\s*(?:am|pm|AM|PM)" command false)
    as [[m|]|e] eqn:E1; rsimpl; try reflexivity.
  destruct (re_search "at\s+(\d+)" command false) as [[m|]|e]; rsimpl;
    try reflexivity.
  destruct (re_search "(\d+:\d+)" command false) as [[m|]|e]; rsimpl;
    try reflexivity.
  destruct (re_search "(tomorrow|today|next\s+\w+)" command false)
    as [[m|]|e]; rsimpl; try reflexivity.
  assert (Hsame : same_ungrouped "(\d+)\s*(?:am|pm|AM|PM)"
                                 "(\d+\s*(?:am|pm|AM|PM))" = true)
    by (vm_compute; reflexivity).
  rewrite (re_search_none _ _ command false Hsame E1). reflexivity.
Qed.

(** X18. When the command has a number followed by am or pm, the time
    entity is the number alone: its characters are digits, and the
    marker is lost on the way to the time resolver. *)
Theorem meridiem_is_dropped (command : string) (ents : entities) (m : re_match)
  (Hm : re_search "(\d+)\s*(?:am|pm|AM|PM)" command false = Ok (Some m)) :
  exists digits,
    extract_time time_patterns command ents =
      Ok (<["time" := PyStr digits]> ents) /\
    str_forall is_digit digits = true.
Proof.
  unfold time_patterns. cbn [extract_time]. rewrite Hm. rsimpl.
  assert (Hg : pattern_grouped "(\d+)\s*(?:am|pm|AM|PM)" = true)
    by (vm_compute; reflexivity).
  destruct (re_search_grouped _ command false Hg) as (mo & Hs & Hgrp).
  rewrite Hm in Hs. injection Hs as <-.
  destruct (Hgrp m eq_refl) as (g & Hgm). rewrite Hgm. rsimpl.
  exists g. split; [reflexivity|].
  destruct (re_compile "(\d+)\s*(?:am|pm|AM|PM)") as [[r ng]|] eqn:Ec;
    [|vm_compute in Ec; discriminate].
  apply (re_search_group_within is_digit _ command false r ng m g Ec);
    [|exact Hm | exact Hgm].
  vm_compute in Ec. injection Ec as <- <-. vm_compute. reflexivity.
Qed.

Lemma meridiem_is_dropped_witness :
  exists m,
    re_search "(\d+)\s*(?:am|pm|AM|PM)" "see bob at 3 pm" false = Ok (Some m) /\
    extract_time time_patterns "see bob at 3 pm" ∅ = Ok (<["time" := PyStr "3"]> ∅).
Proof.
  assert (Hm : re_search "(\d+)\s*(?:am|pm|AM|PM)" "see bob at 3 pm" false =
               Ok (Some (ReMatch "see bob at 3 pm" 11 15 [(1, (11, 12))] 1)))
    by (vm_compute; reflexivity).
  eexists. split; [exact Hm|].
  destruct (meridiem_is_dropped "see bob at 3 pm" ∅ _ Hm) as (digits & He & _).
  rewrite He. vm_compute in He. injection He as <-. reflexivity.
Defined.

(** ** Letter case and the classifier *)

Lemma upper_char_facts a :
  is_upper a = true -> upper_char (lower_char a) = a /\ upper_char a = a.
Proof.
  intros H.
  assert (F : Ascii.eqb (upper_char (lower_char a)) a
              && Ascii.eqb (upper_char a) a = true).
  { revert a H. apply ascii_forall_impl. vm_compute. reflexivity. }
  apply andb_true_iff in F as [F1 F2].
  split; apply Ascii.eqb_eq; assumption.
Qed.

Lemma newline_lower a : Ascii.eqb (lower_char a) "010" = Ascii.eqb a "010".
Proof.
  apply Bool.eqb_prop. revert a. apply ascii_forall. vm_compute. reflexivity.
Qed.

Lemma existsb_pointwise {A : Type} (f g : A -> bool) l :
  (forall x, f x = g x) -> existsb f l = existsb g l.
Proof.
  intros H. induction l as [|x l IH]; [reflexivity|].
  cbn [existsb]. rewrite H, IH. reflexivity.
Qed.

(** Under [IGNORECASE] an atom does not tell a letter from its
    lower-case form. *)
Lemma cset_mem_lower c a : cset_mem true c (lower_char a) = cset_mem true c a.
Proof.
  destruct c as [|c0|neg items]; cbn [cset_mem].
  - rewrite newline_lower. reflexivity.
  - rewrite lower_char_idem. reflexivity.
  - f_equal. apply existsb_pointwise. intros it. cbn [andb].
    destruct (is_upper a) eqn:E.
    + destruct (upper_char_facts a E) as [-> ->]. rewrite lower_char_idem.
      destruct (citem_mem it (lower_char a)), (citem_mem it a); reflexivity.
    + assert (Hl : lower_char a = a) by (unfold lower_char; rewrite E; reflexivity).
      rewrite !Hl. reflexivity.
Qed.

Lemma star_run_lower c s : forall p cp,
  star_run true c p (str_lower s) cp = map lower_state (star_run true c p s cp).
Proof.
  unfold str_lower. induction s as [|a s IH]; intros p cp; [reflexivity|].
  cbn [str_map star_run]. rewrite cset_mem_lower.
  destruct (cset_mem true c a); [|reflexivity].
  rewrite map_app, IH. reflexivity.
Qed.

Lemma one_run_lower c st :
  one_run true c (lower_state st) = map lower_state (one_run true c st).
Proof.
  unfold one_run, lower_state, str_lower. cbn [rest pos caps].
  destruct (rest st) as [|a s]; [reflexivity|].
  cbn [str_map]. rewrite cset_mem_lower.
  destruct (cset_mem true c a); reflexivity.
Qed.

Lemma star_from_lower c st :
  star_from true c (lower_state st) = map lower_state (star_from true c st).
Proof. unfold star_from, lower_state. cbn [rest pos caps]. apply star_run_lower. Qed.

Lemma flat_map_lower (f : mstate -> list mstate) l :
  (forall st, f (lower_state st) = map lower_state (f st)) ->
  flat_map f (map lower_state l) = map lower_state (flat_map f l).
Proof.
  intros Hf. induction l as [|st l IH]; [reflexivity|].
  cbn [map flat_map]. rewrite map_app, Hf, IH. reflexivity.
Qed.

(** Under [IGNORECASE] the matcher takes the same steps on a text and
    on its lower-case form. *)
Lemma run_lower r : forall st,
  run true r (lower_state st) = map lower_state (run true r st).
Proof.
  induction r as [|c|c|c|c|r1 IH1 r2 IH2|r1 IH1 r2 IH2|n r IH]; intros st;
    cbn [run].
  - reflexivity.
  - apply one_run_lower.
  - apply star_from_lower.
  - rewrite one_run_lower. apply flat_map_lower. apply star_from_lower.
  - rewrite map_app, one_run_lower. reflexivity.
  - rewrite IH1. apply flat_map_lower. exact IH2.
  - rewrite map_app, IH1, IH2. reflexivity.
  - rewrite IH, !map_map. apply map_ext. reflexivity.
Qed.

Lemma search_from_lower r ng text : forall s p,
  search_from true r ng (str_lower text) p (str_lower s) =
  lower_match <$> search_from true r ng text p s.
Proof.
  induction s as [|a s IH]; intros p.
  - change (str_lower "") with "". cbn [search_from].
    pose proof (run_lower r (MState p "" [])) as R.
    change (lower_state (MState p "" [])) with (MState p "" []) in R.
    rewrite R at 1. destruct (run true r (MState p "" [])); reflexivity.
  - change (str_lower (String a s)) with (String (lower_char a) (str_lower s)).
    cbn [search_from].
    pose proof (run_lower r (MState p (String a s) [])) as R.
    change (lower_state (MState p (String a s) []))
      with (MState p (String (lower_char a) (str_lower s)) []) in R.
    rewrite R. destruct (run true r (MState p (String a s) []));
      [apply IH | reflexivity].
Qed.

Lemma substring_str_map f : forall s a n,
  substring a n (str_map f s) = str_map f (substring a n s).
Proof.
  induction s as [|c s IH]; intros [|a] [|n]; cbn [str_map substring];
    try reflexivity; rewrite ?IH; reflexivity.
Qed.

Lemma matched_len_lower command pattern :
  matched_len (str_lower command) pattern = matched_len command pattern.
Proof.
  unfold matched_len, re_search.
  destruct (re_compile pattern) as [[r ng]|]; [|reflexivity].
  rewrite search_from_lower.
  destruct (search_from true r ng command 0 command) as [m|]; [|reflexivity].
  cbn [fmap option_fmap option_map]. f_equal.
  unfold group0, lower_match, slice. cbn [m_string m_start m_end fst snd].
  unfold str_lower. rewrite substring_str_map. apply len_str_lower.
Qed.

Lemma candidates_lower command :
  candidates (str_lower command) = candidates command.
Proof.
  unfold candidates, candidates_of.
  induction (flatten_rules intent_patterns) as [|rule rules IH]; [reflexivity|].
  cbn [omap list_omap]. rewrite matched_len_lower, IH. reflexivity.
Qed.

(** X19. The classifier does not look at the case of ASCII letters: a
    command and its lower-case form get the same intent and the same
    confidence.  (The entities can differ, the extractors keep the
    letters as they are.) *)
Theorem classification_ignores_case (command : string) :
  exists intent ents ents' conf,
    _extract_intent_and_entities command = Ok (intent, ents, conf) /\
    _extract_intent_and_entities (str_lower command) = Ok (intent, ents', conf).
Proof.
  destruct (classify_first_best command) as (ents & Hc).
  destruct (classify_first_best (str_lower command)) as (ents' & Hc').
  cbv zeta in Hc, Hc'. rewrite candidates_lower in Hc'.
  unfold conf_of in Hc'. rewrite len_str_lower in Hc'.
  fold (conf_of command (snd (fold_left better (candidates command) ("unknown", 0))))
    in Hc'.
  eauto 10.
Qed.

(** ** Text fit for the speech engine *)

Lemma replace_from_forall (P : ascii -> bool) old new :
  str_forall P new = true ->
  forall s k, str_forall P s = true ->
              str_forall P (replace_from old new k s) = true.
Proof.
  intros Hnew. induction s as [|a s IH]; intros k Hs.
  - destruct k; reflexivity.
  - cbn [str_forall] in Hs. apply andb_true_iff in Hs as [Ha Hs].
    destruct k as [|k]; cbn [replace_from]; [|apply IH; exact Hs].
    destruct (starts_with old (String a s)).
    + rewrite str_forall_app, Hnew. apply IH, Hs.
    + cbn [str_forall]. rewrite Ha. apply IH, Hs.
Qed.

Lemma str_replace_forall (P : ascii -> bool) old new s :
  str_forall P new = true -> str_forall P s = true ->
  str_forall P (str_replace old new s) = true.
Proof. intros Hnew Hs. apply replace_from_forall; assumption. Qed.

(** Replacing a character by a text without it leaves none of it. *)
Lemma str_replace_gone (c : ascii) new s :
  str_forall (fun b => negb (Ascii.eqb b c)) new = true ->
  str_forall (fun b => negb (Ascii.eqb b c)) (str_replace (String c "") new s) = true.
Proof.
  intros Hnew. unfold str_replace. induction s as [|a s IH]; [reflexivity|].
  cbn [replace_from starts_with len String.length Nat.sub].
  destruct s as [|b s']; cbn [starts_with]; rewrite andb_true_r;
    (destruct (Ascii.eqb c a) eqn:E;
     [rewrite str_forall_app, Hnew; exact IH
     |cbn [str_forall]; rewrite Ascii.eqb_sym, E; exact IH]).
Qed.

(** The text after the replacements of [_clean_text] has none of the
    six characters. *)
Lemma replaced_text_chars (text : string) :
  str_forall (fun a => negb (existsb (Ascii.eqb a)
                               ["010"; "009"; "&"; "%"; "@"; "#"]%char))
    (fold_left (fun acc r => str_replace (fst r) (snd r) acc) replacements
       (str_replace tab " " (str_replace nl " " text))) = true.
Proof.
  set (t := fold_left _ _ _).
  assert (H : forall c, In c ["010"; "009"; "&"; "%"; "@"; "#"]%char ->
                str_forall (fun b => negb (Ascii.eqb b c)) t = true).
  { intros c Hc. unfold t, replacements, tab, nl. cbn [fold_left fst snd].
    cbn [In] in Hc.
    repeat (destruct Hc as [<- | Hc]);
      [..|destruct Hc];
      repeat first [ apply str_replace_gone; reflexivity
                   | apply str_replace_forall; [reflexivity|] ]. }
  clearbody t. induction t as [|a t IH]; [reflexivity|].
  cbn [str_forall]. apply andb_true_iff. split.
  - apply negb_true_iff. apply not_true_iff_false. intros Hex.
    apply existsb_exists in Hex as (c & Hc & Heq).
    specialize (H c Hc). cbn [str_forall] in H. rewrite Heq in H. discriminate.
  - apply IH. intros c Hc. specialize (H c Hc). cbn [str_forall] in H.
    apply andb_true_iff in H as [_ H]. exact H.
Qed.

Lemma str_forall_snoc P w a :
  str_forall P (w ++ String a "") = str_forall P w && P a.
Proof. rewrite str_forall_app. cbn [str_forall]. rewrite andb_true_r. reflexivity. Qed.

Lemma truthy_app_r w a : truthy (w ++ String a "") = true.
Proof. destruct w; reflexivity. Qed.

(** [split()] yields words, made of characters of the text. *)
Lemma split_from_words (P : ascii -> bool) : forall s word,
  str_forall P s = true -> str_forall P word = true ->
  str_forall not_space word = true ->
  Forall (is_word_of P) (split_from word s).
Proof.
  induction s as [|a s IH]; intros word Hs Hw Hn; cbn [split_from].
  - destruct (truthy word) eqn:E; constructor; [|constructor].
    split; [exact E | split; assumption].
  - cbn [str_forall] in Hs. apply andb_true_iff in Hs as [Ha Hs].
    destruct (is_space a) eqn:Ea.
    + destruct (truthy word) eqn:E.
      * constructor; [split; [exact E | split; assumption]|].
        apply IH; auto.
      * apply IH; auto.
    + apply IH; [exact Hs | |].
      * rewrite str_forall_snoc, Hw, Ha. reflexivity.
      * rewrite str_forall_snoc, Hn. unfold not_space. rewrite Ea. reflexivity.
Qed.

Lemma rstrip_not_space w : str_forall not_space w = true -> rstrip w = w.
Proof.
  induction w as [|a w IH]; [reflexivity|]. cbn [str_forall rstrip].
  intros H. apply andb_true_iff in H as [Ha Hw]. rewrite (IH Hw).
  unfold not_space in Ha. apply negb_true_iff in Ha.
  destruct w; [rewrite Ha|]; reflexivity.
Qed.

Lemma rstrip_app w : forall t,
  rstrip t = t -> truthy t = true -> rstrip (w ++ t) = (w ++ t)%string.
Proof.
  induction w as [|a w IH]; intros t Ht Hne; [exact Ht|].
  change (String a w ++ t)%string with (String a (w ++ t)). cbn [rstrip].
  rewrite (IH t Ht Hne). destruct (w ++ t)%string eqn:E; [|reflexivity].
  destruct w; [|discriminate].
  change ("" ++ t)%string with t in E. subst t. discriminate.
Qed.

Lemma single_spaced_app w : forall t,
  str_forall not_space w = true -> single_spaced (w ++ t) = single_spaced t.
Proof.
  induction w as [|a w IH]; intros t Hw; [reflexivity|].
  cbn [str_forall] in Hw. apply andb_true_iff in Hw as [Ha Hw].
  change (String a w ++ t)%string with (String a (w ++ t)). cbn [single_spaced].
  rewrite (IH t Hw).
  assert (E : Ascii.eqb a " " = false).
  { destruct (Ascii.eqb_spec a " ") as [-> | _]; [discriminate Ha | reflexivity]. }
  rewrite E. reflexivity.
Qed.

(** What [' '.join] makes of a list of words. *)
Lemma join_words (P : ascii -> bool) (words : list string) :
  P " "%char = true -> Forall (is_word_of P) words ->
  let r := str_join " " words in
  str_forall P r = true /\
  str_forall (fun a => not_space a || Ascii.eqb a " ") r = true /\
  single_spaced r = true /\ lstrip r = r /\ rstrip r = r /\
  (words <> [] -> match r with
                  | String a _ => is_space a = false
                  | EmptyString => False
                  end).
Proof.
  intros Hblank Hws. cbv zeta.
  induction Hws as [|w ws (Hne & Hns & HP) Hws IH]; [repeat split; congruence|].
  destruct IH as (IP & IQ & IS & IL & IR & IF).
  assert (Hfirst : match w with
                   | String a _ => is_space a = false
                   | EmptyString => False
                   end).
  { destruct w as [|a w]; [discriminate Hne|]. cbn [str_forall] in Hns.
    apply andb_true_iff in Hns as [Ha _]. apply negb_true_iff in Ha. exact Ha. }
  assert (HQ : str_forall (fun a => not_space a || Ascii.eqb a " ") w = true).
  { eapply str_forall_impl; [|exact Hns]. intros a ->. reflexivity. }
  assert (HL : lstrip w = w).
  { destruct w as [|a w]; [reflexivity|]. cbn [lstrip]. rewrite Hfirst. reflexivity. }
  destruct ws as [|w' ws'].
  { cbn [str_join]. repeat split; auto using rstrip_not_space.
    rewrite <- (append_empty w).
    rewrite single_spaced_app by exact Hns. reflexivity. }
  change (str_join " " (w :: w' :: ws'))
    with (w ++ String " " (str_join " " (w' :: ws')))%string.
  set (rest := str_join " " (w' :: ws')) in *.
  assert (Hrest : match rest with
                  | String a _ => is_space a = false
                  | EmptyString => False
                  end) by (apply IF; discriminate).
  repeat split.
  - rewrite str_forall_app, HP. cbn [str_forall]. rewrite Hblank. exact IP.
  - rewrite str_forall_app, HQ. cbn [str_forall]. exact IQ.
  - rewrite single_spaced_app by exact Hns. cbn [single_spaced].
    rewrite IS. destruct rest as [|b rest']; [destruct Hrest|].
    destruct (Ascii.eqb_spec b " ") as [-> | _]; [discriminate Hrest | reflexivity].
  - destruct w as [|a w]; [discriminate Hne|].
    change (String a w ++ String " " rest)%string
      with (String a (w ++ String " " rest)).
    cbn [lstrip]. rewrite Hfirst. reflexivity.
  - apply rstrip_app; [|reflexivity].
    change (String " " rest) with (String " " "" ++ rest)%string.
    apply rstrip_app; [exact IR|]. destruct rest; [destruct Hrest | reflexivity].
  - intros _. destruct w as [|a w]; [discriminate Hne|]. exact Hfirst.
Qed.

Lemma str_forall_and (f g : ascii -> bool) s :
  str_forall f s = true -> str_forall g s = true ->
  str_forall (fun a => f a && g a) s = true.
Proof.
  induction s as [|a s IH]; cbn [str_forall]; [auto|].
  intros Hf Hg. apply andb_true_iff in Hf as [-> Hf].
  apply andb_true_iff in Hg as [-> Hg]. cbn [andb]. auto.
Qed.

(** ** The endpoint *)

Lemma interpret_returns {store : Type} {db_manager : DbManager store}
  (date_parser_parse : string -> datetime -> result (Z * Z))
  (command : string) (w : world store) :
  exists o w', interpret date_parser_parse command w = (Ok o, w').
Proof.
  destruct (preprocess_total command) as (cleaned & Hp).
  destruct (classification_total_aux cleaned) as (intent & ents & conf & Hc).
  destruct (process_intent_returns date_parser_parse intent ents cleaned w)
    as (r & w1 & Hr).
  unfold interpret, interpret_body. msimpl. rewrite Hp, Hc. msimpl. rewrite Hr.
  destruct (log_voice_interaction command intent (response r) conf (db w1))
    as [[u|e] s]; eauto.
Qed.

(** The synthesizer never raises, reads the clock at most, and hands a
    path back only for a file the engine has saved. *)
Lemma generate_response_saves {store : Type} (vs : VoiceSynthesizer)
  (text : string) (w : world store) :
  exists audio w',
    generate_response vs text true w = (Ok audio, w') /\ frame w w' /\
    match audio with
    | None => True
    | Some path =>
        PYTTSX3_AVAILABLE vs = true /\
        exists e, engine vs = Some e /\
                  save_to_file e (_clean_text text) path = Ok tt
    end.
Proof.
  unfold generate_response.
  destruct (PYTTSX3_AVAILABLE vs); cbn [negb];
    [|eexists _, _; split; [reflexivity|]; split; [apply frame_refl | exact I]].
  destruct (engine vs) as [e|];
    [|eexists _, _; split; [reflexivity|]; split; [apply frame_refl | exact I]].
  msimpl. unfold datetime_now.
  set (path := ("voice_logs/" ++ _)%string).
  destruct (save_to_file e (_clean_text text) path) as [[]|err] eqn:E;
    eexists _, _; (split; [reflexivity|]); (split; [unfold frame; cbn; auto|]).
  - split; [reflexivity|]. exists e. auto.
  - exact I.
Qed.

(** X20. The text [_clean_text] hands to the speech engine has no line
    break, no tab and none of the characters [& % @ #]; its only white
    space is single blanks between words, with none at either end. *)
Theorem clean_text_is_fit (text : string) :
  let r := _clean_text text in
  str_forall spoken_char r = true /\ single_spaced r = true /\ str_strip r = r.
Proof.
  cbv zeta. unfold _clean_text.
  pose proof (replaced_text_chars text) as Hchars.
  set (t := fold_left _ _ _) in *.
  set (P := fun a => negb (existsb (Ascii.eqb a)
                             ["010"; "009"; "&"; "%"; "@"; "#"]%char)) in *.
  assert (Hwords : Forall (is_word_of P) (str_split t))
    by (apply split_from_words; [exact Hchars | reflexivity | reflexivity]).
  destruct (join_words P (str_split t) eq_refl Hwords)
    as (HP & HQ & HS & HL & HR & _).
  split; [|split; [exact HS|]].
  - unfold spoken_char. apply (str_forall_and P _ _ HP HQ).
  - unfold str_strip. rewrite HL. exact HR.
Qed.

(** X21. The endpoint [/api/voice/process-command] never answers with
    an [HTTPException]: whatever the command, the database manager and
    the synthesizer do, it returns the command, the intent, the
    response and the data of [interpret]'s outcome.  The synthesizer
    touches neither the database nor the record of calls, and an audio
    path is part of the answer only if audio was asked for and the
    engine has saved the cleaned response under that path. *)
Theorem voice_command_never_fails
  {store : Type} {db_manager : DbManager store}
  (voice_synthesizer : VoiceSynthesizer)
  (date_parser_parse : string -> datetime -> result (Z * Z))
  (command : VoiceCommand) (w : world store) :
  exists o w1 reply w',
    interpret date_parser_parse (text command) w = (Ok o, w1) /\
    process_voice_command voice_synthesizer date_parser_parse command w =
      (Ok reply, w') /\
    cr_command reply = text command /\
    cr_interpretation reply = intent o /\
    cr_response reply = o_response o /\
    cr_data reply = o_data o /\
    db w' = db w1 /\ calls w' = calls w1 /\
    match cr_audio_response reply with
    | None => True
    | Some path =>
        generate_audio_response command = true /\
        PYTTSX3_AVAILABLE voice_synthesizer = true /\
        exists e, engine voice_synthesizer = Some e /\
                  save_to_file e (_clean_text (o_response o)) path = Ok tt
    end.
Proof.
  destruct (interpret_returns date_parser_parse (text command) w) as (o & w1 & Hi).
  exists o, w1. unfold process_voice_command. msimpl. rewrite Hi.
  destruct (generate_audio_response command) eqn:Eg.
  - destruct (generate_response_saves voice_synthesizer (o_response o) w1)
      as (audio & w2 & Hg & (_ & Hdb & Hcalls & _) & Haudio).
    rewrite Hg. unfold datetime_now.
    eexists _, _. split; [reflexivity|]. split; [reflexivity|].
    cbn [cr_command cr_interpretation cr_response cr_data cr_audio_response
         db calls].
    repeat (split; [reflexivity || assumption|]).
    destruct audio as [path|]; [|exact I]. destruct Haudio as [Hav He]. auto.
  - unfold datetime_now.
    eexists _, _. split; [reflexivity|]. split; [reflexivity|].
    cbn [cr_command cr_interpretation cr_response cr_data cr_audio_response
         db calls].
    repeat (split; [reflexivity|]). exact I.
Qed.

(** The confirmation of a booking as it is spoken, and a command
    answered with audio. *)
Example spoken_confirmation :
  _clean_text ("Appointment booked successfully for Bob with Dr. Smith" ++ nl
               ++ tab ++ "on 2024-01-01 at 11:00 AM  & 50% #1")%string =
  "Appointment booked successfully for Bob with Doctor Smith on 2024-01-01 at 11:00 AM and 50percent number1".
Proof. vm_compute. reflexivity. Qed.

Example voice_command_with_audio :
  fst (process_voice_command working_synthesizer no_parser
         {| text := "Hello"; generate_audio_response := true |} fresh_world) =
    Ok (CommandReply "Hello" "greeting"
          "Hello! I'm AssistX, your medical assistant. How can I help you today?"
          DataNone (Some "voice_logs/voice_response_20240101_100000.wav")
          "2024-01-01T10:00:00") /\
  fst (process_voice_command silent_synthesizer no_parser
         {| text := "Hello"; generate_audio_response := true |} fresh_world) =
    Ok (CommandReply "Hello" "greeting"
          "Hello! I'm AssistX, your medical assistant. How can I help you today?"
          DataNone None "2024-01-01T10:00:00").
Proof. split; vm_compute; reflexivity. Qed.

(** ** Start-up *)

Lemma ymd2ord_lower y m d :
  (2 <= y)%Z -> (1 <= m <= 12)%Z -> (1 <= d)%Z -> (366 <= ymd2ord y m d)%Z.
Proof.
  intros Hy Hm Hd. pose proof (days_before_month_bound y m Hm) as [H0 _].
  unfold ymd2ord, days_before_year. cbv zeta.
  Z.div_mod_to_equations. lia.
Qed.

(** A month back and some days ahead of a time of the years 2 to 9998
    are times. *)
Lemma dt_add_demo_ok (t : datetime) (delta : Z) :
  valid_naive t = true -> (2 <= year t <= 9998)%Z ->
  (timedelta (-31) 0 <= delta <= timedelta 4 0)%Z ->
  exists t', dt_add t delta = Ok t'.
Proof.
  destruct t as [y m d h mi s us tz]; unfold valid_naive;
    cbn [year month day hour minute second microsecond tzoffset].
  intros H Hy Hdelta. apply andb_true_iff in H as [H _].
  repeat (apply andb_true_iff in H as [H ?]).
  repeat match goal with
         | H : (_ <=? _)%Z = true |- _ => apply Z.leb_le in H
         | H : (_ <? _)%Z = true |- _ => apply Z.ltb_lt in H
         end.
  pose proof (ymd2ord_bound y m d) as Hord.
  pose proof (ymd2ord_lower y m d) as Hlow.
  unfold dt_add, to_us, timedelta, us_per_day in *.
  cbn [year month day hour minute second microsecond tzoffset].
  set (ord := ymd2ord y m d) in *.
  assert (Hb : (366 <= ord <= max_ordinal - 300)%Z)
    by (split; [apply Hlow | apply Hord]; lia).
  unfold max_ordinal in *.
  match goal with
  | |- context [(?a / ?b)%Z] =>
      assert (Hq : (ord - 31 <= a / b <= ord + 5)%Z)
        by (split; [apply Z.div_le_lower_bound | apply Z.lt_succ_r, Z.div_lt_upper_bound]; lia);
      destruct (Z.leb_spec 1 (a / b)); [|lia];
      destruct (Z.leb_spec (a / b) 3652059); [|lia]
  end.
  cbn [andb]. eauto.
Qed.

Lemma now_plus_demo_ok (w : world sqlite_db) (delta : Z) :
  demo_clock w -> (timedelta (-31) 0 <= delta <= timedelta 4 0)%Z ->
  exists t, now_plus delta w =
            (Ok t, World (wall_clock w) (S (clock_reads w)) (db w) (calls w)).
Proof.
  intros Hclock Hdelta. unfold now_plus. msimpl. unfold datetime_now.
  destruct (Hclock (clock_reads w)) as [Hvalid Hyear].
  destruct (dt_add_demo_ok _ delta Hvalid Hyear Hdelta) as (t & ->). eauto.
Qed.

Lemma demo_clock_reads (w : world sqlite_db) (n : nat) (s : sqlite_db)
  (c : list db_call) :
  demo_clock w -> demo_clock (World (wall_clock w) n s c).
Proof. intros H k. exact (H k). Qed.

Lemma bind_get_store {A : Type} (k : sqlite_db -> M sqlite_db A)
  (w : world sqlite_db) :
  (get_store ≫= k) w = k (db w) w.
Proof. reflexivity. Qed.

(** One reading of the clock and one addition, under a demo clock. *)
Lemma now_plus_step {A : Type} (delta : Z) (k : datetime -> M sqlite_db A)
  (w : world sqlite_db) :
  demo_clock w -> (timedelta (-31) 0 <= delta <= timedelta 4 0)%Z ->
  exists t,
    (now_plus delta ≫= k) w =
      k t (World (wall_clock w) (S (clock_reads w)) (db w) (calls w)).
Proof.
  intros Hclock Hdelta.
  destruct (now_plus_demo_ok w delta Hclock Hdelta) as (t & E).
  exists t.
  change ((now_plus delta ≫= k) w)
    with (match now_plus delta w with
          | (Ok a, w') => k a w'
          | (Raise e, w') => (Raise e, w')
          end).
  rewrite E. reflexivity.
Qed.

Ltac demo_step H Hclock t :=
  match type of H with
  | _ = (now_plus ?d ≫= ?k) ?w0 =>
      let E := fresh "E" in
      let Hb := fresh "Hb" in
      assert (Hb : (timedelta (-31) 0 <= d <= timedelta 4 0)%Z)
        by (vm_compute; split; discriminate);
      destruct (now_plus_step d k w0 (fun i => Hclock i) Hb) as (t & E);
      rewrite E in H; clear E Hb; cbv beta in H;
      cbn [wall_clock clock_reads db calls] in H
  end.

(** What [populate_demo_data] does to a reachable database without
    patients. *)
Lemma populate_on_empty (w : world sqlite_db) :
  connectable (db w) = true -> patients (db w) = [] -> demo_clock w ->
  exists t1 t2 t3 a1 a2 a3,
    populate_demo_data w =
      (Ok tt,
       World (wall_clock w) (S (S (S (S (S (S (clock_reads w)))))))
         (SqliteDb true
            (((appointments (db w)
               ++ [Appointment (appointment_seq (db w) + 1) "Zara Ahmed"
                     "Dr. Wilson" (adapt_datetime a1)
                     (PyStr "Migraine consultation") "scheduled"])
              ++ [Appointment (appointment_seq (db w) + 1 + 1)
                    "Hassan Shah" "Dr. Davis" (adapt_datetime a2)
                    (PyStr "Cholesterol follow-up") "scheduled"])
             ++ [Appointment (appointment_seq (db w) + 1 + 1 + 1)
                   "Ahmed Raza" "Dr. Smith" (adapt_datetime a3)
                   (PyStr "Regular checkup") "scheduled"])
            (insert_patients demo_patients [])
            (insert_visits
               [ ("Ahmed Raza", "Dr. Smith", t1, "Hypertension checkup",
                  "Medication adjustment", "Blood pressure stable");
                 ("Fatima Ali", "Dr. Johnson", t2, "Asthma follow-up",
                  "Inhaler prescription", "Symptoms improved");
                 ("Omar Khan", "Dr. Brown", t3, "Back pain evaluation",
                  "Physical therapy recommended", "MRI scheduled") ]
               (visits (db w)))
            (voice_logs (db w))
            (appointment_seq (db w) + 1 + 1 + 1))
         (calls w)).
Proof.
  intros Hconn Ep Hclock.
  pose proof (eq_refl (populate_demo_data w)) as Hp.
  unfold populate_demo_data in Hp at 2. rewrite bind_get_store in Hp.
  rewrite Hconn, Ep in Hp. cbn [negb length Nat.ltb Nat.leb] in Hp.
  demo_step Hp Hclock t1. demo_step Hp Hclock t2. demo_step Hp Hclock t3.
  demo_step Hp Hclock a1. demo_step Hp Hclock a2. demo_step Hp Hclock a3.
  cbn [insert_appointments] in Hp. unfold put_store in Hp.
  cbn [wall_clock clock_reads db calls] in Hp.
  exists t1, t2, t3, a1, a2, a3. exact Hp.
Qed.

(** X22. The demo data are put in once.  On a reachable database under
    a clock of the years 2 to 9998, [populate_demo_data] returns; if
    the patients table has a row it changes nothing and does not even
    read the clock; if the table is empty it adds the five demo
    patients, three visits and three appointments (whose identifiers
    follow the counter) and leaves the voice log alone.  Either way a
    second call changes nothing: the data are never duplicated. *)
Theorem demo_data_is_populated_once (w : world sqlite_db)
  (Hconn : connectable (db w) = true) (Hclock : demo_clock w) :
  exists w1,
    populate_demo_data w = (Ok tt, w1) /\
    match patients (db w) with
    | _ :: _ => w1 = w
    | [] =>
        map pat_name (patients (db w1)) =
          ["Ahmed Raza"; "Fatima Ali"; "Omar Khan"; "Zara Ahmed"; "Hassan Shah"] /\
        map vis_patient_name (visits (db w1)) =
          map vis_patient_name (visits (db w))
          ++ ["Ahmed Raza"; "Fatima Ali"; "Omar Khan"] /\
        map apt_patient_name (appointments (db w1)) =
          map apt_patient_name (appointments (db w))
          ++ ["Zara Ahmed"; "Hassan Shah"; "Ahmed Raza"] /\
        map apt_id (appointments (db w1)) =
          map apt_id (appointments (db w))
          ++ [appointment_seq (db w) + 1; appointment_seq (db w) + 2;
              appointment_seq (db w) + 3]%Z /\
        appointment_seq (db w1) = (appointment_seq (db w) + 3)%Z /\
        voice_logs (db w1) = voice_logs (db w) /\
        clock_reads w1 = clock_reads w + 6
    end /\
    populate_demo_data w1 = (Ok tt, w1).
Proof.
  assert (Hfull : forall w0 : world sqlite_db,
             connectable (db w0) = true -> patients (db w0) <> [] ->
             populate_demo_data w0 = (Ok tt, w0)).
  { intros w0 Hc Hp. unfold populate_demo_data. rewrite bind_get_store.
    rewrite Hc. cbn [negb]. destruct (patients (db w0)); [congruence | reflexivity]. }
  destruct (patients (db w)) as [|p ps] eqn:Ep.
  2: { exists w. split; [|split; [reflexivity|]]; apply Hfull; congruence. }
  destruct (populate_on_empty w Hconn Ep Hclock)
    as (t1 & t2 & t3 & a1 & a2 & a3 & Hp).
  match type of Hp with _ = (_, ?w') => set (w1 := w') in * end.
  exists w1. split; [exact Hp|]. split.
  - unfold w1.
    cbn [db patients visits appointments voice_logs appointment_seq clock_reads
         insert_visits].
    rewrite !map_app. cbn [map apt_patient_name vis_patient_name apt_id].
    rewrite <- !app_assoc. cbn [app].
    split; [reflexivity|]. split; [reflexivity|]. split; [reflexivity|].
    split; [f_equal; repeat (f_equal; try lia)|].
    split; [lia|]. split; [reflexivity | lia].
  - apply Hfull; unfold w1; cbn [db connectable patients];
      [reflexivity | vm_compute; discriminate].
Qed.

Lemma demo_data_is_populated_once_witness :
  connectable (db empty_clinic) = true /\ demo_clock empty_clinic /\
  exists w1,
    startup_event empty_clinic = (Ok tt, w1) /\
    length (patients (db w1)) = 5 /\
    startup_event w1 = (Ok tt, w1).
Proof.
  assert (Hconn : connectable (db empty_clinic) = true) by reflexivity.
  assert (Hclock : demo_clock empty_clinic).
  { intros k. split; [reflexivity | cbn; lia]. }
  split; [exact Hconn|]. split; [exact Hclock|].
  destruct (demo_data_is_populated_once empty_clinic Hconn Hclock)
    as (w1 & Hp & Hrows & Hagain).
  cbn [patients db empty_clinic] in Hrows. destruct Hrows as (Hnames & _).
  exists w1.
  assert (Hc1 : connectable (db w1) = true).
  { revert Hp. vm_compute. intros [= <-]. reflexivity. }
  split; [|split].
  - unfold startup_event, sqlite_initialize, get_store. msimpl.
    rewrite Hconn. cbn [negb]. exact Hp.
  - rewrite <- (length_map pat_name), Hnames. reflexivity.
  - unfold startup_event, sqlite_initialize, get_store. msimpl.
    rewrite Hc1. cbn [negb]. exact Hagain.
Defined.
